(** * VocalHire: the interview turn controller, verified against its specification

    A shallow embedding of the Python backend of VocalHire
    (backend/app/models/schemas.py, services/gemini_service.py,
    agents/interviewer_agent.py, services/feedback_service.py and the
    websocket loop of main.py), followed by the theorems that settle the
    claims of the specification.

    Conventions of the embedding:
    - a Python [int] is a [Z]; a [datetime] is a [Z] clock reading;
    - a [str] is the [string] of its UTF-8 bytes, so that concatenation and
      equality are those of the byte strings; [len] and [strip] go through
      the code points ([Text.code_points]);
    - a value produced by [json.loads] is a [Py.value]; a JSON object is a
      [gmap string Py.value];
    - Python mutates the [InterviewState] in place; the embedding threads the
      state explicitly and returns it next to the result, also when a call
      raises, so the mutations done before the exception stay visible;
    - a reference to an [InterviewAnswer] stored in [state.answers] is the
      position of that record in the list;
    - the websocket endpoint is given twice: [Main] is its loop on decoded
      answer texts over a connection that stays up, [Websocket] adds the
      frames that do not decode, the answer texts that are not strings and
      the sends that raise once the client is gone. *)

From Stdlib Require Import ZArith NArith Ascii String Floats.
From stdpp Require Import base decidable option list strings pretty gmap.

#[local] Set Warnings "-register-all".
Local Open Scope Z_scope.

(** ** Python values and exceptions *)

Module Py.

(** The exceptions the modelled code can let escape. *)
Inductive exn : Type :=
  | IndexError
  | AttributeError
  | JSONDecodeError
  | ValidationError.

Inductive result (A : Type) : Type :=
  | Ok (a : A)
  | Raise (e : exn).
Arguments Ok {A} a.
Arguments Raise {A} e.

Definition bind {A B : Type} (r : result A) (k : A -> result B) : result B :=
  match r with
  | Ok a => k a
  | Raise e => Raise e
  end.

Definition is_ok {A : Type} (r : result A) : bool :=
  match r with Ok _ => true | Raise _ => false end.

(** What [json.loads] can return. *)
Inductive value : Type :=
  | PNone
  | PBool (b : bool)
  | PInt (z : Z)
  | PFloat (f : float)
  | PStr (s : string)
  | PList (l : list value)
  | PDict (d : gmap string value).

(** [bool(v)], the test an [if v] performs. *)
Definition truthy (v : value) : bool :=
  match v with
  | PNone => false
  | PBool b => b
  | PInt z => negb (z =? 0)
  | PFloat f => negb (PrimFloat.eqb f 0%float)
  | PStr s => negb (String.eqb s EmptyString)
  | PList l => negb (Nat.eqb (length l) 0)
  | PDict d => negb (Nat.eqb (size d) 0)
  end.

(** [v.get(key, default)]: only a dict has the method. *)
Definition get (v : value) (key : string) (default : value) : result value :=
  match v with
  | PDict d => Ok (match d !! key with Some x => x | None => default end)
  | _ => Raise AttributeError
  end.

(** [l[i]] on a list: a negative index counts from the end, an index out
    of range raises [IndexError]. *)
Definition getitem {A : Type} (l : list A) (i : Z) : result A :=
  let n := Z.of_nat (length l) in
  let j := if i <? 0 then i + n else i in
  if (j <? 0) || (n <=? j) then Raise IndexError
  else match l !! Z.to_nat j with
       | Some x => Ok x
       | None => Raise IndexError
       end.

End Py.

(** ** Python strings

    A [str] is a sequence of code points; the embedding holds it as the
    bytes of its UTF-8 encoding (a lone surrogate, which [json.loads] can
    produce from an escape, in its three-byte form). [code_points] reads the
    code points back, and [len] and [isspace] are those of Python on them. *)

Module Text.

(** The six payload bits of a continuation byte. *)
Definition continuation (b : ascii) : N := (N_of_ascii b mod 64)%N.

Fixpoint code_points (s : string) : list N :=
  match s with
  | EmptyString => []
  | String b0 rest =>
      let n0 := N_of_ascii b0 in
      if (n0 <? 192)%N then n0 :: code_points rest
      else if (n0 <? 224)%N then
        match rest with
        | String b1 rest1 =>
            ((n0 - 192) * 64 + continuation b1)%N :: code_points rest1
        | _ => [n0]
        end
      else if (n0 <? 240)%N then
        match rest with
        | String b1 (String b2 rest2) =>
            ((n0 - 224) * 4096 + continuation b1 * 64 + continuation b2)%N
              :: code_points rest2
        | _ => [n0]
        end
      else
        match rest with
        | String b1 (String b2 (String b3 rest3)) =>
            ((n0 - 240) * 262144 + continuation b1 * 4096
             + continuation b2 * 64 + continuation b3)%N
              :: code_points rest3
        | _ => [n0]
        end
  end.

(** [len(s)]: the number of code points. *)
Definition len (s : string) : nat := length (code_points s).

(** [c.isspace()], the test [str.strip()] applies to each end of the
    string: the white space of Unicode. *)
Definition isspace (c : N) : bool :=
  ((9 <=? c) && (c <=? 13) || (28 <=? c) && (c <=? 32)
   || (c =? 133) || (c =? 160) || (c =? 5760)
   || (8192 <=? c) && (c <=? 8202)
   || (c =? 8232) || (c =? 8233) || (c =? 8239) || (c =? 8287)
   || (c =? 12288))%N.

(** The UTF-8 bytes of a code point, and of a sequence of code points. *)
Definition encode_point (c : N) : string :=
  if (c <? 128)%N then String (ascii_of_N c) EmptyString
  else if (c <? 2048)%N then
    String (ascii_of_N (192 + c / 64))
      (String (ascii_of_N (128 + c mod 64)) EmptyString)
  else if (c <? 65536)%N then
    String (ascii_of_N (224 + c / 4096))
      (String (ascii_of_N (128 + (c / 64) mod 64))
         (String (ascii_of_N (128 + c mod 64)) EmptyString))
  else
    String (ascii_of_N (240 + c / 262144))
      (String (ascii_of_N (128 + (c / 4096) mod 64))
         (String (ascii_of_N (128 + (c / 64) mod 64))
            (String (ascii_of_N (128 + c mod 64)) EmptyString))).

Fixpoint encode (l : list N) : string :=
  match l with
  | [] => EmptyString
  | c :: rest => encode_point c +:+ encode rest
  end.

End Text.

(** ** models/schemas.py *)

Inductive MessageType : Type :=
  | QUESTION | ANSWER | FEEDBACK | ERROR | STATUS | SESSION_START | SESSION_END.

Inductive QuestionCategory : Type :=
  | INTRODUCTION
  | MOTIVATION
  | INDUSTRY_EXPERIENCE
  | LEARNINGS
  | STRENGTHS_WEAKNESSES
  | FUTURE_VISION
  | UNIQUE_VALUE
  | AVAILABILITY.

#[global] Instance QuestionCategory_eq_dec : EqDecision QuestionCategory.
Proof. solve_decision. Defined.

Module InterviewQuestion.
Record t : Type := Build {
  category : QuestionCategory;
  question_text : string;
  expected_coverage : option (list string);
  follow_up_prompts : option (list string)
}.
End InterviewQuestion.

Module InterviewAnswer.
(** [is_complete] is declared [bool], but the model class does not validate
    assignments, so the field holds whatever the agent assigns to it. *)
Record t : Type := Build {
  question_category : QuestionCategory;
  question_text : string;
  answer_text : string;
  follow_up_count : Z;
  is_complete : Py.value;
  timestamp : Z
}.

Definition set_answer_text (a : t) (s : string) : t :=
  Build (question_category a) (question_text a) s
        (follow_up_count a) (is_complete a) (timestamp a).

Definition set_follow_up_count (a : t) (n : Z) : t :=
  Build (question_category a) (question_text a) (answer_text a)
        n (is_complete a) (timestamp a).

Definition set_is_complete (a : t) (v : Py.value) : t :=
  Build (question_category a) (question_text a) (answer_text a)
        (follow_up_count a) v (timestamp a).
End InterviewAnswer.

Module InterviewState.
Record t : Type := Build {
  session_id : string;
  current_question_index : Z;
  answers : list InterviewAnswer.t;
  is_completed : bool;
  started_at : Z;
  completed_at : option Z
}.

Definition set_current_question_index (s : t) (i : Z) : t :=
  Build (session_id s) i (answers s) (is_completed s)
        (started_at s) (completed_at s).

Definition set_answers (s : t) (l : list InterviewAnswer.t) : t :=
  Build (session_id s) (current_question_index s) l (is_completed s)
        (started_at s) (completed_at s).

Definition set_is_completed (s : t) (b : bool) : t :=
  Build (session_id s) (current_question_index s) (answers s) b
        (started_at s) (completed_at s).

Definition set_completed_at (s : t) (d : option Z) : t :=
  Build (session_id s) (current_question_index s) (answers s)
        (is_completed s) (started_at s) d.
End InterviewState.

Module FeedbackSection.
Record t : Type := Build {
  title : string;
  content : string;
  score : option Z
}.
End FeedbackSection.

Module InterviewFeedback.
Record t : Type := Build {
  session_id : string;
  overall_assessment : string;
  strengths : list string;
  areas_for_improvement : list string;
  specific_suggestions : list string;
  encouragement : string;
  category_feedback : list FeedbackSection.t;
  generated_at : Z
}.
End InterviewFeedback.

Module SessionData.
Record t : Type := Build {
  session_id : string;
  state : InterviewState.t;
  feedback : option InterviewFeedback.t
}.
End SessionData.

(** ** services/gemini_service.py *)

Module GeminiService.

(** The outcome of the body of a [try] that awaits [llm.ainvoke], strips
    the reply and hands it to [json.loads]: the call raised, the reply was
    not JSON, or it parsed to a value. *)
Inductive llm_json : Type :=
  | LlmRaised
  | JsonInvalid
  | JsonValue (v : Py.value).

(** The language model as the agent sees it: question, accumulated answer
    and expected coverage go in, the outcome above comes out. *)
Definition Oracle : Type :=
  string -> string -> option (list string) -> llm_json.

(** The dict of the [except Exception] branch. *)
Definition accept_default : gmap string Py.value :=
  <["is_complete" := Py.PBool true]>
    (<["missing_points" := Py.PList []]>
       (<["follow_up" := Py.PStr ""]> ∅)).

Definition validate_answer_completeness (llm : Oracle)
    (question answer : string) (expected_coverage : option (list string))
    : Py.value :=
  match llm question answer expected_coverage with
  | JsonValue result => result
  | LlmRaised | JsonInvalid => Py.PDict accept_default
  end.

End GeminiService.

(** ** agents/interviewer_agent.py *)

Module InterviewerAgent.
Import Py.

Definition QUESTIONS : list InterviewQuestion.t :=
  [ InterviewQuestion.Build INTRODUCTION
      "Tell me something about yourself (Include your name, family background, educational background, and whether you are an earning member of the family.)"
      (Some ["name"; "family background"; "educational background";
             "earning member status"])
      None;
    InterviewQuestion.Build MOTIVATION
      "What motivated you to pursue a career in this field?"
      None None;
    InterviewQuestion.Build INDUSTRY_EXPERIENCE
      "How many internships or industrial training programs have you completed so far? (Please include the names, durations, and the departments where you were trained.)"
      (Some ["number of internships"; "names of organizations"; "durations";
             "departments"])
      None;
    InterviewQuestion.Build LEARNINGS
      "Tell me five things you have learned from the internships"
      None None;
    InterviewQuestion.Build STRENGTHS_WEAKNESSES
      "Tell me two positive qualities about yourself and two areas where you think you need improvement."
      None None;
    InterviewQuestion.Build FUTURE_VISION
      "Where do you see yourself in five years?"
      None None;
    InterviewQuestion.Build UNIQUE_VALUE
      "Give me a strong reason why I should hire you and how you are different from other candidates."
      None None;
    InterviewQuestion.Build AVAILABILITY
      "Are you available to start work immediately, or do you need time to complete other commitments?"
      None None ].

(** [self.max_follow_ups], set in [__init__]. *)
Definition max_follow_ups : Z := 2.

Definition get_current_question (state : InterviewState.t)
    : result (option InterviewQuestion.t) :=
  if Z.of_nat (length QUESTIONS) <=? InterviewState.current_question_index state
  then Ok None
  else bind (getitem QUESTIONS (InterviewState.current_question_index state))
            (fun q => Ok (Some q)).

Definition get_greeting : string :=
  "Hello! I am your AI interview assistant from VocalHire. I'm here to help you practice your interview skills in a supportive environment. I will ask you a series of questions commonly asked in job interviews. Please take your time to answer each question thoughtfully. If I feel your answer needs more detail, I may ask follow-up questions. This is a practice session, so there's no pressure - just be yourself and do your best. Are you ready? Let's begin with the first question.".

(** The values of the ['action'] key. *)
Inductive Action : Type :=
  | next_question
  | follow_up
  | complete.

#[global] Instance Action_eq_dec : EqDecision Action.
Proof. solve_decision. Defined.

(** The dict [validate_and_respond] returns, without its ['state'] entry,
    which the embedding returns separately. *)
Record Response : Type := BuildResponse {
  action : Action;
  message : value;
  question_category : option QuestionCategory
}.

(** The [for ... break] loop of [_get_or_create_answer]: the first record
    of the category, with its position in the list. *)
Fixpoint find_answer (c : QuestionCategory) (l : list InterviewAnswer.t)
    : option (nat * InterviewAnswer.t) :=
  match l with
  | [] => None
  | answer :: rest =>
      if decide (InterviewAnswer.question_category answer = c)
      then Some (0%nat, answer)
      else prod_map S id <$> find_answer c rest
  end.

(** Writing through a reference to the record at position [k]. *)
Definition store (state : InterviewState.t) (k : nat) (a : InterviewAnswer.t)
    : InterviewState.t :=
  InterviewState.set_answers state (<[k := a]> (InterviewState.answers state)).

(** Returns the updated state, the position of the record and the record;
    [now] is the clock read by the timestamp's default factory. *)
Definition _get_or_create_answer (state : InterviewState.t)
    (question : InterviewQuestion.t) (new_answer_text : string) (now : Z)
    : InterviewState.t * nat * InterviewAnswer.t :=
  match find_answer (InterviewQuestion.category question)
                    (InterviewState.answers state) with
  | Some (k, existing) =>
      let existing :=
        InterviewAnswer.set_answer_text existing
          (InterviewAnswer.answer_text existing +:+ " " +:+ new_answer_text) in
      (store state k existing, k, existing)
  | None =>
      let new_answer :=
        InterviewAnswer.Build (InterviewQuestion.category question)
          (InterviewQuestion.question_text question)
          new_answer_text 0 (PBool false) now in
      (InterviewState.set_answers state
         (InterviewState.answers state ++ [new_answer]),
       length (InterviewState.answers state), new_answer)
  end.

Definition validate_and_respond (llm : GeminiService.Oracle) (now : Z)
    (state : InterviewState.t) (user_answer : string)
    : InterviewState.t * result Response :=
  match get_current_question state with
  | Raise e => (state, Raise e)
  | Ok None =>
      (state,
       Ok (BuildResponse complete
             (PStr "Thank you for completing all the questions!") None))
  | Ok (Some current_question) =>
      let '(state, k, existing_answer) :=
        _get_or_create_answer state current_question user_answer now in
      let validation :=
        GeminiService.validate_answer_completeness llm
          (InterviewQuestion.question_text current_question)
          (InterviewAnswer.answer_text existing_answer)
          (InterviewQuestion.expected_coverage current_question) in
      match get validation "is_complete" (PBool true) with
      | Raise e => (state, Raise e)
      | Ok verdict =>
          let existing_answer :=
            InterviewAnswer.set_is_complete existing_answer verdict in
          let state := store state k existing_answer in
          if truthy (InterviewAnswer.is_complete existing_answer)
             || (max_follow_ups <=? InterviewAnswer.follow_up_count existing_answer)
          then
            let state :=
              InterviewState.set_current_question_index state
                (InterviewState.current_question_index state + 1) in
            match get_current_question state with
            | Raise e => (state, Raise e)
            | Ok (Some next) =>
                (state,
                 Ok (BuildResponse next_question
                       (PStr (InterviewQuestion.question_text next))
                       (Some (InterviewQuestion.category next))))
            | Ok None =>
                (InterviewState.set_is_completed state true,
                 Ok (BuildResponse complete
                       (PStr "Thank you for completing all the questions! I'm now preparing your feedback.")
                       None))
            end
          else
            let existing_answer :=
              InterviewAnswer.set_follow_up_count existing_answer
                (InterviewAnswer.follow_up_count existing_answer + 1) in
            let state := store state k existing_answer in
            match get validation "follow_up"
                    (PStr "Could you tell me more about that?") with
            | Raise e => (state, Raise e)
            | Ok text =>
                (state,
                 Ok (BuildResponse follow_up text
                       (Some (InterviewQuestion.category current_question))))
            end
      end
  end.

End InterviewerAgent.

(** ** services/feedback_service.py *)

Module FeedbackService.
Import Py.

(** [category.value.replace('_', ' ').title()], tabulated over the enum. *)
Definition category_title (c : QuestionCategory) : string :=
  match c with
  | INTRODUCTION => "Introduction"
  | MOTIVATION => "Motivation"
  | INDUSTRY_EXPERIENCE => "Industry Experience"
  | LEARNINGS => "Learnings"
  | STRENGTHS_WEAKNESSES => "Strengths Weaknesses"
  | FUTURE_VISION => "Future Vision"
  | UNIQUE_VALUE => "Unique Value"
  | AVAILABILITY => "Availability"
  end.

Definition _generate_category_feedback (answers : list InterviewAnswer.t)
    : list FeedbackSection.t :=
  (fun answer =>
     FeedbackSection.Build
       (category_title (InterviewAnswer.question_category answer))
       ("You addressed this question with "
          +:+ (if (100 <? Text.len (InterviewAnswer.answer_text answer))%nat
               then "good detail" else "a brief response")
          +:+ ".")
       None) <$> answers.

Definition _generate_fallback_feedback (session_id : string)
    (answers : list InterviewAnswer.t) (now : Z) : InterviewFeedback.t :=
  InterviewFeedback.Build session_id
    "Thank you for completing the mock interview. You showed good effort in answering all questions."
    [ "Completed all interview questions";
      "Showed willingness to participate";
      "Provided thoughtful responses" ]
    [ "Try to provide more detailed responses";
      "Include specific examples when possible";
      "Structure your answers clearly" ]
    [ "Practice the STAR method (Situation, Task, Action, Result) for behavioral questions";
      "Prepare specific examples from your experience beforehand";
      "Take a moment to organize your thoughts before answering" ]
    "Keep practicing and you will continue to improve. Every interview is a learning opportunity!"
    []
    now.

(** Validation of a [str] field of a model. *)
Definition as_str (v : value) : result string :=
  match v with
  | PStr s => Ok s
  | _ => Raise ValidationError
  end.

Fixpoint all_str (l : list value) : result (list string) :=
  match l with
  | [] => Ok []
  | v :: rest =>
      bind (as_str v) (fun s => bind (all_str rest) (fun ss => Ok (s :: ss)))
  end.

(** Validation of a [List[str]] field of a model. *)
Definition as_str_list (v : value) : result (list string) :=
  match v with
  | PList l => all_str l
  | _ => Raise ValidationError
  end.

(** The body of the [try] of [generate_feedback]. [reply] is the outcome of
    [generate_chat_response] followed by the cleaning and [json.loads]:
    when the model call raises, [generate_chat_response] returns its
    apology sentence, which [json.loads] rejects, so that case too leaves
    the [try] through an exception. *)
Definition compile_feedback (reply : GeminiService.llm_json) (now : Z)
    (session_id : string) (answers : list InterviewAnswer.t)
    : result InterviewFeedback.t :=
  match reply with
  | GeminiService.LlmRaised | GeminiService.JsonInvalid => Raise JSONDecodeError
  | GeminiService.JsonValue feedback_data =>
      let category_feedback := _generate_category_feedback answers in
      bind (get feedback_data "overall_assessment" (PStr "")) (fun oa =>
      bind (get feedback_data "strengths" (PList [])) (fun st =>
      bind (get feedback_data "areas_for_improvement" (PList [])) (fun ar =>
      bind (get feedback_data "specific_suggestions" (PList [])) (fun su =>
      bind (get feedback_data "encouragement" (PStr "")) (fun en =>
      bind (as_str oa) (fun oa =>
      bind (as_str_list st) (fun st =>
      bind (as_str_list ar) (fun ar =>
      bind (as_str_list su) (fun su =>
      bind (as_str en) (fun en =>
      Ok (InterviewFeedback.Build session_id oa st ar su en
            category_feedback now)))))))))))
  end.

(** [try: ... except Exception: return self._generate_fallback_feedback(...)]. *)
Definition generate_feedback (reply : GeminiService.llm_json) (now : Z)
    (session_id : string) (answers : list InterviewAnswer.t)
    : InterviewFeedback.t :=
  match compile_feedback reply now session_id answers with
  | Ok feedback => feedback
  | Raise _ => _generate_fallback_feedback session_id answers now
  end.

End FeedbackService.

(** ** main.py: the conversation loop on a connection that stays up

    The loop of [interview_websocket] from the point where the frame has been
    decoded and its answer text is a [str], with every [send_json] returning.
    The frames that do not decode, the answer texts that are not strings and
    the sends that raise are in [Websocket] below, which coincides with this
    module on the sessions without them. *)

Module Main.
Import Py.

(** What one iteration of the loop works on: the answer text taken from the
    client's frame, the clock, and the replies the language model gives to
    the completeness check and to the feedback request of that turn. *)
Record Incoming : Type := BuildIncoming {
  content : string;
  clock : Z;
  oracle : GeminiService.Oracle;
  feedback_reply : GeminiService.llm_json
}.

(** The observable effects of the handler, in program order: the snapshots
    handed to [save_session] (which catches its own exceptions), the
    messages sent, and the calls of the feedback compiler. *)
Inductive Event : Type :=
  | Saved (session_data : SessionData.t)
  | Sent (type : MessageType) (text : string)
  | SentFeedback (feedback : InterviewFeedback.t)
  | SentError (e : exn)
  | FeedbackRequested (session_id : string) (answers : list InterviewAnswer.t).

Inductive Status : Type :=
  | Running
  | Finished
  | Crashed (e : exn).

(** [not s.strip()]: every character of [s] is white space. *)
Definition all_space (s : string) : bool :=
  forallb Text.isspace (Text.code_points s).

Definition MAX_ANSWER_LENGTH : nat := 2000.

(** Validation of the [content: str] field of [Message]. *)
Definition message_content (v : value) : result string :=
  match v with
  | PStr s => Ok s
  | _ => Raise ValidationError
  end.

Definition set_state (d : SessionData.t) (s : InterviewState.t) : SessionData.t :=
  SessionData.Build (SessionData.session_id d) s (SessionData.feedback d).

Definition set_feedback (d : SessionData.t) (f : InterviewFeedback.t)
    : SessionData.t :=
  SessionData.Build (SessionData.session_id d) (SessionData.state d) (Some f).

(** The statements of [interview_websocket] before the loop. *)
Definition open_session (session_id : string) (now : Z)
    : SessionData.t * list Event :=
  let interview_state := InterviewState.Build session_id 0 [] false now None in
  let session_data := SessionData.Build session_id interview_state None in
  (session_data,
   [ Saved session_data;
     Sent SESSION_START session_id;
     Sent QUESTION InterviewerAgent.get_greeting ]
   ++ match InterviewerAgent.get_current_question interview_state with
      | Ok (Some first_question) =>
          [ Sent QUESTION (InterviewQuestion.question_text first_question) ]
      | _ => []
      end).

(** One iteration of [while True] on the answer text [content m].
    [session_data.state] and [interview_state] are the same object, so the
    state the agent mutated is the session's state also when the iteration
    ends in an exception. *)
Definition loop_body (session_data : SessionData.t) (m : Incoming)
    : SessionData.t * list Event * Status :=
  let session_id := SessionData.session_id session_data in
  if all_space (content m) then
    (session_data,
     [ Sent ERROR "I didn't catch that. Could you please repeat your answer?" ],
     Running)
  else if (MAX_ANSWER_LENGTH <? Text.len (content m))%nat then
    (session_data,
     [ Sent ERROR "Your answer is too long. Please keep it under 2000 characters." ],
     Running)
  else
    let '(interview_state, result) :=
      InterviewerAgent.validate_and_respond (oracle m) (clock m)
        (SessionData.state session_data) (content m) in
    let session_data := set_state session_data interview_state in
    match result with
    | Raise e => (session_data, [ SentError e ], Crashed e)
    | Ok r =>
        let saved := Saved session_data in
        match InterviewerAgent.action r with
        | InterviewerAgent.next_question | InterviewerAgent.follow_up =>
            match message_content (InterviewerAgent.message r) with
            | Raise e => (session_data, [ saved; SentError e ], Crashed e)
            | Ok text => (session_data, [ saved; Sent QUESTION text ], Running)
            end
        | InterviewerAgent.complete =>
            let feedback :=
              FeedbackService.generate_feedback (feedback_reply m) (clock m)
                session_id (InterviewState.answers interview_state) in
            let interview_state :=
              InterviewState.set_completed_at
                (InterviewState.set_is_completed interview_state true)
                (Some (clock m)) in
            let session_data :=
              set_feedback (set_state session_data interview_state) feedback in
            (session_data,
             [ saved;
               Sent STATUS "Generating your personalized feedback...";
               FeedbackRequested session_id (InterviewState.answers interview_state);
               Saved session_data;
               SentFeedback feedback;
               Sent SESSION_END "Interview completed successfully!" ],
             Finished)
        end
    end.

(** The loop over the messages the client sends until it disconnects. *)
Fixpoint conversation (session_data : SessionData.t) (inbox : list Incoming)
    : SessionData.t * list Event * Status :=
  match inbox with
  | [] => (session_data, [], Running)
  | m :: rest =>
      let '(session_data, events, status) := loop_body session_data m in
      match status with
      | Running =>
          let '(final, later, status) := conversation session_data rest in
          (final, events ++ later, status)
      | _ => (session_data, events, status)
      end
  end.

Definition interview_websocket (session_id : string) (started : Z)
    (inbox : list Incoming) : SessionData.t * list Event * Status :=
  let '(session_data, opening) := open_session session_id started in
  let '(final, events, status) := conversation session_data inbox in
  (final, opening ++ events, status).

Definition is_feedback_request (e : Event) : bool :=
  match e with FeedbackRequested _ _ => true | _ => false end.

(** How many times the trace calls the feedback compiler. *)
Definition feedback_calls (trace : list Event) : nat :=
  length (filter (fun e => is_feedback_request e = true) trace).

(** The [is_completed] flags of the snapshots a trace saves, in order. *)
Definition saved_flags (trace : list Event) : list bool :=
  omap (fun e => match e with
                 | Saved d => Some (InterviewState.is_completed (SessionData.state d))
                 | _ => None
                 end) trace.

(** How often a sequence of flags goes from [false] to [true]. *)
Fixpoint rises (previous : bool) (flags : list bool) : nat :=
  match flags with
  | [] => 0
  | b :: rest => ((if negb previous && b then 1 else 0) + rises b rest)%nat
  end.

End Main.

(** ** main.py: the websocket endpoint, frames and connection included

    [interview_websocket] as it runs on the frames [receive_text] returns:
    [json.loads] may reject a frame, the answer text it carries may be any
    JSON value, and a [send_json] raises once the connection is lost. An
    exception leaves the loop through the handlers at the end of the
    function. *)

Module Websocket.
Import Py.

(** The outcome of [json.loads(data)] on a frame. *)
Inductive Frame : Type :=
  | NotJson
  | Json (client_message : value).

(** The connection during one stretch of the handler (the statements before
    the loop, or one iteration): it stays up, or it is lost once [after]
    messages of the stretch have been sent. *)
Inductive Link : Type :=
  | Up
  | Down (after : nat).

(** Whether the [n]-th [send_json] of the stretch, counted from 0, returns. *)
Definition delivers (link : Link) (n : nat) : bool :=
  match link with
  | Up => true
  | Down after => (n <? after)%nat
  end.

(** What one iteration of the loop receives from outside. *)
Record Arrival : Type := BuildArrival {
  frame : Frame;
  clock : Z;
  oracle : GeminiService.Oracle;
  feedback_reply : GeminiService.llm_json;
  link : Link
}.

(** How things stand after an iteration: the loop goes on, it has left
    through [break], an exception [e] of the body has reached
    [except Exception], or a [send_json] has raised because the client is
    gone. *)
Inductive Status : Type :=
  | Running
  | Finished
  | Crashed (e : exn)
  | Disconnected.

(** The statuses of [Main], which knows no lost connection. *)
Definition of_live (status : Main.Status) : Status :=
  match status with
  | Main.Running => Running
  | Main.Finished => Finished
  | Main.Crashed e => Crashed e
  end.

(** [client_message.get("content", "")] for a dict, the message itself
    otherwise. *)
Definition answer_text (client_message : value) : value :=
  match client_message with
  | PDict d => default (PStr "") (d !! "content")
  | _ => client_message
  end.

(** [except Exception as e]: the handler tries to tell the client, after
    [sent] messages of the iteration, and ends. *)
Definition handle (session_data : SessionData.t) (events : list Main.Event)
    (link : Link) (sent : nat) (e : exn)
    : SessionData.t * list Main.Event * Status :=
  (session_data,
   events ++ (if delivers link sent then [ Main.SentError e ] else []),
   Crashed e).

(** The statements of [interview_websocket] before the loop; the status is
    [Running] when the loop is reached. *)
Definition open_session (session_id : string) (now : Z) (link : Link)
    : SessionData.t * list Main.Event * Status :=
  let interview_state := InterviewState.Build session_id 0 [] false now None in
  let session_data := SessionData.Build session_id interview_state None in
  let saved := Main.Saved session_data in
  if negb (delivers link 0) then (session_data, [ saved ], Disconnected)
  else if negb (delivers link 1) then
    (session_data, [ saved; Main.Sent SESSION_START session_id ], Disconnected)
  else
    let greeted :=
      [ saved;
        Main.Sent SESSION_START session_id;
        Main.Sent QUESTION InterviewerAgent.get_greeting ] in
    match InterviewerAgent.get_current_question interview_state with
    | Raise e => handle session_data greeted link 2 e
    | Ok None => (session_data, greeted, Running)
    | Ok (Some first_question) =>
        if negb (delivers link 2) then (session_data, greeted, Disconnected)
        else
          (session_data,
           greeted
           ++ [ Main.Sent QUESTION
                  (InterviewQuestion.question_text first_question) ],
           Running)
    end.

(** The iteration from the call of the agent on: what the loop does with
    an answer text that passed its checks. *)
Definition process (session_data : SessionData.t) (a : Arrival) (text : string)
    : SessionData.t * list Main.Event * Status :=
  let session_id := SessionData.session_id session_data in
  let '(interview_state, result) :=
    InterviewerAgent.validate_and_respond (oracle a) (clock a)
      (SessionData.state session_data) text in
  let session_data := Main.set_state session_data interview_state in
  match result with
  | Raise e => handle session_data [] (link a) 0 e
  | Ok r =>
      let saved := Main.Saved session_data in
      match InterviewerAgent.action r with
      | InterviewerAgent.next_question | InterviewerAgent.follow_up =>
          match Main.message_content (InterviewerAgent.message r) with
          | Raise e => handle session_data [ saved ] (link a) 0 e
          | Ok text =>
              if delivers (link a) 0
              then (session_data, [ saved; Main.Sent QUESTION text ], Running)
              else (session_data, [ saved ], Disconnected)
          end
      | InterviewerAgent.complete =>
          if negb (delivers (link a) 0)
          then (session_data, [ saved ], Disconnected)
          else
            let feedback :=
              FeedbackService.generate_feedback (feedback_reply a) (clock a)
                session_id (InterviewState.answers interview_state) in
            let interview_state :=
              InterviewState.set_completed_at
                (InterviewState.set_is_completed interview_state true)
                (Some (clock a)) in
            let session_data :=
              Main.set_feedback (Main.set_state session_data interview_state)
                feedback in
            let compiled :=
              [ saved;
                Main.Sent STATUS "Generating your personalized feedback...";
                Main.FeedbackRequested session_id
                  (InterviewState.answers interview_state);
                Main.Saved session_data ] in
            if negb (delivers (link a) 1)
            then (session_data, compiled, Disconnected)
            else if negb (delivers (link a) 2)
            then (session_data, compiled ++ [ Main.SentFeedback feedback ],
                  Disconnected)
            else (session_data,
                  compiled
                  ++ [ Main.SentFeedback feedback;
                       Main.Sent SESSION_END "Interview completed successfully!" ],
                  Finished)
      end
  end.

(** One iteration of [while True]: the frame is decoded, its answer text
    checked, and the text that passes is processed. *)
Definition loop_body (session_data : SessionData.t) (a : Arrival)
    : SessionData.t * list Main.Event * Status :=
  let notice (text : string) :=
    if delivers (link a) 0
    then (session_data, [ Main.Sent ERROR text ], Running)
    else (session_data, [], Disconnected) in
  match frame a with
  | NotJson => handle session_data [] (link a) 0 JSONDecodeError
  | Json client_message =>
      let answer_text := answer_text client_message in
      if negb (truthy answer_text) then
        notice "I didn't catch that. Could you please repeat your answer?"
      else
        match answer_text with
        | PStr text =>
            if Main.all_space text then
              notice "I didn't catch that. Could you please repeat your answer?"
            else if (Main.MAX_ANSWER_LENGTH <? Text.len text)%nat then
              notice "Your answer is too long. Please keep it under 2000 characters."
            else process session_data a text
        | _ => handle session_data [] (link a) 0 AttributeError
        end
  end.

(** The loop over the frames received until [receive_text] raises because
    the client has gone, which is the end of the inbox. *)
Fixpoint conversation (session_data : SessionData.t) (inbox : list Arrival)
    : SessionData.t * list Main.Event * Status :=
  match inbox with
  | [] => (session_data, [], Running)
  | a :: rest =>
      let '(session_data, events, status) := loop_body session_data a in
      match status with
      | Running =>
          let '(final, later, status) := conversation session_data rest in
          (final, events ++ later, status)
      | _ => (session_data, events, status)
      end
  end.

Definition interview_websocket (session_id : string) (started : Z)
    (opening : Link) (inbox : list Arrival)
    : SessionData.t * list Main.Event * Status :=
  let '(session_data, events, status) :=
    open_session session_id started opening in
  match status with
  | Running =>
      let '(final, later, status) := conversation session_data inbox in
      (final, events ++ later, status)
  | _ => (session_data, events, status)
  end.

End Websocket.

(** ** Sessions at the level of the agent *)

(** A turn as the agent sees it, and the states a fresh session reaches when
    [validate_and_respond] is called turn after turn, whatever it returns. *)
Module Session.

Record Turn : Type := BuildTurn {
  llm : GeminiService.Oracle;
  now : Z;
  user_answer : string
}.

Definition initial (session_id : string) (started : Z) : InterviewState.t :=
  InterviewState.Build session_id 0 [] false started None.

Definition turn (state : InterviewState.t) (t : Turn)
    : InterviewState.t * Py.result InterviewerAgent.Response :=
  InterviewerAgent.validate_and_respond (llm t) (now t) state (user_answer t).

Definition step (state : InterviewState.t) (t : Turn) : InterviewState.t :=
  fst (turn state t).

Definition run (state : InterviewState.t) (turns : list Turn) : InterviewState.t :=
  foldl step state turns.

Definition reachable (state : InterviewState.t) : Prop :=
  exists session_id started turns,
    state = run (initial session_id started) turns.

(** The categories of the records of a state, in order. *)
Definition categories (state : InterviewState.t) : list QuestionCategory :=
  InterviewAnswer.question_category <$> InterviewState.answers state.

(** The invariant of a session: the index is within the catalog or just past
    it, every record has had between 0 and [max_follow_ups] follow-ups, no
    category has two records, and the session is marked completed exactly
    when the index is past the catalog. *)
Definition well_formed (state : InterviewState.t) : Prop :=
  0 <= InterviewState.current_question_index state
       <= Z.of_nat (length InterviewerAgent.QUESTIONS)
  /\ Forall (fun a => 0 <= InterviewAnswer.follow_up_count a
                        <= InterviewerAgent.max_follow_ups)
            (InterviewState.answers state)
  /\ NoDup (categories state)
  /\ (InterviewState.is_completed state = true
      <-> InterviewState.current_question_index state
          = Z.of_nat (length InterviewerAgent.QUESTIONS)).

End Session.

(** ** Sample oracles and turns

    Used to run the model on concrete sessions. *)
Module Sample.

(** An oracle that finds every answer complete. *)
Definition satisfied : GeminiService.Oracle :=
  fun _ _ _ =>
    GeminiService.JsonValue
      (Py.PDict (<["is_complete" := Py.PBool true]>
                   (<["missing_points" := Py.PList []]>
                      (<["follow_up" := Py.PStr ""]> ∅)))).

(** An oracle that finds every answer incomplete and asks for more. *)
Definition demanding : GeminiService.Oracle :=
  fun _ _ _ =>
    GeminiService.JsonValue
      (Py.PDict (<["is_complete" := Py.PBool false]>
                   (<["missing_points" := Py.PList [Py.PStr "details"]]>
                      (<["follow_up" := Py.PStr "Can you give an example?"]> ∅)))).

(** An oracle whose reply is a JSON object without any of the expected keys. *)
Definition silent : GeminiService.Oracle :=
  fun _ _ _ => GeminiService.JsonValue (Py.PDict ∅).

(** An oracle whose call fails. *)
Definition broken : GeminiService.Oracle :=
  fun _ _ _ => GeminiService.LlmRaised.

Definition says (oracle : GeminiService.Oracle) (text : string) : Session.Turn :=
  Session.BuildTurn oracle 10 text.

(** The second question of the catalog. *)
(** A frame [{"content": text}] with the given oracle, at clock 10, with a
    feedback request that fails. *)
Definition arrives (oracle : GeminiService.Oracle) (text : string)
    (link : Websocket.Link) : Websocket.Arrival :=
  Websocket.BuildArrival
    (Websocket.Json (Py.PDict (<["content" := Py.PStr text]> ∅)))
    10 oracle GeminiService.LlmRaised link.

Definition motivation : InterviewQuestion.t :=
  InterviewQuestion.Build MOTIVATION
    "What motivated you to pursue a career in this field?" None None.

(** A session in which all eight questions were answered completely. *)
Definition finished : InterviewState.t :=
  Session.run (Session.initial "s" 0) (replicate 8 (says satisfied "yes")).

End Sample.

(** ** agents/interviewer_agent.py: the progress line *)

Module Progress.

(** [f"Question {current + 1} of {total}"]. *)
Definition get_progress_status (state : InterviewState.t) : string :=
  let total := Z.of_nat (length InterviewerAgent.QUESTIONS) in
  let current := InterviewState.current_question_index state in
  "Question " +:+ pretty (current + 1) +:+ " of " +:+ pretty total.

End Progress.

(** ** agents/interview_graph.py *)

Module InterviewGraph.

(** [InterviewGraphState] is a [TypedDict], a plain dict at run time: every
    key may be absent. *)
Record InterviewGraphState : Type := BuildState {
  session_id : option string;
  current_question_index : option Z;
  answers : option (list InterviewAnswer.t);
  is_completed : option bool;
  current_message : option string;
  next_action : option string
}.

Definition set_current_message (s : InterviewGraphState) (m : string)
    : InterviewGraphState :=
  BuildState (session_id s) (current_question_index s) (answers s)
             (is_completed s) (Some m) (next_action s).

Definition set_next_action (s : InterviewGraphState) (a : string)
    : InterviewGraphState :=
  BuildState (session_id s) (current_question_index s) (answers s)
             (is_completed s) (current_message s) (Some a).

Definition set_is_completed (s : InterviewGraphState) (b : bool)
    : InterviewGraphState :=
  BuildState (session_id s) (current_question_index s) (answers s)
             (Some b) (current_message s) (next_action s).

(** What a node can raise: [KeyError] from [state[key]], or what the agent
    raises. *)
Inductive error : Type :=
  | KeyError (key : string)
  | Escaped (e : Py.exn).

Inductive outcome (A : Type) : Type :=
  | Done (a : A)
  | Failed (e : error).
Arguments Done {A} a.
Arguments Failed {A} e.

Definition and_then {A B : Type} (o : outcome A) (k : A -> outcome B) : outcome B :=
  match o with
  | Done a => k a
  | Failed e => Failed e
  end.

(** [state[key]]. *)
Definition item {A : Type} (key : string) (entry : option A) : outcome A :=
  match entry with
  | Some x => Done x
  | None => Failed (KeyError key)
  end.

Definition of_result {A : Type} (r : Py.result A) : outcome A :=
  match r with
  | Py.Ok a => Done a
  | Py.Raise e => Failed (Escaped e)
  end.

(** [now] is the clock read for [started_at]. *)
Definition _to_interview_state (graph_state : InterviewGraphState) (now : Z)
    : outcome InterviewState.t :=
  and_then (item "session_id" (session_id graph_state)) (fun sid =>
  and_then (item "current_question_index" (current_question_index graph_state))
    (fun index =>
  and_then (item "is_completed" (is_completed graph_state)) (fun completed =>
  Done (InterviewState.Build sid index (default [] (answers graph_state))
          completed now None)))).

Definition _start_node (state : InterviewGraphState) : InterviewGraphState :=
  set_next_action
    (set_current_message state InterviewerAgent.get_greeting) "ask_question".

Definition _ask_question_node (state : InterviewGraphState) (now : Z)
    : outcome InterviewGraphState :=
  and_then (_to_interview_state state now) (fun interview_state =>
  and_then (of_result (InterviewerAgent.get_current_question interview_state))
    (fun question =>
  match question with
  | Some q =>
      Done (set_next_action
              (set_current_message state (InterviewQuestion.question_text q))
              "process_answer")
  | None => Done (set_next_action state "generate_feedback")
  end)).

Definition _process_answer_node (state : InterviewGraphState)
    : InterviewGraphState :=
  state.

Definition _follow_up_node (state : InterviewGraphState) : InterviewGraphState :=
  set_next_action state "process_answer".

Definition nl : string := String (ascii_of_nat 10) EmptyString.

(** [for i, x in enumerate(items, start): message += f"{i}. {x}\n"]. *)
Fixpoint numbered (start : nat) (items : list string) : string :=
  match items with
  | [] => ""
  | x :: rest =>
      pretty start +:+ ". " +:+ x +:+ nl +:+ numbered (S start) rest
  end.

Definition _format_feedback_message (feedback : InterviewFeedback.t) : string :=
  "ðŸŽ‰ Interview Complete! Here's your feedback:" +:+ nl +:+ nl
  +:+ "OVERALL ASSESSMENT:" +:+ nl
  +:+ InterviewFeedback.overall_assessment feedback +:+ nl +:+ nl
  +:+ "STRENGTHS:" +:+ nl
  +:+ numbered 1 (InterviewFeedback.strengths feedback)
  +:+ nl +:+ "AREAS FOR IMPROVEMENT:" +:+ nl
  +:+ numbered 1 (InterviewFeedback.areas_for_improvement feedback)
  +:+ nl +:+ "SPECIFIC SUGGESTIONS:" +:+ nl
  +:+ numbered 1 (InterviewFeedback.specific_suggestions feedback)
  +:+ nl +:+ "ENCOURAGEMENT:" +:+ nl
  +:+ InterviewFeedback.encouragement feedback +:+ nl.

(** [reply] is what the language model answers to the feedback request. *)
Definition _generate_feedback_node (reply : GeminiService.llm_json) (now : Z)
    (state : InterviewGraphState) : outcome InterviewGraphState :=
  and_then (_to_interview_state state now) (fun interview_state =>
  and_then (item "session_id" (session_id state)) (fun sid =>
  and_then (item "answers" (answers state)) (fun given =>
  let feedback := FeedbackService.generate_feedback reply now sid given in
  Done (set_next_action
          (set_is_completed
             (set_current_message state (_format_feedback_message feedback))
             true)
          "end")))).

(** [state.get("next_action", "end")]. *)
Definition _route_after_processing (state : InterviewGraphState) : string :=
  default "end" (next_action state).

(** The nodes and edges [_build_graph] declares. *)
Inductive Node : Type :=
  | start
  | ask_question
  | process_answer
  | follow_up
  | generate_feedback.

Inductive Target : Type :=
  | To (n : Node)
  | END.

Definition entry_point : Node := start.

(** [add_edge]: the unconditional edges. *)
Definition edge (n : Node) : option Target :=
  match n with
  | start => Some (To ask_question)
  | ask_question => Some (To process_answer)
  | follow_up => Some (To process_answer)
  | generate_feedback => Some END
  | process_answer => None
  end.

(** The mapping given to [add_conditional_edges] for [process_answer]. *)
Definition routes : list (string * Target) :=
  [ ("ask_question", To ask_question);
    ("follow_up", To follow_up);
    ("generate_feedback", To generate_feedback);
    ("end", END) ].

Fixpoint route_target (table : list (string * Target)) (key : string)
    : option Target :=
  match table with
  | [] => None
  | (k, t) :: rest => if decide (k = key) then Some t else route_target rest key
  end.

(** The function [add_node] binds to each node. *)
Definition run_node (reply : GeminiService.llm_json) (now : Z) (n : Node)
    (state : InterviewGraphState) : outcome InterviewGraphState :=
  match n with
  | start => Done (_start_node state)
  | ask_question => _ask_question_node state now
  | process_answer => Done (_process_answer_node state)
  | follow_up => Done (_follow_up_node state)
  | generate_feedback => _generate_feedback_node reply now state
  end.

End InterviewGraph.

(** ** Notions used to state properties of whole sessions *)

Module Flow.

Definition catalog_categories : list QuestionCategory :=
  InterviewQuestion.category <$> InterviewerAgent.QUESTIONS.

(** The records are those of the first questions of the catalog, in order:
    one for each question passed, and possibly one for the current one. *)
Definition in_catalog_order (state : InterviewState.t) : Prop :=
  exists n : nat,
    Session.categories state = take n catalog_categories
    /\ (n = Z.to_nat (InterviewState.current_question_index state)
        \/ (n = S (Z.to_nat (InterviewState.current_question_index state))
            /\ InterviewState.current_question_index state
               < Z.of_nat (length InterviewerAgent.QUESTIONS))).

(** The follow-ups already spent on the current question. *)
Definition current_follow_ups (state : InterviewState.t) : Z :=
  match InterviewerAgent.get_current_question state with
  | Py.Ok (Some q) =>
      match InterviewerAgent.find_answer (InterviewQuestion.category q)
              (InterviewState.answers state) with
      | Some (_, a) => InterviewAnswer.follow_up_count a
      | None => 0
      end
  | _ => 0
  end.

(** An upper bound on the turns a session can still take: three for every
    question from the current one on, less the follow-ups already spent. *)
Definition remaining (state : InterviewState.t) : Z :=
  (InterviewerAgent.max_follow_ups + 1)
  * (Z.of_nat (length InterviewerAgent.QUESTIONS)
     - InterviewState.current_question_index state)
  - current_follow_ups state.

(** A record and a later version of it. *)
Definition record_grows (a a' : InterviewAnswer.t) : Prop :=
  InterviewAnswer.question_category a' = InterviewAnswer.question_category a
  /\ InterviewAnswer.question_text a' = InterviewAnswer.question_text a
  /\ InterviewAnswer.timestamp a' = InterviewAnswer.timestamp a
  /\ (exists more, InterviewAnswer.answer_text a'
                   = InterviewAnswer.answer_text a +:+ more)
  /\ InterviewAnswer.follow_up_count a <= InterviewAnswer.follow_up_count a'.

Definition answers_grow (l l' : list InterviewAnswer.t) : Prop :=
  (length l <= length l')%nat
  /\ forall k a, l !! k = Some a ->
                 exists a', l' !! k = Some a' /\ record_grows a a'.

(** The completeness check on this oracle always yields a JSON object (the
    oracle replies with one, or fails). *)
Definition replies_object (llm : GeminiService.Oracle) : Prop :=
  forall question answer coverage,
    exists d, GeminiService.validate_answer_completeness llm question answer
                coverage = Py.PDict d.

(** The completeness check on this oracle always yields an object whose
    verdict is a true value. *)
Definition finds_complete (llm : GeminiService.Oracle) : Prop :=
  forall question answer coverage,
    exists d, GeminiService.validate_answer_completeness llm question answer
                coverage = Py.PDict d
              /\ Py.truthy (default (Py.PBool true) (d !! "is_complete")) = true.

End Flow.

(** ** Notions used to state properties of the websocket loop *)

Module Handler.

(** The two checks of the loop on the text of a message. *)
Definition accepted (m : Main.Incoming) : bool :=
  negb (Main.all_space (Main.content m))
  && (Text.len (Main.content m) <=? Main.MAX_ANSWER_LENGTH)%nat.

(** The turn the agent is asked to process for a message. *)
Definition turn_of (m : Main.Incoming) : Session.Turn :=
  Session.BuildTurn (Main.oracle m) (Main.clock m) (Main.content m).

(** The snapshots a trace hands to the storage, in order. *)
Definition snapshots (trace : list Main.Event) : list SessionData.t :=
  omap (fun e => match e with Main.Saved d => Some d | _ => None end) trace.

(** The snapshot the storage holds after a trace, when it held [before]
    before it. *)
Definition latest (before : SessionData.t) (trace : list Main.Event)
    : SessionData.t :=
  default before (last (snapshots trace)).

(** A message the loop accepts whose oracle replies with an object in which
    the follow-up, when given, is a string. *)
Definition well_behaved (m : Main.Incoming) : Prop :=
  accepted m = true
  /\ forall question answer coverage,
      exists d, GeminiService.validate_answer_completeness (Main.oracle m)
                  question answer coverage = Py.PDict d
                /\ (d !! "follow_up" = None
                    \/ exists s, d !! "follow_up" = Some (Py.PStr s)).

End Handler.

(** ** Notions used to state properties of the endpoint *)

Module Frames.
Import Py.

(** The notice a frame is answered with instead of being processed: its
    answer text is falsy or only white space, or it is too long. *)
Definition refusal (f : Websocket.Frame) : option string :=
  match f with
  | Websocket.NotJson => None
  | Websocket.Json client_message =>
      match Websocket.answer_text client_message with
      | PStr text =>
          if forallb Text.isspace (Text.code_points text)
          then Some "I didn't catch that. Could you please repeat your answer?"
          else if (2000 <? Text.len text)%nat
          then Some "Your answer is too long. Please keep it under 2000 characters."
          else None
      | other =>
          if truthy other then None
          else Some "I didn't catch that. Could you please repeat your answer?"
      end
  end.

(** The text a frame hands to the agent: a string with a character that is
    not white space and at most 2000 characters. *)
Definition answer (f : Websocket.Frame) : option string :=
  match f with
  | Websocket.NotJson => None
  | Websocket.Json client_message =>
      match Websocket.answer_text client_message with
      | PStr text =>
          if negb (forallb Text.isspace (Text.code_points text))
             && (Text.len text <=? 2000)%nat
          then Some text else None
      | _ => None
      end
  end.

(** The message of [Main] that carries the text of an arrival. *)
Definition incoming (a : Websocket.Arrival) (text : string) : Main.Incoming :=
  Main.BuildIncoming text (Websocket.clock a) (Websocket.oracle a)
    (Websocket.feedback_reply a).

(** A message of [Main] as it arrives: in a frame that is a JSON string,
    over a connection that stays up. *)
Definition live (m : Main.Incoming) : Websocket.Arrival :=
  Websocket.BuildArrival (Websocket.Json (PStr (Main.content m)))
    (Main.clock m) (Main.oracle m) (Main.feedback_reply m) Websocket.Up.

(** The turn the agent is asked to process for an arrival, if any. *)
Definition turn_of (a : Websocket.Arrival) : option Session.Turn :=
  Session.BuildTurn (Websocket.oracle a) (Websocket.clock a)
    <$> answer (Websocket.frame a).

Definition turns (inbox : list Websocket.Arrival) : list Session.Turn :=
  omap turn_of inbox.

(** A refused frame whose notice reaches the client. *)
Definition skipped (a : Websocket.Arrival) : bool :=
  bool_decide (is_Some (refusal (Websocket.frame a)))
  && Websocket.delivers (Websocket.link a) 0.

(** An arrival that hands a text to the agent, over a connection that
    delivers the messages of the iteration, with an oracle that replies with
    an object in which the follow-up, when given, is a string. *)
Definition well_behaved (a : Websocket.Arrival) : Prop :=
  is_Some (answer (Websocket.frame a))
  /\ Websocket.delivers (Websocket.link a) 2 = true
  /\ forall question answer coverage,
      exists d, GeminiService.validate_answer_completeness (Websocket.oracle a)
                  question answer coverage = PDict d
                /\ (d !! "follow_up" = None
                    \/ exists s, d !! "follow_up" = Some (PStr s)).

(** How far a session has got towards its end: the agent has not given
    the complete action; it has, and the completed state is saved, but no
    feedback is compiled; the feedback is compiled and saved. *)
Inductive Stage : Type :=
  | Asking
  | Marked
  | Compiled.

(** What the session data and the events since a state without a complete
    action look like at each stage. *)
Definition at_stage (stage : Stage) (d : SessionData.t)
    (events : list Main.Event) : Prop :=
  match stage with
  | Asking =>
      InterviewState.is_completed (SessionData.state d) = false
      /\ InterviewState.current_question_index (SessionData.state d) < 8
      /\ InterviewState.completed_at (SessionData.state d) = None
      /\ SessionData.feedback d = None
      /\ Main.feedback_calls events = 0%nat
      /\ Forall (eq false) (Main.saved_flags events)
  | Marked =>
      InterviewState.is_completed (SessionData.state d) = true
      /\ InterviewState.current_question_index (SessionData.state d) = 8
      /\ InterviewState.completed_at (SessionData.state d) = None
      /\ SessionData.feedback d = None
      /\ Main.feedback_calls events = 0%nat
      /\ exists quiet, Forall (eq false) quiet
                       /\ Main.saved_flags events = quiet ++ [true]
  | Compiled =>
      InterviewState.is_completed (SessionData.state d) = true
      /\ InterviewState.current_question_index (SessionData.state d) = 8
      /\ is_Some (InterviewState.completed_at (SessionData.state d))
      /\ is_Some (SessionData.feedback d)
      /\ Main.feedback_calls events = 1%nat
      /\ exists quiet, Forall (eq false) quiet
                       /\ Main.saved_flags events = quiet ++ [true; true]
  end.

(** The stages a handler can have reached when it stops with a status. *)
Definition ends_at (status : Websocket.Status) (stage : Stage) : Prop :=
  match status, stage with
  | Websocket.Running, Asking => True
  | Websocket.Crashed _, Asking => True
  | Websocket.Finished, Compiled => True
  | Websocket.Disconnected, _ => True
  | _, _ => False
  end.

End Frames.

(** * Theorems *)

Import Py.

(** ** Strings and their code points *)

Ltac divmod := zify; Z.to_euclidean_division_equations; lia.

Section Strings.

Lemma N_of_byte (n : N) : (n < 256)%N -> N_of_ascii (ascii_of_N n) = n.
Proof. apply N_ascii_embedding. Qed.

(** [code_points] reads back what [encode] wrote. *)
Lemma code_points_encode_point (c : N) (rest : string) :
  (c < 1114112)%N ->
  Text.code_points (Text.encode_point c +:+ rest) = c :: Text.code_points rest.
Proof.
  intros Hc. unfold Text.encode_point.
  destruct (N.ltb_spec c 128).
  { change (Text.code_points (String (ascii_of_N c) rest)
            = c :: Text.code_points rest).
    cbn [Text.code_points]. rewrite N_of_byte by divmod.
    destruct (N.ltb_spec c 192); [done | divmod]. }
  destruct (N.ltb_spec c 2048).
  { change (Text.code_points
              (String (ascii_of_N (192 + c / 64))
                 (String (ascii_of_N (128 + c mod 64)) rest))
            = c :: Text.code_points rest).
    cbn [Text.code_points]. unfold Text.continuation.
    rewrite !N_of_byte by divmod.
    destruct (N.ltb_spec (192 + c / 64) 192); [divmod |].
    destruct (N.ltb_spec (192 + c / 64) 224); [| divmod].
    f_equal. divmod. }
  destruct (N.ltb_spec c 65536).
  { change (Text.code_points
              (String (ascii_of_N (224 + c / 4096))
                 (String (ascii_of_N (128 + (c / 64) mod 64))
                    (String (ascii_of_N (128 + c mod 64)) rest)))
            = c :: Text.code_points rest).
    cbn [Text.code_points]. unfold Text.continuation.
    rewrite !N_of_byte by divmod.
    destruct (N.ltb_spec (224 + c / 4096) 192); [divmod |].
    destruct (N.ltb_spec (224 + c / 4096) 224); [divmod |].
    destruct (N.ltb_spec (224 + c / 4096) 240); [| divmod].
    f_equal. divmod. }
  change (Text.code_points
            (String (ascii_of_N (240 + c / 262144))
               (String (ascii_of_N (128 + (c / 4096) mod 64))
                  (String (ascii_of_N (128 + (c / 64) mod 64))
                     (String (ascii_of_N (128 + c mod 64)) rest))))
          = c :: Text.code_points rest).
  cbn [Text.code_points]. unfold Text.continuation.
  rewrite !N_of_byte by divmod.
  destruct (N.ltb_spec (240 + c / 262144) 192); [divmod |].
  destruct (N.ltb_spec (240 + c / 262144) 224); [divmod |].
  destruct (N.ltb_spec (240 + c / 262144) 240); [divmod |].
  f_equal. divmod.
Qed.

Lemma code_points_encode (l : list N) :
  Forall (fun c => (c < 1114112)%N) l -> Text.code_points (Text.encode l) = l.
Proof.
  induction 1 as [| c l Hc _ IH]; [done |].
  cbn [Text.encode]. rewrite code_points_encode_point by done. by rewrite IH.
Qed.

(** So the length and the white-space test of the model are those of the
    str a string encodes. *)
Lemma len_encode (l : list N) :
  Forall (fun c => (c < 1114112)%N) l -> Text.len (Text.encode l) = length l.
Proof. intros H. unfold Text.len. by rewrite code_points_encode. Qed.

Lemma all_space_encode (l : list N) :
  Forall (fun c => (c < 1114112)%N) l ->
  Main.all_space (Text.encode l) = forallb Text.isspace l.
Proof. intros H. unfold Main.all_space. by rewrite code_points_encode. Qed.


End Strings.

(** ** The question catalog *)

Section Catalog.
Import InterviewerAgent.

Lemma QUESTIONS_length : length QUESTIONS = 8%nat.
Proof. reflexivity. Qed.

(** The lookup depends on the state through its index only. *)
Lemma get_current_question_index (s1 s2 : InterviewState.t) :
  InterviewState.current_question_index s1
  = InterviewState.current_question_index s2 ->
  get_current_question s1 = get_current_question s2.
Proof. unfold get_current_question. intros ->. reflexivity. Qed.

Lemma getitem_nonneg {A : Type} (l : list A) (i : Z) :
  0 <= i < Z.of_nat (length l) ->
  exists x, l !! Z.to_nat i = Some x /\ getitem l i = Ok x.
Proof.
  intros Hi. unfold getitem.
  destruct (Z.ltb_spec i 0); [lia |].
  destruct (Z.ltb_spec i 0); [lia |].
  destruct (Z.leb_spec (Z.of_nat (length l)) i); [lia |]. simpl.
  destruct (lookup_lt_is_Some_2 l (Z.to_nat i)) as [x Hx]; [lia |].
  exists x. rewrite Hx. done.
Qed.

Lemma getitem_negative {A : Type} (l : list A) (i : Z) :
  - Z.of_nat (length l) <= i < 0 ->
  exists x, l !! Z.to_nat (i + Z.of_nat (length l)) = Some x /\ getitem l i = Ok x.
Proof.
  intros Hi. unfold getitem.
  destruct (Z.ltb_spec i 0); [| lia].
  destruct (Z.ltb_spec (i + Z.of_nat (length l)) 0); [lia |].
  destruct (Z.leb_spec (Z.of_nat (length l)) (i + Z.of_nat (length l))); [lia |].
  simpl.
  destruct (lookup_lt_is_Some_2 l (Z.to_nat (i + Z.of_nat (length l)))) as [x Hx];
    [lia |].
  exists x. rewrite Hx. done.
Qed.

Lemma getitem_below {A : Type} (l : list A) (i : Z) :
  i < - Z.of_nat (length l) -> getitem l i = Raise IndexError.
Proof.
  intros Hi. unfold getitem.
  destruct (Z.ltb_spec i 0); [| lia].
  destruct (Z.ltb_spec (i + Z.of_nat (length l)) 0); [done | lia].
Qed.

Lemma get_current_question_past_end (state : InterviewState.t) :
  8 <= InterviewState.current_question_index state ->
  get_current_question state = Ok None.
Proof.
  intros Hi. unfold get_current_question. rewrite QUESTIONS_length.
  destruct (Z.leb_spec (Z.of_nat 8) (InterviewState.current_question_index state));
    [reflexivity | lia].
Qed.

Lemma get_current_question_in_range (state : InterviewState.t) :
  0 <= InterviewState.current_question_index state < 8 ->
  get_current_question state
  = Ok (QUESTIONS !! Z.to_nat (InterviewState.current_question_index state))
  /\ is_Some (QUESTIONS !! Z.to_nat (InterviewState.current_question_index state)).
Proof.
  intros Hi. unfold get_current_question.
  destruct (Z.leb_spec (Z.of_nat (length QUESTIONS))
              (InterviewState.current_question_index state)) as [H | H];
    [rewrite QUESTIONS_length in H; lia |].
  destruct (getitem_nonneg QUESTIONS (InterviewState.current_question_index state))
    as (q & Hq & E); [lia |].
  rewrite E, Hq. simpl. eauto.
Qed.

(** A negative index wraps around, as list indexing does. *)
Lemma get_current_question_negative (state : InterviewState.t) :
  -8 <= InterviewState.current_question_index state < 0 ->
  get_current_question state
  = Ok (QUESTIONS !! Z.to_nat (InterviewState.current_question_index state + 8))
  /\ is_Some (QUESTIONS !! Z.to_nat (InterviewState.current_question_index state + 8)).
Proof.
  intros Hi. unfold get_current_question.
  destruct (Z.leb_spec (Z.of_nat (length QUESTIONS))
              (InterviewState.current_question_index state)) as [H | H];
    [rewrite QUESTIONS_length in H; lia |].
  destruct (getitem_negative QUESTIONS (InterviewState.current_question_index state))
    as (q & Hq & E); [rewrite QUESTIONS_length; lia |].
  rewrite QUESTIONS_length in Hq. change (Z.of_nat 8) with 8 in Hq.
  rewrite E, Hq. simpl. eauto.
Qed.

Lemma get_current_question_below (state : InterviewState.t) :
  InterviewState.current_question_index state < -8 ->
  get_current_question state = Raise IndexError.
Proof.
  intros Hi. unfold get_current_question.
  destruct (Z.leb_spec (Z.of_nat (length QUESTIONS))
              (InterviewState.current_question_index state)) as [H | H];
    [rewrite QUESTIONS_length in H; lia |].
  rewrite getitem_below; [done | rewrite QUESTIONS_length; lia].
Qed.

(** When the lookup finds a question, the index is below the catalog size
    and not below minus the catalog size. *)
Lemma get_current_question_Some (state : InterviewState.t) q :
  get_current_question state = Ok (Some q) ->
  -8 <= InterviewState.current_question_index state < 8.
Proof.
  intros H.
  destruct (Z.le_gt_cases 8 (InterviewState.current_question_index state)) as [Hge | Hlt].
  { rewrite get_current_question_past_end in H by done. discriminate. }
  destruct (Z.lt_ge_cases (InterviewState.current_question_index state) (-8)) as [Hb | Hb].
  { rewrite get_current_question_below in H by done. discriminate. }
  lia.
Qed.

Lemma get_current_question_None (state : InterviewState.t) :
  get_current_question state = Ok None ->
  8 <= InterviewState.current_question_index state.
Proof.
  intros H.
  destruct (Z.le_gt_cases 8 (InterviewState.current_question_index state)) as [Hge | Hlt];
    [done |].
  destruct (Z.lt_ge_cases (InterviewState.current_question_index state) (-8)) as [Hb | Hb].
  { rewrite get_current_question_below in H by done. discriminate. }
  destruct (Z.lt_ge_cases (InterviewState.current_question_index state) 0) as [Hn | Hn].
  - destruct (get_current_question_negative state) as [E [q Hq]]; [lia |].
    rewrite E, Hq in H. discriminate.
  - destruct (get_current_question_in_range state) as [E [q Hq]]; [lia |].
    rewrite E, Hq in H. discriminate.
Qed.

(** After an advance from a state whose lookup found a question, the lookup
    does not raise. *)
Lemma get_current_question_after_advance (state state' : InterviewState.t) q :
  get_current_question state = Ok (Some q) ->
  InterviewState.current_question_index state'
  = InterviewState.current_question_index state + 1 ->
  (exists q', get_current_question state' = Ok (Some q')
              /\ InterviewState.current_question_index state' < 8)
  \/ (get_current_question state' = Ok None
      /\ InterviewState.current_question_index state' = 8).
Proof.
  intros Hq Hi. apply get_current_question_Some in Hq.
  destruct (Z.eq_dec (InterviewState.current_question_index state') 8) as [E | NE].
  { right. split; [apply get_current_question_past_end; lia | done]. }
  left.
  destruct (Z.lt_ge_cases (InterviewState.current_question_index state') 0) as [Hn | Hn].
  - destruct (get_current_question_negative state') as [E [q' Hq']]; [lia |].
    exists q'. rewrite E, Hq'. split; [done | lia].
  - destruct (get_current_question_in_range state') as [E [q' Hq']]; [lia |].
    exists q'. rewrite E, Hq'. split; [done | lia].
Qed.

End Catalog.

(** ** C9: the catalog and its lookup *)

(** C9, as amended. The catalog has exactly 8 questions, one per category, in
    the order introduction, motivation, industry experience, learnings,
    strengths/weaknesses, future vision, unique value, availability; and for
    every index that is not negative, the lookup returns the question at that
    position when the index is below 8 and none otherwise. *)
Theorem catalog_lookup (state : InterviewState.t) :
  0 <= InterviewState.current_question_index state ->
  length InterviewerAgent.QUESTIONS = 8%nat
  /\ InterviewQuestion.category <$> InterviewerAgent.QUESTIONS
     = [ INTRODUCTION; MOTIVATION; INDUSTRY_EXPERIENCE; LEARNINGS;
         STRENGTHS_WEAKNESSES; FUTURE_VISION; UNIQUE_VALUE; AVAILABILITY ]
  /\ InterviewerAgent.get_current_question state
     = Ok (InterviewerAgent.QUESTIONS
             !! Z.to_nat (InterviewState.current_question_index state))
  /\ (InterviewState.current_question_index state < 8 ->
      is_Some (InterviewerAgent.QUESTIONS
                 !! Z.to_nat (InterviewState.current_question_index state)))
  /\ (8 <= InterviewState.current_question_index state ->
      InterviewerAgent.QUESTIONS
        !! Z.to_nat (InterviewState.current_question_index state) = None).
Proof.
  intros Hi. split; [reflexivity |]. split; [reflexivity |].
  assert (Hnone : 8 <= InterviewState.current_question_index state ->
                  InterviewerAgent.QUESTIONS
                    !! Z.to_nat (InterviewState.current_question_index state) = None).
  { intros Hge. apply lookup_ge_None. rewrite QUESTIONS_length. lia. }
  split; [| split; [| exact Hnone]].
  - destruct (Z.lt_ge_cases (InterviewState.current_question_index state) 8) as [Hlt | Hge].
    + apply get_current_question_in_range. lia.
    + rewrite Hnone by done. apply get_current_question_past_end. done.
  - intros Hlt. apply get_current_question_in_range. lia.
Qed.

Lemma catalog_lookup_witness :
  0 <= InterviewState.current_question_index (Session.initial "s" 0)
  /\ InterviewerAgent.get_current_question (Session.initial "s" 0)
     = Ok (InterviewerAgent.QUESTIONS !! 0%nat).
Proof.
  split; [simpl; lia |].
  apply (catalog_lookup (Session.initial "s" 0)). simpl. lia.
Defined.

(** C9, as stated, fails: the index is a Python [int], and at index -1 the
    lookup returns the last question instead of none. *)
Lemma catalog_lookup_negative_index :
  ~ (forall state : InterviewState.t,
       ~ (0 <= InterviewState.current_question_index state < 8) ->
       InterviewerAgent.get_current_question state = Ok None).
Proof.
  intros H.
  specialize (H (InterviewState.Build "s" (-1) [] false 0 None)).
  simpl in H. assert (Hn : ~ (0 <= -1 < 8)) by lia.
  specialize (H Hn). vm_compute in H. discriminate H.
Qed.

(** ** The answer aggregator *)

Section Aggregator.
Import InterviewerAgent.

Lemma find_answer_Some c (l : list InterviewAnswer.t) k a :
  find_answer c l = Some (k, a) ->
  l !! k = Some a
  /\ InterviewAnswer.question_category a = c
  /\ forall j b, (j < k)%nat -> l !! j = Some b ->
                 InterviewAnswer.question_category b <> c.
Proof.
  revert k. induction l as [| x l IH]; intros k H; simpl in H; [discriminate |].
  destruct (decide (InterviewAnswer.question_category x = c)) as [E | NE].
  - injection H as <- <-. split; [done |]. split; [done |]. intros j b Hj. lia.
  - destruct (find_answer c l) as [[k' a'] |] eqn:F; simpl in H; [| discriminate].
    injection H as <- <-. destruct (IH k' eq_refl) as (H1 & H2 & H3).
    split; [done |]. split; [done |].
    intros [| j] b Hj Hb; simpl in Hb.
    + injection Hb as <-. done.
    + apply (H3 j); [lia | done].
Qed.

Lemma find_answer_None c (l : list InterviewAnswer.t) :
  find_answer c l = None <->
  forall a, a ∈ l -> InterviewAnswer.question_category a <> c.
Proof.
  induction l as [| x l IH]; simpl.
  - split; [| done]. intros _ a Ha. inversion Ha.
  - destruct (decide (InterviewAnswer.question_category x = c)) as [E | NE].
    + split; [discriminate |]. intros H. destruct (H x); [left | done].
    + destruct (find_answer c l) as [[k' a'] |]; simpl.
      * split; [discriminate |]. intros H.
        enough (Hn : Some (k', a') = None) by discriminate Hn.
        apply IH. intros a Ha. apply H. by right.
      * split; [| done]. intros _ a Ha.
        apply elem_of_cons in Ha as [-> | Ha]; [done |].
        by apply IH.
Qed.

(** A record appended after records of other categories is the one found. *)
Lemma find_answer_app_new c (l : list InterviewAnswer.t) a :
  find_answer c l = None ->
  InterviewAnswer.question_category a = c ->
  find_answer c (l ++ [a]) = Some (length l, a).
Proof.
  intros Hn Ha. induction l as [| x l IH]; simpl in *.
  - rewrite decide_True by done. done.
  - destruct (decide (InterviewAnswer.question_category x = c)); [discriminate |].
    destruct (find_answer c l) as [[k' a'] |]; [discriminate |].
    rewrite IH by done. done.
Qed.

(** Overwriting the record found with one of the same category leaves it the
    one found. *)
Lemma find_answer_insert c (l : list InterviewAnswer.t) k a a' :
  find_answer c l = Some (k, a) ->
  InterviewAnswer.question_category a' = c ->
  find_answer c (<[k := a']> l) = Some (k, a').
Proof.
  revert k. induction l as [| x l IH]; intros k H Ha'; simpl in H; [discriminate |].
  destruct (decide (InterviewAnswer.question_category x = c)) as [E | NE].
  - injection H as <- <-. simpl. rewrite decide_True by done. done.
  - destruct (find_answer c l) as [[k' a''] |] eqn:F; simpl in H; [| discriminate].
    injection H as <- <-. simpl. rewrite decide_False by done.
    rewrite (IH k') by done. done.
Qed.

(** Overwriting a record with one of the same category keeps the categories. *)
Lemma categories_insert (l : list InterviewAnswer.t) k a a' :
  l !! k = Some a ->
  InterviewAnswer.question_category a' = InterviewAnswer.question_category a ->
  InterviewAnswer.question_category <$> <[k := a']> l
  = InterviewAnswer.question_category <$> l.
Proof.
  intros Hk E. rewrite list_fmap_insert, E.
  apply list_insert_id. rewrite list_lookup_fmap, Hk. done.
Qed.

(** What a merge does, by whether a record of the category exists. *)
Lemma merge_spec state question text now state1 k r :
  _get_or_create_answer state question text now = (state1, k, r) ->
  InterviewState.current_question_index state1
  = InterviewState.current_question_index state
  /\ InterviewState.is_completed state1 = InterviewState.is_completed state
  /\ InterviewState.completed_at state1 = InterviewState.completed_at state
  /\ InterviewState.answers state1 !! k = Some r
  /\ InterviewAnswer.question_category r = InterviewQuestion.category question
  /\ find_answer (InterviewQuestion.category question)
       (InterviewState.answers state1) = Some (k, r)
  /\ ((find_answer (InterviewQuestion.category question)
         (InterviewState.answers state) = None
       /\ InterviewState.answers state1 = InterviewState.answers state ++ [r]
       /\ k = length (InterviewState.answers state)
       /\ r = InterviewAnswer.Build (InterviewQuestion.category question)
                (InterviewQuestion.question_text question) text 0 (PBool false) now)
      \/ (exists a,
            find_answer (InterviewQuestion.category question)
              (InterviewState.answers state) = Some (k, a)
            /\ InterviewState.answers state1
               = <[k := r]> (InterviewState.answers state)
            /\ r = InterviewAnswer.set_answer_text a
                     (InterviewAnswer.answer_text a +:+ " " +:+ text))).
Proof.
  unfold _get_or_create_answer. intros H.
  destruct (find_answer (InterviewQuestion.category question)
              (InterviewState.answers state)) as [[k0 a] |] eqn:F.
  - injection H as <- <- <-. destruct (find_answer_Some _ _ _ _ F) as (Hk & Hc & _).
    simpl. repeat split; try done.
    + apply list_lookup_insert_eq. by eapply lookup_lt_Some.
    + by apply (find_answer_insert _ _ _ a).
    + right. exists a. done.
  - injection H as <- <- <-. simpl. repeat split; try done.
    + rewrite lookup_app_r by lia. by rewrite Nat.sub_diag.
    + by apply find_answer_app_new.
    + left. done.
Qed.

End Aggregator.

(** ** The invariant of a session *)

Section Invariant.
Import InterviewerAgent.

Lemma well_formed_initial session_id started :
  Session.well_formed (Session.initial session_id started).
Proof.
  unfold Session.well_formed, Session.categories. simpl.
  split; [lia |]. split; [constructor |]. split; [constructor |].
  split; [discriminate | lia].
Qed.

Lemma well_formed_store state k a a' :
  Session.well_formed state ->
  InterviewState.answers state !! k = Some a ->
  InterviewAnswer.question_category a' = InterviewAnswer.question_category a ->
  0 <= InterviewAnswer.follow_up_count a' <= max_follow_ups ->
  Session.well_formed (store state k a').
Proof.
  intros (Hi & Hf & Hn & Hc) Hk Hcat Hfu.
  unfold Session.well_formed, Session.categories, store. simpl.
  split; [done |]. split; [| split; [| done]].
  - apply Forall_insert; done.
  - rewrite (categories_insert _ _ a) by done. done.
Qed.

Lemma well_formed_merge state question text now state1 k r :
  Session.well_formed state ->
  _get_or_create_answer state question text now = (state1, k, r) ->
  Session.well_formed state1
  /\ 0 <= InterviewAnswer.follow_up_count r <= max_follow_ups.
Proof.
  intros Hwf Hm.
  destruct (merge_spec _ _ _ _ _ _ _ Hm) as (I1 & I2 & _ & Hk & Hcat & _ & Hshape).
  destruct Hshape as [(Fn & Ha & -> & Hr) | (a & Fs & Ha & Hr)].
  - assert (Hfu : 0 <= InterviewAnswer.follow_up_count r <= max_follow_ups).
    { rewrite Hr. unfold max_follow_ups. simpl. lia. }
    split; [| done].
    destruct Hwf as (Hi & Hf & Hn & Hc).
    unfold Session.well_formed, Session.categories. rewrite I1, I2, Ha.
    split; [done |]. split; [| split; [| done]].
    + apply Forall_app. split; [done |]. by apply Forall_singleton.
    + rewrite fmap_app. simpl. apply NoDup_app. split; [done |].
      split; [| apply NoDup_singleton].
      intros c Hin Hc'. apply list_elem_of_singleton in Hc'. subst c.
      apply list_elem_of_fmap in Hin as (b & Hb & Hbin).
      apply (proj1 (find_answer_None _ _) Fn b Hbin). rewrite <- Hb, Hcat. done.
  - destruct (find_answer_Some _ _ _ _ Fs) as (Hka & Hca & _).
    assert (Hfa : 0 <= InterviewAnswer.follow_up_count a <= max_follow_ups).
    { destruct Hwf as (_ & Hf & _). rewrite Forall_lookup in Hf. by apply (Hf k). }
    assert (Hfu : 0 <= InterviewAnswer.follow_up_count r <= max_follow_ups).
    { rewrite Hr. simpl. done. }
    split; [| done].
    assert (E : state1 = store state k r).
    { unfold store. rewrite <- Ha. destruct state1, state; simpl in *.
      unfold _get_or_create_answer in Hm. simpl in Hm. rewrite Fs in Hm.
      injection Hm as <- <- <- <- <- <-. done. }
    rewrite E. apply (well_formed_store _ _ a); try done.
    rewrite Hr. done.
Qed.

End Invariant.

(** ** The turn controller, case by case *)

Section Turn.
Import InterviewerAgent.

(** The outcome of [validate_and_respond] along each path of the code. *)
Lemma validate_and_respond_cases llm now state text :
  match get_current_question state with
  | Raise e => validate_and_respond llm now state text = (state, Raise e)
  | Ok None =>
      validate_and_respond llm now state text
      = (state,
         Ok (BuildResponse complete
               (PStr "Thank you for completing all the questions!") None))
  | Ok (Some q) =>
      let '(state1, k, r) := _get_or_create_answer state q text now in
      match GeminiService.validate_answer_completeness llm
              (InterviewQuestion.question_text q)
              (InterviewAnswer.answer_text r)
              (InterviewQuestion.expected_coverage q) with
      | PDict d =>
          let v := default (PBool true) (d !! "is_complete") in
          let r1 := InterviewAnswer.set_is_complete r v in
          let state2 := store state1 k r1 in
          if truthy v || (max_follow_ups <=? InterviewAnswer.follow_up_count r)
          then
            let state3 :=
              InterviewState.set_current_question_index state2
                (InterviewState.current_question_index state + 1) in
            if InterviewState.current_question_index state + 1 <? 8
            then exists q',
                get_current_question state3 = Ok (Some q')
                /\ validate_and_respond llm now state text
                   = (state3,
                      Ok (BuildResponse next_question
                            (PStr (InterviewQuestion.question_text q'))
                            (Some (InterviewQuestion.category q'))))
            else
              InterviewState.current_question_index state + 1 = 8
              /\ validate_and_respond llm now state text
                 = (InterviewState.set_is_completed state3 true,
                    Ok (BuildResponse complete
                          (PStr "Thank you for completing all the questions! I'm now preparing your feedback.")
                          None))
          else
            validate_and_respond llm now state text
            = (store state2 k
                 (InterviewAnswer.set_follow_up_count r1
                    (InterviewAnswer.follow_up_count r + 1)),
               Ok (BuildResponse follow_up
                     (default (PStr "Could you tell me more about that?")
                        (d !! "follow_up"))
                     (Some (InterviewQuestion.category q))))
      | _ => validate_and_respond llm now state text = (state1, Raise AttributeError)
      end
  end.
Proof.
  unfold validate_and_respond.
  destruct (get_current_question state) as [[q |] | e] eqn:Hq; [| done | done].
  destruct (_get_or_create_answer state q text now) as [[state1 k] r] eqn:Hm.
  destruct (merge_spec _ _ _ _ _ _ _ Hm) as (I1 & _).
  destruct (GeminiService.validate_answer_completeness llm
              (InterviewQuestion.question_text q) (InterviewAnswer.answer_text r)
              (InterviewQuestion.expected_coverage q)) as [| | | | | | d]; try done.
  simpl get. cbv zeta.
  change (match d !! "is_complete" with Some x => x | None => PBool true end)
    with (default (PBool true) (d !! "is_complete")).
  change (match d !! "follow_up" with
          | Some x => x
          | None => PStr "Could you tell me more about that?"
          end)
    with (default (PStr "Could you tell me more about that?") (d !! "follow_up")).
  simpl InterviewAnswer.is_complete. simpl InterviewAnswer.follow_up_count.
  destruct (truthy (default (PBool true) (d !! "is_complete"))
            || (max_follow_ups <=? InterviewAnswer.follow_up_count r)) eqn:Hadv;
    rewrite ?Hadv; [| done].
  simpl InterviewState.current_question_index. rewrite I1.
  set (state3 := InterviewState.set_current_question_index _ _).
  destruct (get_current_question_after_advance state state3 q Hq)
    as [(q' & Hq' & Hlt) | (Hnone & Heq)]; [done | |].
  - simpl in Hlt. destruct (Z.ltb_spec (InterviewState.current_question_index state + 1) 8);
      [| lia].
    exists q'. rewrite Hq'. done.
  - simpl in Heq. destruct (Z.ltb_spec (InterviewState.current_question_index state + 1) 8);
      [lia |].
    rewrite Hnone. done.
Qed.

End Turn.

(** ** Invariants along a session *)

(** Opens the case lemma of [validate_and_respond] into its paths. *)
Ltac turn_paths llm now state text :=
  let Hc := fresh "Hc" in
  pose proof (validate_and_respond_cases llm now state text) as Hc;
  let q := fresh "q" in
  let Hq := fresh "Hq" in
  destruct (InterviewerAgent.get_current_question state) as [[q |] | ?] eqn:Hq;
  [ let state1 := fresh "state1" in
    let k := fresh "k" in
    let r := fresh "r" in
    let Hm := fresh "Hm" in
    destruct (InterviewerAgent._get_or_create_answer state q text now) as [[state1 k] r] eqn:Hm;
    let d := fresh "d" in
    let V := fresh "V" in
    destruct (GeminiService.validate_answer_completeness llm
                (InterviewQuestion.question_text q)
                (InterviewAnswer.answer_text r)
                (InterviewQuestion.expected_coverage q)) as [| | | | | | d] eqn:V;
    [ | | | | | |
      cbv zeta in Hc;
      let Hadv := fresh "Hadv" in
      destruct (truthy (default (PBool true) (d !! "is_complete"))
                || (InterviewerAgent.max_follow_ups <=? InterviewAnswer.follow_up_count r)) eqn:Hadv;
      [ let Hlt := fresh "Hlt" in
        destruct (Z.ltb_spec (InterviewState.current_question_index state + 1) 8)
          as [Hlt | Hlt];
        [ let q' := fresh "q'" in
          let Hq' := fresh "Hq'" in
          destruct Hc as (q' & Hq' & Hc)
        | let Heq := fresh "Heq" in
          destruct Hc as (Heq & Hc) ]
      | ] ]
  | | ];
  rewrite Hc; clear Hc.

Section Reachability.
Import InterviewerAgent.

Lemma turn_index llm now state text :
  let state' := fst (validate_and_respond llm now state text) in
  InterviewState.current_question_index state'
  = InterviewState.current_question_index state
  \/ InterviewState.current_question_index state'
     = InterviewState.current_question_index state + 1.
Proof.
  cbv zeta. turn_paths llm now state text; simpl; try (by left); try (by right);
    left; by destruct (merge_spec _ _ _ _ _ _ _ Hm) as (I1 & _).
Qed.

Lemma turn_well_formed llm now state text :
  Session.well_formed state ->
  Session.well_formed (fst (validate_and_respond llm now state text)).
Proof.
  intros Hwf. turn_paths llm now state text; simpl; try done;
    destruct (well_formed_merge _ _ _ _ _ _ _ Hwf Hm) as (Hwf1 & Hfu);
    destruct (merge_spec _ _ _ _ _ _ _ Hm) as (I1 & I2 & _ & Hk & Hcat & _);
    try done.
  - (* advance to the next question *)
    pose proof (well_formed_store state1 k r
                  (InterviewAnswer.set_is_complete r
                     (default (PBool true) (d !! "is_complete")))
                  Hwf1 Hk eq_refl Hfu) as (Hi & Hf & Hn & Hco).
    pose proof Hwf as (Hi0 & _ & _ & Hco0).
    unfold Session.well_formed, Session.categories in *.
    rewrite QUESTIONS_length in *. simpl in *.
    split; [lia |]. split; [done |]. split; [done |].
    rewrite I2. split; [| lia]. intros Hc. apply Hco0 in Hc. lia.
  - (* past the last question *)
    pose proof (well_formed_store state1 k r
                  (InterviewAnswer.set_is_complete r
                     (default (PBool true) (d !! "is_complete")))
                  Hwf1 Hk eq_refl Hfu) as (Hi & Hf & Hn & Hco).
    unfold Session.well_formed, Session.categories in *.
    rewrite QUESTIONS_length in *. simpl in *.
    split; [lia |]. split; [done |]. split; [done |]. done.
  - (* follow-up *)
    apply orb_false_iff in Hadv as [_ Hcount]. apply Z.leb_gt in Hcount.
    pose proof (well_formed_store state1 k r
                  (InterviewAnswer.set_is_complete r
                     (default (PBool true) (d !! "is_complete")))
                  Hwf1 Hk eq_refl Hfu) as Hwf2.
    apply (well_formed_store _ k
             (InterviewAnswer.set_is_complete r
                (default (PBool true) (d !! "is_complete")))); try done.
    + simpl. apply list_lookup_insert_eq. by eapply lookup_lt_Some.
    + simpl. lia.
Qed.

Lemma run_well_formed state turns :
  Session.well_formed state -> Session.well_formed (Session.run state turns).
Proof.
  revert state. induction turns as [| t turns IH]; intros state Hwf; [done |].
  simpl. apply IH. apply turn_well_formed. done.
Qed.

Lemma reachable_well_formed state :
  Session.reachable state -> Session.well_formed state.
Proof.
  intros (sid & started & turns & ->).
  apply run_well_formed, well_formed_initial.
Qed.

Lemma run_index_monotone state turns :
  InterviewState.current_question_index state
  <= InterviewState.current_question_index (Session.run state turns).
Proof.
  revert state. induction turns as [| t turns IH]; intros state; [simpl; lia |].
  simpl. etrans; [| apply IH].
  destruct (turn_index (Session.llm t) (Session.now t) state (Session.user_answer t))
    as [E | E]; unfold Session.step, Session.turn; lia.
Qed.

End Reachability.

(** ** Follow-ups are bounded *)

Section FollowUps.
Import InterviewerAgent.

(** A turn that returns normally on a question whose record, if any, has had
    at least [n] follow-ups either advances the index, or keeps it, leaves a
    record with at least [n + 1] follow-ups, and [n] was below the ceiling. *)
Lemma turn_progress llm now state text q n :
  Session.well_formed state ->
  get_current_question state = Ok (Some q) ->
  (n <= 0 \/ exists k a,
      find_answer (InterviewQuestion.category q) (InterviewState.answers state)
      = Some (k, a)
      /\ n <= InterviewAnswer.follow_up_count a) ->
  is_ok (snd (validate_and_respond llm now state text)) = true ->
  let state' := fst (validate_and_respond llm now state text) in
  InterviewState.current_question_index state'
  = InterviewState.current_question_index state + 1
  \/ (InterviewState.current_question_index state'
      = InterviewState.current_question_index state
      /\ n < max_follow_ups
      /\ exists k a,
          find_answer (InterviewQuestion.category q) (InterviewState.answers state')
          = Some (k, a)
          /\ n + 1 <= InterviewAnswer.follow_up_count a).
Proof.
  intros Hwf Hq0 Hn Hok. cbv zeta. revert Hok.
  turn_paths llm now state text; simpl; try discriminate; intros _;
    try (by left); injection Hq0 as <-.
  right.
  destruct (well_formed_merge _ _ _ _ _ _ _ Hwf Hm) as (Hwf1 & Hfu).
  destruct (merge_spec _ _ _ _ _ _ _ Hm) as (I1 & _ & _ & Hk & Hcat & Hfind & Hshape).
  apply orb_false_iff in Hadv as [_ Hcount]. apply Z.leb_gt in Hcount.
  assert (Hr : n <= InterviewAnswer.follow_up_count r).
  { destruct Hn as [Hn | (k0 & a0 & Hf0 & Hn)]; [lia |].
    destruct Hshape as [(Fn & _) | (a & Fs & _ & ->)]; [congruence |].
    rewrite Fs in Hf0. injection Hf0 as <- <-. done. }
  split; [done |]. split; [lia |].
  eexists k, _. split.
  - eapply find_answer_insert; [| done].
    eapply find_answer_insert; [exact Hfind | done].
  - simpl. lia.
Qed.

End FollowUps.

(** ** C2: the question index *)

(** C2. Along every sequence of turns of a session, the question index stays
    in [0, 8], never decreases, and each call of the turn controller changes
    it by 0 or by +1. *)
Theorem index_monotone_and_bounded
    (session_id : string) (started : Z) (turns more : list Session.Turn)
    (t : Session.Turn) :
  let state := Session.run (Session.initial session_id started) turns in
  0 <= InterviewState.current_question_index state <= 8
  /\ Z.of_nat (length InterviewerAgent.QUESTIONS) = 8
  /\ (InterviewState.current_question_index (Session.step state t)
      = InterviewState.current_question_index state
      \/ InterviewState.current_question_index (Session.step state t)
         = InterviewState.current_question_index state + 1)
  /\ InterviewState.current_question_index state
     <= InterviewState.current_question_index (Session.run state more).
Proof.
  cbv zeta. split; [| split; [reflexivity | split]].
  - pose proof (run_well_formed _ turns (well_formed_initial session_id started))
      as (Hi & _).
    rewrite QUESTIONS_length in Hi. lia.
  - apply turn_index.
  - apply run_index_monotone.
Qed.

(** ** C1: the follow-up ceiling *)

(** C1. In every state a session reaches, every record has at most 2
    follow-ups; a turn on a question whose record already has 2 follow-ups
    advances the index whatever verdict the oracle gives; and three turns
    that return on the same state always move the index past the question
    they started on, so a question takes at most 3 turns. *)
Theorem follow_up_ceiling
    (session_id : string) (started : Z) (turns : list Session.Turn) :
  let state := Session.run (Session.initial session_id started) turns in
  Forall (fun a => InterviewAnswer.follow_up_count a <= 2)
         (InterviewState.answers state)
  /\ (forall (t : Session.Turn) q k a d,
        InterviewerAgent.get_current_question state = Ok (Some q) ->
        InterviewerAgent.find_answer (InterviewQuestion.category q)
          (InterviewState.answers state) = Some (k, a) ->
        2 <= InterviewAnswer.follow_up_count a ->
        GeminiService.validate_answer_completeness (Session.llm t)
          (InterviewQuestion.question_text q)
          (InterviewAnswer.answer_text a +:+ " " +:+ Session.user_answer t)
          (InterviewQuestion.expected_coverage q) = PDict d ->
        InterviewState.current_question_index (Session.step state t)
        = InterviewState.current_question_index state + 1
        /\ exists r, snd (Session.turn state t) = Ok r
                     /\ InterviewerAgent.action r <> InterviewerAgent.follow_up)
  /\ (forall t1 t2 t3 : Session.Turn,
        InterviewState.current_question_index state < 8 ->
        is_ok (snd (Session.turn state t1)) = true ->
        is_ok (snd (Session.turn (Session.step state t1) t2)) = true ->
        is_ok (snd (Session.turn (Session.step (Session.step state t1) t2) t3))
        = true ->
        InterviewState.current_question_index state + 1
        <= InterviewState.current_question_index
             (Session.run state [t1; t2; t3])).
Proof.
  cbv zeta.
  pose proof (run_well_formed _ turns (well_formed_initial session_id started))
    as Hwf.
  set (state := Session.run (Session.initial session_id started) turns) in *.
  split; [| split].
  - destruct Hwf as (_ & Hf & _). eapply Forall_impl; [exact Hf |].
    unfold InterviewerAgent.max_follow_ups. simpl. intros a Ha. lia.
  - intros t q k a d Hq Hfind Hcount Hd.
    unfold Session.step, Session.turn.
    turn_paths (Session.llm t) (Session.now t) state (Session.user_answer t);
      try discriminate; injection Hq as ->;
      destruct (merge_spec _ _ _ _ _ _ _ Hm) as (_ & _ & _ & _ & _ & _ & Hshape);
      (destruct Hshape as [(Fn & _) | (a0 & Fs & _ & Hr)]; [congruence |]);
      rewrite Hfind in Fs; injection Fs as <- <-; subst r; simpl in V;
      try congruence; simpl.
    + split; [done |]. eexists. split; [done |]. done.
    + split; [done |]. eexists. split; [done |]. done.
    + apply orb_false_iff in Hadv as [_ Hlow]. apply Z.leb_gt in Hlow.
      simpl in Hlow. unfold InterviewerAgent.max_follow_ups in Hlow. lia.
  - intros t1 t2 t3 Hlt Hok1 Hok2 Hok3. simpl.
    change (Session.step (Session.step (Session.step state t1) t2) t3)
      with (Session.run (Session.step (Session.step state t1) t2) [t3]).
    change (Session.step (Session.step state t1) t2)
      with (Session.run (Session.step state t1) [t2]) at 1.
    change (Session.step state t1) with (Session.run state [t1]) at 1.
    destruct Hwf as (Hi & Hrest).
    destruct (get_current_question_in_range state) as (Hq & q & Hsome); [lia |].
    rewrite Hsome in Hq.
    assert (Hwf : Session.well_formed state) by (split; done).
    assert (Hwf1 := turn_well_formed (Session.llm t1) (Session.now t1) state
                      (Session.user_answer t1) Hwf).
    assert (Hwf2 := turn_well_formed (Session.llm t2) (Session.now t2) _
                      (Session.user_answer t2) Hwf1).
    destruct (turn_progress (Session.llm t1) (Session.now t1) state
                (Session.user_answer t1) q 0 Hwf Hq (or_introl (Z.le_refl 0)) Hok1)
      as [E1 | (E1 & _ & F1)].
    { pose proof (run_index_monotone (Session.step state t1) [t2; t3]) as Hm.
      simpl in *. unfold Session.step, Session.turn in *. lia. }
    assert (Hq1 : InterviewerAgent.get_current_question (Session.step state t1)
                  = Ok (Some q)).
    { rewrite <- Hq. apply get_current_question_index. exact E1. }
    destruct (turn_progress (Session.llm t2) (Session.now t2) (Session.step state t1)
                (Session.user_answer t2) q (0 + 1) Hwf1 Hq1 (or_intror F1) Hok2)
      as [E2 | (E2 & _ & F2)].
    { pose proof (run_index_monotone (Session.step (Session.step state t1) t2) [t3])
        as Hm.
      simpl in *. unfold Session.step, Session.turn in *. lia. }
    assert (Hq2 : InterviewerAgent.get_current_question
                    (Session.step (Session.step state t1) t2) = Ok (Some q)).
    { rewrite <- Hq1. apply get_current_question_index. exact E2. }
    destruct (turn_progress (Session.llm t3) (Session.now t3)
                (Session.step (Session.step state t1) t2)
                (Session.user_answer t3) q (0 + 1 + 1) Hwf2 Hq2 (or_intror F2) Hok3)
      as [E3 | (_ & Hlow & _)].
    { simpl in *. unfold Session.step, Session.turn in *. lia. }
    unfold InterviewerAgent.max_follow_ups in Hlow. lia.
Qed.

Lemma follow_up_ceiling_witness :
  let asked_twice :=
    Session.run (Session.initial "s" 0)
      [Sample.says Sample.demanding "A"; Sample.says Sample.demanding "B"] in
  InterviewState.current_question_index
    (Session.step asked_twice (Sample.says Sample.demanding "C"))
  = InterviewState.current_question_index asked_twice + 1
  /\ InterviewState.current_question_index (Session.initial "s" 0) + 1
     <= InterviewState.current_question_index
          (Session.run (Session.initial "s" 0)
             [Sample.says Sample.demanding "A"; Sample.says Sample.demanding "B";
              Sample.says Sample.demanding "C"]).
Proof.
  cbv zeta. split.
  - destruct (follow_up_ceiling "s" 0
                [Sample.says Sample.demanding "A"; Sample.says Sample.demanding "B"])
      as (_ & H & _).
    eapply H.
    + reflexivity.
    + reflexivity.
    + vm_compute. discriminate.
    + reflexivity.
  - destruct (follow_up_ceiling "s" 0 []) as (_ & _ & H).
    apply (H (Sample.says Sample.demanding "A") (Sample.says Sample.demanding "B")
             (Sample.says Sample.demanding "C")).
    + vm_compute. reflexivity.
    + vm_compute. reflexivity.
    + vm_compute. reflexivity.
    + vm_compute. reflexivity.
Defined.

(** ** C3: merging answers *)

(** In a list without two records of a category, the record of a category is
    the one the search finds. *)
Lemma find_answer_unique c (l : list InterviewAnswer.t) k a :
  NoDup (InterviewAnswer.question_category <$> l) ->
  l !! k = Some a ->
  InterviewAnswer.question_category a = c ->
  InterviewerAgent.find_answer c l = Some (k, a).
Proof.
  intros Hnd Hk Hc.
  destruct (InterviewerAgent.find_answer c l) as [[k' a'] |] eqn:F.
  - destruct (find_answer_Some _ _ _ _ F) as (Hk' & Hc' & _).
    assert (k = k') as <-.
    { eapply (NoDup_lookup _ _ _ c Hnd); rewrite list_lookup_fmap.
      - rewrite Hk. simpl. by rewrite Hc.
      - rewrite Hk'. simpl. by rewrite Hc'. }
    congruence.
  - exfalso. apply (proj1 (find_answer_None c l) F a); [| done].
    eapply list_elem_of_lookup_2. exact Hk.
Qed.

(** C3. Merging a raw answer for a category without a record appends one new
    record holding the raw text, no follow-ups and not complete; merging a
    second raw text for the category appends it to that record's text after
    a single space and creates no record; and no state a session reaches has
    two records of one category. *)
Theorem merge_answer
    (state : InterviewState.t) (question : InterviewQuestion.t)
    (A B : string) (t1 t2 : Z) :
  let fresh :=
    InterviewAnswer.Build (InterviewQuestion.category question)
      (InterviewQuestion.question_text question) A 0 (PBool false) t1 in
  let '(state1, k1, r1) :=
    InterviewerAgent._get_or_create_answer state question A t1 in
  let '(state2, k2, r2) :=
    InterviewerAgent._get_or_create_answer state1 question B t2 in
  ((forall a, a ∈ InterviewState.answers state ->
              InterviewAnswer.question_category a
              <> InterviewQuestion.category question) ->
   InterviewState.answers state1 = InterviewState.answers state ++ [fresh]
   /\ r1 = fresh
   /\ InterviewState.answers state2
      = InterviewState.answers state
        ++ [InterviewAnswer.set_answer_text fresh (A +:+ " " +:+ B)]
   /\ r2 = InterviewAnswer.set_answer_text fresh (A +:+ " " +:+ B)
   /\ k2 = k1)
  /\ (forall k a,
        NoDup (Session.categories state) ->
        InterviewState.answers state !! k = Some a ->
        InterviewAnswer.question_category a = InterviewQuestion.category question ->
        InterviewState.answers state1
        = <[k := InterviewAnswer.set_answer_text a
                   (InterviewAnswer.answer_text a +:+ " " +:+ A)]>
            (InterviewState.answers state)
        /\ length (InterviewState.answers state1)
           = length (InterviewState.answers state)
        /\ k1 = k
        /\ r1 = InterviewAnswer.set_answer_text a
                  (InterviewAnswer.answer_text a +:+ " " +:+ A))
  /\ (NoDup (Session.categories state) -> NoDup (Session.categories state1))
  /\ (Session.reachable state -> NoDup (Session.categories state)).
Proof.
  cbv zeta.
  destruct (InterviewerAgent._get_or_create_answer state question A t1)
    as [[state1 k1] r1] eqn:M1.
  destruct (InterviewerAgent._get_or_create_answer state1 question B t2)
    as [[state2 k2] r2] eqn:M2.
  destruct (merge_spec _ _ _ _ _ _ _ M1) as (_ & _ & _ & Hk1 & Hc1 & F1 & S1).
  destruct (merge_spec _ _ _ _ _ _ _ M2) as (_ & _ & _ & _ & _ & _ & S2).
  split; [| split; [| split]].
  - intros Hnone. apply find_answer_None in Hnone.
    destruct S1 as [(_ & E1 & Hlen & Hr1) | (a & Fs & _)]; [| congruence].
    destruct S2 as [(Fn & _) | (a & Fs & E2 & Hr2)]; [congruence |].
    rewrite F1 in Fs. injection Fs as <- <-.
    rewrite <- Hr1. split; [done |]. split; [done |].
    assert (Hr2' : r2 = InterviewAnswer.set_answer_text r1 (A +:+ " " +:+ B)).
    { rewrite Hr2. rewrite Hr1. done. }
    rewrite <- Hr2'. split; [| done].
    rewrite E2, E1, Hlen.
    rewrite insert_app_r_alt by lia. rewrite Nat.sub_diag. done.
  - intros k a Hnd Hk Hc.
    pose proof (find_answer_unique _ _ _ _ Hnd Hk Hc) as Fk.
    destruct S1 as [(Fn & _) | (a' & Fs & E1 & Hr1)]; [congruence |].
    rewrite Fk in Fs. injection Fs as <- <-.
    rewrite E1, Hr1, length_insert. done.
  - intros Hnd. unfold Session.categories in *.
    destruct S1 as [(Fn & E1 & _ & _) | (a & Fs & E1 & Hr1)].
    + rewrite E1, fmap_app. simpl. apply NoDup_app. split; [done |].
      split; [| apply NoDup_singleton].
      intros c Hin Hc'. apply list_elem_of_singleton in Hc'. subst c.
      apply list_elem_of_fmap in Hin as (b & Hb & Hbin).
      apply (proj1 (find_answer_None _ _) Fn b Hbin). rewrite <- Hb, Hc1. done.
    + destruct (find_answer_Some _ _ _ _ Fs) as (Hka & _).
      rewrite E1, (categories_insert _ _ a); [done | done |].
      rewrite Hr1. done.
  - intros Hreach. apply reachable_well_formed in Hreach as (_ & _ & Hnd & _). done.
Qed.

Lemma merge_answer_witness :
  let state1 :=
    fst (fst (InterviewerAgent._get_or_create_answer (Session.initial "s" 0)
                Sample.motivation "A" 1)) in
  let state2 :=
    fst (fst (InterviewerAgent._get_or_create_answer state1
                Sample.motivation "B" 2)) in
  let state3 :=
    fst (fst (InterviewerAgent._get_or_create_answer state2
                Sample.motivation "C" 3)) in
  InterviewAnswer.answer_text <$> InterviewState.answers state2 = ["A B"]
  /\ InterviewAnswer.answer_text <$> InterviewState.answers state3 = ["A B C"]
  /\ NoDup (Session.categories state3)
  /\ NoDup (Session.categories (Session.initial "s" 0)).
Proof.
  cbv zeta.
  pose proof (merge_answer (Session.initial "s" 0) Sample.motivation "A" "B" 1 2)
    as H12.
  pose proof (merge_answer
                (fst (fst (InterviewerAgent._get_or_create_answer
                             (fst (fst (InterviewerAgent._get_or_create_answer
                                          (Session.initial "s" 0)
                                          Sample.motivation "A" 1)))
                             Sample.motivation "B" 2)))
                Sample.motivation "C" "D" 3 4) as H3.
  cbv zeta in H12, H3.
  destruct (InterviewerAgent._get_or_create_answer (Session.initial "s" 0)
              Sample.motivation "A" 1) as [[state1 k1] r1] eqn:M1.
  simpl fst in *.
  destruct (InterviewerAgent._get_or_create_answer state1 Sample.motivation "B" 2)
    as [[state2 k2] r2] eqn:M2.
  simpl fst in *.
  destruct (InterviewerAgent._get_or_create_answer state2 Sample.motivation "C" 3)
    as [[state3 k3] r3] eqn:M3.
  simpl fst in *.
  destruct (InterviewerAgent._get_or_create_answer state3 Sample.motivation "D" 4)
    as [[state4 k4] r4] eqn:M4.
  destruct H12 as (Hnew & _ & _ & Hreach).
  destruct Hnew as (_ & _ & E2 & _); [intros a Ha; inversion Ha |].
  destruct H3 as (_ & Hold & Hkeep & _).
  assert (Hnd : NoDup (Session.categories state2)).
  { unfold Session.categories. rewrite E2. apply NoDup_singleton. }
  destruct (Hold 0%nat _ Hnd ltac:(rewrite E2; reflexivity) eq_refl) as (E3 & _).
  split; [by rewrite E2 |]. split; [by rewrite E3, E2 |].
  split; [exact (Hkeep Hnd) |].
  apply Hreach. exists "s", 0, []. reflexivity.
Defined.

(** ** C4: the follow-up path *)

(** C4. When the question of the current index exists, the oracle's verdict
    on the merged record is not a true value and the record has had fewer
    than 2 follow-ups, the turn adds exactly 1 to the record's follow-up
    count, leaves the index where it was, and answers with a follow-up whose
    message is the value of the oracle's "follow_up" key, or "Could you tell
    me more about that?" when the oracle's reply has no such key. *)
Theorem follow_up_when_incomplete
    (llm : GeminiService.Oracle) (now : Z) (state : InterviewState.t)
    (text : string) (q : InterviewQuestion.t) (d : gmap string value) :
  InterviewerAgent.get_current_question state = Ok (Some q) ->
  let '(state1, k, r) :=
    InterviewerAgent._get_or_create_answer state q text now in
  GeminiService.validate_answer_completeness llm
    (InterviewQuestion.question_text q) (InterviewAnswer.answer_text r)
    (InterviewQuestion.expected_coverage q) = PDict d ->
  truthy (default (PBool true) (d !! "is_complete")) = false ->
  InterviewAnswer.follow_up_count r < 2 ->
  let '(state', result) :=
    InterviewerAgent.validate_and_respond llm now state text in
  let r' :=
    InterviewAnswer.set_follow_up_count
      (InterviewAnswer.set_is_complete r (default (PBool true) (d !! "is_complete")))
      (InterviewAnswer.follow_up_count r + 1) in
  result
  = Ok (InterviewerAgent.BuildResponse InterviewerAgent.follow_up
          match d !! "follow_up" with
          | Some supplied => supplied
          | None => PStr "Could you tell me more about that?"
          end
          (Some (InterviewQuestion.category q)))
  /\ InterviewState.current_question_index state'
     = InterviewState.current_question_index state
  /\ InterviewState.answers state' = <[k := r']> (InterviewState.answers state1)
  /\ InterviewState.answers state' !! k = Some r'
  /\ InterviewAnswer.follow_up_count r' = InterviewAnswer.follow_up_count r + 1
  /\ InterviewState.is_completed state' = InterviewState.is_completed state.
Proof.
  intros Hq.
  pose proof (validate_and_respond_cases llm now state text) as Hc.
  rewrite Hq in Hc.
  destruct (InterviewerAgent._get_or_create_answer state q text now)
    as [[state1 k] r] eqn:Hm.
  intros Hd Hv Hcount. rewrite Hd in Hc. cbv zeta in Hc.
  rewrite Hv in Hc. simpl orb in Hc.
  destruct (Z.leb_spec InterviewerAgent.max_follow_ups
              (InterviewAnswer.follow_up_count r)) as [Hge | _].
  { unfold InterviewerAgent.max_follow_ups in Hge. lia. }
  rewrite Hc. cbv zeta.
  destruct (merge_spec _ _ _ _ _ _ _ Hm) as (I1 & I2 & _ & Hk & _).
  split; [done |]. split; [done |]. simpl.
  split; [by rewrite list_insert_insert_eq |].
  split; [| done].
  apply list_lookup_insert_eq. rewrite length_insert. by eapply lookup_lt_Some.
Qed.

Lemma follow_up_when_incomplete_witness :
  let '(state', result) :=
    InterviewerAgent.validate_and_respond Sample.demanding 10
      (Session.initial "s" 0) "I am a student" in
  result
  = Ok (InterviewerAgent.BuildResponse InterviewerAgent.follow_up
          (PStr "Can you give an example?") (Some INTRODUCTION))
  /\ InterviewState.current_question_index state' = 0
  /\ InterviewAnswer.follow_up_count <$> InterviewState.answers state' = [1].
Proof.
  epose proof (follow_up_when_incomplete Sample.demanding 10 (Session.initial "s" 0)
                 "I am a student" _ _ eq_refl) as H.
  simpl in H. specialize (H eq_refl eq_refl ltac:(lia)).
  destruct (InterviewerAgent.validate_and_respond Sample.demanding 10
              (Session.initial "s" 0) "I am a student") as [state' result].
  destruct H as (Hr & Hi & Ha & _).
  split; [exact Hr |]. split; [exact Hi |]. rewrite Ha. reflexivity.
Defined.

(** ** C5: the oracle fails *)

(** C5. When the question of the current index exists and the oracle call
    on the merged record raises (the model call fails or its reply is not
    JSON), the completeness check returns the accepting verdict with an empty
    follow-up, the record is marked complete with the value true, the turn
    returns a response that is not a follow-up, and the index advances by 1. *)
Theorem oracle_failure_fails_open
    (llm : GeminiService.Oracle) (now : Z) (state : InterviewState.t)
    (text : string) (q : InterviewQuestion.t) :
  InterviewerAgent.get_current_question state = Ok (Some q) ->
  let '(state1, k, r) :=
    InterviewerAgent._get_or_create_answer state q text now in
  llm (InterviewQuestion.question_text q) (InterviewAnswer.answer_text r)
      (InterviewQuestion.expected_coverage q) = GeminiService.LlmRaised
  \/ llm (InterviewQuestion.question_text q) (InterviewAnswer.answer_text r)
         (InterviewQuestion.expected_coverage q) = GeminiService.JsonInvalid ->
  let verdict :=
    GeminiService.validate_answer_completeness llm
      (InterviewQuestion.question_text q) (InterviewAnswer.answer_text r)
      (InterviewQuestion.expected_coverage q) in
  let '(state', result) :=
    InterviewerAgent.validate_and_respond llm now state text in
  get verdict "is_complete" PNone = Ok (PBool true)
  /\ get verdict "follow_up" PNone = Ok (PStr "")
  /\ InterviewState.answers state' !! k
     = Some (InterviewAnswer.set_is_complete r (PBool true))
  /\ InterviewState.current_question_index state'
     = InterviewState.current_question_index state + 1
  /\ exists response,
      result = Ok response
      /\ InterviewerAgent.action response <> InterviewerAgent.follow_up.
Proof.
  intros Hq.
  pose proof (validate_and_respond_cases llm now state text) as Hc.
  rewrite Hq in Hc.
  destruct (InterviewerAgent._get_or_create_answer state q text now)
    as [[state1 k] r] eqn:Hm.
  intros Hfail. cbv zeta.
  assert (Hv : GeminiService.validate_answer_completeness llm
                 (InterviewQuestion.question_text q) (InterviewAnswer.answer_text r)
                 (InterviewQuestion.expected_coverage q)
               = PDict GeminiService.accept_default).
  { unfold GeminiService.validate_answer_completeness.
    destruct Hfail as [-> | ->]; reflexivity. }
  rewrite Hv in Hc |- *. cbv zeta in Hc.
  change (GeminiService.accept_default !! "is_complete") with (Some (PBool true)) in Hc.
  simpl default in Hc. simpl truthy in Hc. simpl orb in Hc.
  destruct (merge_spec _ _ _ _ _ _ _ Hm) as (I1 & _ & _ & Hk & _).
  assert (Hstored :
            forall l : list InterviewAnswer.t, l = InterviewState.answers state1 ->
            <[k := InterviewAnswer.set_is_complete r (PBool true)]> l !! k
            = Some (InterviewAnswer.set_is_complete r (PBool true))).
  { intros l ->. apply list_lookup_insert_eq. by eapply lookup_lt_Some. }
  destruct (Z.ltb_spec (InterviewState.current_question_index state + 1) 8).
  - destruct Hc as (q' & _ & Hc). rewrite Hc.
    split; [reflexivity |]. split; [reflexivity |]. simpl.
    split; [by apply Hstored |]. split; [done |].
    eexists. split; [reflexivity | discriminate].
  - destruct Hc as (_ & Hc). rewrite Hc.
    split; [reflexivity |]. split; [reflexivity |]. simpl.
    split; [by apply Hstored |]. split; [done |].
    eexists. split; [reflexivity | discriminate].
Qed.

Lemma oracle_failure_fails_open_witness :
  let '(state', result) :=
    InterviewerAgent.validate_and_respond Sample.broken 10
      (Session.initial "s" 0) "I am a student" in
  InterviewAnswer.is_complete <$> InterviewState.answers state' !! 0%nat
  = Some (PBool true)
  /\ InterviewState.current_question_index state' = 1
  /\ is_ok result = true.
Proof.
  epose proof (oracle_failure_fails_open Sample.broken 10 (Session.initial "s" 0)
                 "I am a student" _ eq_refl) as H.
  simpl in H. specialize (H (or_introl eq_refl)).
  destruct (InterviewerAgent.validate_and_respond Sample.broken 10
              (Session.initial "s" 0) "I am a student") as [state' result].
  destruct H as (_ & _ & Ha & Hi & (response & -> & _)).
  split; [| split; [exact Hi | reflexivity]].
  rewrite Ha. reflexivity.
Defined.

(** ** C10: a reply without a verdict *)

(** C10. When the question of the current index exists and the oracle's
    reply is a JSON object without the "is_complete" key, the turn is, state
    and response, the turn of an oracle that replies with the same object
    and "is_complete" set to true: the record is marked complete with the
    value true, the index advances by 1 and no follow-up is asked. *)
Theorem missing_verdict_defaults_to_complete
    (llm : GeminiService.Oracle) (now : Z) (state : InterviewState.t)
    (text : string) (q : InterviewQuestion.t) (d : gmap string value) :
  InterviewerAgent.get_current_question state = Ok (Some q) ->
  let '(state1, k, r) :=
    InterviewerAgent._get_or_create_answer state q text now in
  llm (InterviewQuestion.question_text q) (InterviewAnswer.answer_text r)
      (InterviewQuestion.expected_coverage q)
  = GeminiService.JsonValue (PDict d) ->
  d !! "is_complete" = None ->
  let answered_complete : GeminiService.Oracle :=
    fun _ _ _ =>
      GeminiService.JsonValue (PDict (<["is_complete" := PBool true]> d)) in
  let '(state', result) :=
    InterviewerAgent.validate_and_respond llm now state text in
  (state', result)
  = InterviewerAgent.validate_and_respond answered_complete now state text
  /\ InterviewState.answers state' !! k
     = Some (InterviewAnswer.set_is_complete r (PBool true))
  /\ InterviewState.current_question_index state'
     = InterviewState.current_question_index state + 1
  /\ exists response,
      result = Ok response
      /\ InterviewerAgent.action response <> InterviewerAgent.follow_up.
Proof.
  intros Hq.
  pose proof (validate_and_respond_cases llm now state text) as Hc.
  pose proof (validate_and_respond_cases
                (fun _ _ _ =>
                   GeminiService.JsonValue (PDict (<["is_complete" := PBool true]> d)))
                now state text) as Hc'.
  rewrite Hq in Hc, Hc'.
  destruct (InterviewerAgent._get_or_create_answer state q text now)
    as [[state1 k] r] eqn:Hm.
  intros Hllm Hmissing. cbv zeta.
  unfold GeminiService.validate_answer_completeness in Hc, Hc'.
  rewrite Hllm in Hc. cbv zeta in Hc, Hc'.
  rewrite Hmissing in Hc. rewrite lookup_insert_eq in Hc'.
  simpl default in Hc, Hc'. simpl truthy in Hc, Hc'. simpl orb in Hc, Hc'.
  destruct (merge_spec _ _ _ _ _ _ _ Hm) as (I1 & _ & _ & Hk & _).
  assert (Hstored :
            <[k := InterviewAnswer.set_is_complete r (PBool true)]>
              (InterviewState.answers state1) !! k
            = Some (InterviewAnswer.set_is_complete r (PBool true))).
  { apply list_lookup_insert_eq. by eapply lookup_lt_Some. }
  destruct (Z.ltb_spec (InterviewState.current_question_index state + 1) 8).
  - destruct Hc as (q1 & Hq1 & Hc). destruct Hc' as (q2 & Hq2 & Hc').
    rewrite Hq1 in Hq2. injection Hq2 as <-.
    rewrite Hc, Hc'. simpl.
    split; [done |]. split; [done |]. split; [done |].
    eexists. split; [reflexivity | discriminate].
  - destruct Hc as (_ & Hc). destruct Hc' as (_ & Hc').
    rewrite Hc, Hc'. simpl.
    split; [done |]. split; [done |]. split; [done |].
    eexists. split; [reflexivity | discriminate].
Qed.

Lemma missing_verdict_defaults_to_complete_witness :
  InterviewerAgent.validate_and_respond Sample.silent 10
    (Session.initial "s" 0) "I am a student"
  = InterviewerAgent.validate_and_respond
      (fun _ _ _ =>
         GeminiService.JsonValue (PDict (<["is_complete" := PBool true]> ∅)))
      10 (Session.initial "s" 0) "I am a student"
  /\ InterviewState.current_question_index
       (fst (InterviewerAgent.validate_and_respond Sample.silent 10
               (Session.initial "s" 0) "I am a student")) = 1.
Proof.
  epose proof (missing_verdict_defaults_to_complete Sample.silent 10
                 (Session.initial "s" 0) "I am a student" _ ∅ eq_refl) as H.
  simpl in H. specialize (H eq_refl eq_refl).
  destruct (InterviewerAgent.validate_and_respond Sample.silent 10
              (Session.initial "s" 0) "I am a student") as [state' result].
  destruct H as (He & _ & Hi & _).
  split; [exact He | exact Hi].
Defined.

(** ** C8: an answer when no question is left *)




(** ** C7: the fallback feedback *)

(** C7. When compiling the feedback fails (the model call raises, its reply
    is not JSON, or anything else in the [try] raises), [generate_feedback]
    returns the fixed fallback feedback with the given session id; and
    whatever the reply, it returns a feedback carrying the session id. *)
Theorem feedback_fallback
    (reply : GeminiService.llm_json) (now : Z) (session_id : string)
    (answers : list InterviewAnswer.t) :
  (reply = GeminiService.LlmRaised \/ reply = GeminiService.JsonInvalid
   \/ (exists e, FeedbackService.compile_feedback reply now session_id answers
                 = Raise e) ->
   FeedbackService.generate_feedback reply now session_id answers
   = InterviewFeedback.Build session_id
       "Thank you for completing the mock interview. You showed good effort in answering all questions."
       [ "Completed all interview questions";
         "Showed willingness to participate";
         "Provided thoughtful responses" ]
       [ "Try to provide more detailed responses";
         "Include specific examples when possible";
         "Structure your answers clearly" ]
       [ "Practice the STAR method (Situation, Task, Action, Result) for behavioral questions";
         "Prepare specific examples from your experience beforehand";
         "Take a moment to organize your thoughts before answering" ]
       "Keep practicing and you will continue to improve. Every interview is a learning opportunity!"
       [] now)
  /\ InterviewFeedback.session_id
       (FeedbackService.generate_feedback reply now session_id answers)
     = session_id.
Proof.
  split.
  - intros [-> | [-> | (e & He)]]; [reflexivity | reflexivity |].
    unfold FeedbackService.generate_feedback. rewrite He. reflexivity.
  - unfold FeedbackService.generate_feedback.
    destruct (FeedbackService.compile_feedback reply now session_id answers)
      as [f | e] eqn:Hc; [| reflexivity].
    unfold FeedbackService.compile_feedback in Hc.
    destruct reply as [| | v]; try discriminate Hc.
    repeat match type of Hc with
           | bind ?x _ = Ok _ => destruct x; simpl in Hc; [| discriminate Hc]
           end.
    injection Hc as <-. reflexivity.
Qed.

Lemma feedback_fallback_witness :
  InterviewFeedback.strengths
    (FeedbackService.generate_feedback
       (GeminiService.JsonValue (PList [PStr "not an object"])) 10 "s" [])
  = [ "Completed all interview questions";
      "Showed willingness to participate";
      "Provided thoughtful responses" ]
  /\ InterviewFeedback.encouragement
       (FeedbackService.generate_feedback GeminiService.LlmRaised 10 "s" [])
     = "Keep practicing and you will continue to improve. Every interview is a learning opportunity!".
Proof.
  split.
  - rewrite (proj1 (feedback_fallback
                      (GeminiService.JsonValue (PList [PStr "not an object"]))
                      10 "s" [])); [reflexivity |].
    right. right. exists AttributeError. reflexivity.
  - rewrite (proj1 (feedback_fallback GeminiService.LlmRaised 10 "s" []));
      [reflexivity |].
    left. reflexivity.
Defined.

(** ** The websocket loop *)

Section Loop.

Lemma feedback_calls_app (a b : list Main.Event) :
  Main.feedback_calls (a ++ b)
  = (Main.feedback_calls a + Main.feedback_calls b)%nat.
Proof. unfold Main.feedback_calls. by rewrite filter_app, length_app. Qed.

Lemma saved_flags_app (a b : list Main.Event) :
  Main.saved_flags (a ++ b) = Main.saved_flags a ++ Main.saved_flags b.
Proof. unfold Main.saved_flags. apply omap_app. Qed.

Lemma rises_all_false (flags more : list bool) :
  Forall (eq false) flags ->
  Main.rises false (flags ++ more) = Main.rises false more.
Proof.
  induction 1 as [| b flags <- _ IH]; [done |]. simpl. exact IH.
Qed.

(** What the response of a turn says about the index, on a state that still
    has a question to ask. *)
Lemma turn_action llm now state text :
  InterviewState.current_question_index state < 8 ->
  let '(state', result) :=
    InterviewerAgent.validate_and_respond llm now state text in
  match result with
  | Ok r =>
      match InterviewerAgent.action r with
      | InterviewerAgent.complete =>
          InterviewState.current_question_index state = 7
          /\ InterviewState.current_question_index state' = 8
          /\ InterviewState.is_completed state' = true
      | InterviewerAgent.next_question =>
          InterviewState.current_question_index state' < 8
          /\ exists s, InterviewerAgent.message r = PStr s
      | InterviewerAgent.follow_up =>
          InterviewState.current_question_index state' < 8
      end
  | Raise _ => InterviewState.current_question_index state' < 8
  end.
Proof.
  intros Hlt.
  turn_paths llm now state text; simpl; try done;
    try (destruct (merge_spec _ _ _ _ _ _ _ Hm) as (I1 & _); simpl; lia).
  - split; [lia | eauto].
  - apply get_current_question_None in Hq. lia.
Qed.

(** One iteration of the loop on a session that is not completed: it either
    finishes the session, from index 7, with one feedback request, or leaves
    it not completed with no feedback request. *)
Lemma loop_body_spec (session_data : SessionData.t) (m : Main.Incoming) :
  Session.well_formed (SessionData.state session_data) ->
  InterviewState.is_completed (SessionData.state session_data) = false ->
  let '(final, events, status) := Main.loop_body session_data m in
  match status with
  | Main.Finished =>
      InterviewState.current_question_index (SessionData.state session_data) = 7
      /\ InterviewState.current_question_index (SessionData.state final) = 8
      /\ InterviewState.is_completed (SessionData.state final) = true
      /\ InterviewState.completed_at (SessionData.state final) = Some (Main.clock m)
      /\ Main.feedback_calls events = 1%nat
      /\ Main.saved_flags events = [true; true]
      /\ SessionData.feedback final
         = Some (FeedbackService.generate_feedback (Main.feedback_reply m)
                   (Main.clock m) (SessionData.session_id session_data)
                   (InterviewState.answers (SessionData.state final)))
      /\ In (Main.Sent SESSION_END "Interview completed successfully!") events
  | _ =>
      Session.well_formed (SessionData.state final)
      /\ InterviewState.is_completed (SessionData.state final) = false
      /\ InterviewState.current_question_index (SessionData.state final) < 8
      /\ Main.feedback_calls events = 0%nat
      /\ Forall (eq false) (Main.saved_flags events)
  end.
Proof.
  intros Hwf Hopen.
  assert (Hlt : InterviewState.current_question_index (SessionData.state session_data) < 8).
  { destruct Hwf as (Hi & _ & _ & Hco). rewrite QUESTIONS_length in *.
    destruct (Z.eq_dec (InterviewState.current_question_index
                          (SessionData.state session_data)) 8) as [E | NE]; [| lia].
    apply Hco in E. congruence. }
  assert (Hsame : Session.well_formed (SessionData.state session_data)
                  /\ InterviewState.is_completed (SessionData.state session_data) = false
                  /\ InterviewState.current_question_index
                       (SessionData.state session_data) < 8
                  /\ 0%nat = 0%nat
                  /\ Forall (eq false) (@nil bool)) by done.
  unfold Main.loop_body.
  destruct (Main.all_space (Main.content m)); [exact Hsame |].
  destruct (Main.MAX_ANSWER_LENGTH <? Text.len (Main.content m))%nat;
    [exact Hsame |].
  clear Hsame.
  pose proof (turn_well_formed (Main.oracle m) (Main.clock m)
                (SessionData.state session_data) (Main.content m) Hwf) as Hwf'.
  pose proof (turn_index (Main.oracle m) (Main.clock m)
                (SessionData.state session_data) (Main.content m)) as Hstep.
  cbv zeta in Hstep.
  destruct (InterviewerAgent.validate_and_respond (Main.oracle m) (Main.clock m)
              (SessionData.state session_data) (Main.content m))
    as [state' result] eqn:Hturn.
  simpl fst in *.
  assert (Hflag : InterviewState.current_question_index state' < 8 ->
                  InterviewState.is_completed state' = false).
  { intros Hlt'. destruct Hwf' as (_ & _ & _ & Hco). rewrite QUESTIONS_length in Hco.
    destruct (InterviewState.is_completed state'); [| done].
    destruct Hco as [Hco _]. specialize (Hco eq_refl). lia. }
  pose proof (turn_action (Main.oracle m) (Main.clock m)
                (SessionData.state session_data) (Main.content m) Hlt) as Hact.
  rewrite Hturn in Hact.
  destruct result as [r | e]; simpl.
  - destruct (InterviewerAgent.action r).
    + destruct Hact as (Hlt' & s & ->). simpl.
      split; [done |]. split; [by apply Hflag |]. split; [done |].
      split; [done |]. unfold Main.saved_flags. simpl.
      rewrite Hflag by done. by repeat constructor.
    + destruct (Main.message_content (InterviewerAgent.message r)); simpl;
        (split; [done |]; split; [by apply Hflag |]; split; [done |];
         split; [done |]; unfold Main.saved_flags; simpl;
         rewrite Hflag by done; by repeat constructor).
    + destruct Hact as (H7 & H8 & Hdone). simpl.
      split; [done |]. split; [done |]. split; [done |]. split; [done |].
      split; [done |]. unfold Main.saved_flags. simpl. rewrite Hdone.
      split; [done |]. split; [done |]. do 5 right. by left.
  - split; [done |]. split; [by apply Hflag |]. split; [done |].
    split; [done |]. by constructor.
Qed.

End Loop.

Section Completion.


End Completion.

(** ** The endpoint: frames and connection *)

Section Endpoint.

Lemma delivers_earlier link n k :
  (k <= n)%nat ->
  Websocket.delivers link n = true -> Websocket.delivers link k = true.
Proof.
  destruct link as [| after]; simpl; [done |].
  rewrite !Nat.ltb_lt. lia.
Qed.

(** The agent never touches the completion time. *)
Lemma turn_completed_at llm now state text :
  InterviewState.completed_at
    (fst (InterviewerAgent.validate_and_respond llm now state text))
  = InterviewState.completed_at state.
Proof.
  turn_paths llm now state text; simpl; try done;
    by destruct (merge_spec _ _ _ _ _ _ _ Hm) as (_ & _ & I3 & _).
Qed.

(** A frame is refused, or hands a text to the agent, or makes the body
    raise. *)
Lemma refusal_answer f notice :
  Frames.refusal f = Some notice -> Frames.answer f = None.
Proof.
  unfold Frames.refusal, Frames.answer. destruct f as [| v]; [done |].
  destruct (Websocket.answer_text v); try done.
  destruct (forallb Text.isspace (Text.code_points s)); [done |].
  cbn [negb andb].
  destruct (Nat.ltb_spec 2000 (Text.len s)); [| done].
  destruct (Nat.leb_spec (Text.len s) 2000); [lia | done].
Qed.

Lemma truthy_not_blank (text : string) :
  forallb Text.isspace (Text.code_points text) = false ->
  truthy (PStr text) = true.
Proof. by destruct text. Qed.

Lemma loop_body_refused (session_data : SessionData.t) a notice :
  Frames.refusal (Websocket.frame a) = Some notice ->
  Websocket.loop_body session_data a
  = if Websocket.delivers (Websocket.link a) 0
    then (session_data, [ Main.Sent ERROR notice ], Websocket.Running)
    else (session_data, [], Websocket.Disconnected).
Proof.
  unfold Frames.refusal, Websocket.loop_body.
  destruct (Websocket.frame a) as [| v]; [done |]. cbv zeta.
  destruct (Websocket.answer_text v) as [| b | z | f | text | l | d];
    try (destruct (truthy _); simpl; [discriminate | by intros [= <-]]).
  unfold Main.all_space, Main.MAX_ANSWER_LENGTH.
  destruct (forallb Text.isspace (Text.code_points text)) eqn:Hblank.
  - intros [= <-]. by destruct (negb (truthy (PStr text))).
  - rewrite (truthy_not_blank _ Hblank). cbn [negb].
    destruct (2000 <? Text.len text)%nat; [by intros [= <-] | done].
Qed.

Lemma loop_body_answer (session_data : SessionData.t) a text :
  Frames.answer (Websocket.frame a) = Some text ->
  Websocket.loop_body session_data a = Websocket.process session_data a text.
Proof.
  unfold Frames.answer, Websocket.loop_body.
  destruct (Websocket.frame a) as [| v]; [done |]. cbv zeta.
  destruct (Websocket.answer_text v) as [| b | z | f | s | l | d]; try done.
  unfold Main.all_space, Main.MAX_ANSWER_LENGTH.
  destruct (forallb Text.isspace (Text.code_points s)) eqn:Hblank; [done |].
  rewrite (truthy_not_blank _ Hblank). cbn [negb andb].
  destruct (Nat.leb_spec (Text.len s) 2000) as [Hle | Hgt]; [| done].
  intros [= <-].
  destruct (Nat.ltb_spec 2000 (Text.len s)); [lia | done].
Qed.

Lemma loop_body_garbled (session_data : SessionData.t) a :
  Frames.refusal (Websocket.frame a) = None ->
  Frames.answer (Websocket.frame a) = None ->
  exists e,
    Websocket.loop_body session_data a
    = Websocket.handle session_data [] (Websocket.link a) 0 e
    /\ (e = JSONDecodeError \/ e = AttributeError).
Proof.
  unfold Frames.refusal, Frames.answer, Websocket.loop_body.
  destruct (Websocket.frame a) as [| v]; [by exists JSONDecodeError; auto |].
  cbv zeta.
  destruct (Websocket.answer_text v) as [| b | z | f | s | l | d];
    try (destruct (truthy _) eqn:Ht; simpl; [| discriminate];
         intros _ _; exists AttributeError; by auto).
  destruct (forallb Text.isspace (Text.code_points s)); [discriminate |].
  cbn [negb andb].
  destruct (Nat.ltb_spec 2000 (Text.len s)); [discriminate |].
  destruct (Nat.leb_spec (Text.len s) 2000); [discriminate | lia].
Qed.

(** One iteration on a session in which the agent has not yet given the
    complete action. *)
Lemma process_stage (session_data : SessionData.t) a text :
  Session.well_formed (SessionData.state session_data) ->
  InterviewState.is_completed (SessionData.state session_data) = false ->
  InterviewState.completed_at (SessionData.state session_data) = None ->
  SessionData.feedback session_data = None ->
  let '(next, events, status) := Websocket.process session_data a text in
  (status = Websocket.Running -> Session.well_formed (SessionData.state next))
  /\ (status = Websocket.Finished ->
      InterviewState.current_question_index (SessionData.state session_data) = 7
      /\ InterviewState.completed_at (SessionData.state next)
         = Some (Websocket.clock a)
      /\ In (Main.Sent SESSION_END "Interview completed successfully!") events)
  /\ exists stage,
      Frames.ends_at status stage
      /\ Frames.at_stage stage next events
      /\ (stage <> Frames.Asking ->
          exists flags, Main.saved_flags events = true :: flags).
Proof.
  intros Hwf Hopen Hat Hfb.
  assert (Hlt : InterviewState.current_question_index
                  (SessionData.state session_data) < 8).
  { destruct Hwf as (Hi & _ & _ & Hco). rewrite QUESTIONS_length in *.
    destruct (Z.eq_dec (InterviewState.current_question_index
                          (SessionData.state session_data)) 8) as [E | NE]; [| lia].
    apply Hco in E. congruence. }
  pose proof (turn_well_formed (Websocket.oracle a) (Websocket.clock a)
                (SessionData.state session_data) text Hwf) as Hwf'.
  pose proof (turn_completed_at (Websocket.oracle a) (Websocket.clock a)
                (SessionData.state session_data) text) as Hat'.
  pose proof (turn_action (Websocket.oracle a) (Websocket.clock a)
                (SessionData.state session_data) text Hlt) as Hact.
  unfold Websocket.process.
  destruct (InterviewerAgent.validate_and_respond (Websocket.oracle a)
              (Websocket.clock a) (SessionData.state session_data) text)
    as [state' result] eqn:Hturn.
  simpl fst in *. rewrite Hat in Hat'.
  assert (Hflag : InterviewState.current_question_index state' < 8 ->
                  InterviewState.is_completed state' = false).
  { intros Hlt'. destruct Hwf' as (_ & _ & _ & Hco). rewrite QUESTIONS_length in Hco.
    destruct (InterviewState.is_completed state'); [| done].
    destruct Hco as [Hco _]. specialize (Hco eq_refl). lia. }
  assert (Hasking :
            forall events status,
              InterviewState.current_question_index state' < 8 ->
              Main.feedback_calls events = 0%nat ->
              Forall (eq false) (Main.saved_flags events) ->
              Frames.ends_at status Frames.Asking ->
              (status = Websocket.Running ->
               Session.well_formed
                 (SessionData.state (Main.set_state session_data state')))
              /\ (status = Websocket.Finished ->
                  InterviewState.current_question_index
                    (SessionData.state session_data) = 7
                  /\ InterviewState.completed_at
                       (SessionData.state (Main.set_state session_data state'))
                     = Some (Websocket.clock a)
                  /\ In (Main.Sent SESSION_END "Interview completed successfully!")
                        events)
              /\ exists stage,
                  Frames.ends_at status stage
                  /\ Frames.at_stage stage (Main.set_state session_data state')
                       events
                  /\ (stage <> Frames.Asking ->
                      exists flags, Main.saved_flags events = true :: flags)).
  { intros events status Hlt' Hcalls Hflags Hends.
    split; [done |]. split; [by intros ->; simpl in Hends |].
    exists Frames.Asking. split; [done |]. split; [| done].
    simpl. rewrite Hflag by done. done. }
  assert (Hquiet : InterviewState.current_question_index state' < 8 ->
                   Forall (eq false)
                     (Main.saved_flags
                        [ Main.Saved (Main.set_state session_data state') ])).
  { intros Hlt'. unfold Main.saved_flags. simpl. rewrite Hflag by done.
    by repeat constructor. }
  destruct result as [r | e]; cbv zeta.
  - destruct (InterviewerAgent.action r).
    + destruct Hact as (Hlt' & s & ->). simpl Main.message_content. cbv iota.
      destruct (Websocket.delivers (Websocket.link a) 0);
        apply Hasking; try done; by apply Hquiet.
    + destruct (Main.message_content (InterviewerAgent.message r)).
      * destruct (Websocket.delivers (Websocket.link a) 0);
          apply Hasking; try done; by apply Hquiet.
      * unfold Websocket.handle.
        destruct (Websocket.delivers (Websocket.link a) 0);
          apply Hasking; try done; by apply Hquiet.
    + destruct Hact as (H7 & H8 & Hdone). clear Hasking Hquiet.
      destruct (Websocket.delivers (Websocket.link a) 0); cbn [negb].
      2: { split; [done |]. split; [done |]. exists Frames.Marked.
           split; [done |]. split.
           - simpl. split; [done |]. split; [done |]. split; [done |].
             split; [done |]. split; [done |]. exists [].
             split; [constructor |]. unfold Main.saved_flags. simpl.
             by rewrite Hdone.
           - intros _. exists []. unfold Main.saved_flags. simpl.
             by rewrite Hdone. }
      assert (Hcompiled :
                forall events status,
                  Main.feedback_calls events = 1%nat ->
                  Main.saved_flags events = [true; true] ->
                  Frames.ends_at status Frames.Compiled ->
                  exists stage,
                    Frames.ends_at status stage
                    /\ Frames.at_stage stage
                         (Main.set_feedback
                            (Main.set_state (Main.set_state session_data state')
                               (InterviewState.set_completed_at
                                  (InterviewState.set_is_completed state' true)
                                  (Some (Websocket.clock a))))
                            (FeedbackService.generate_feedback
                               (Websocket.feedback_reply a) (Websocket.clock a)
                               (SessionData.session_id session_data)
                               (InterviewState.answers state')))
                         events
                    /\ (stage <> Frames.Asking ->
                        exists flags, Main.saved_flags events = true :: flags)).
      { intros events status Hcalls Hflags Hends. exists Frames.Compiled.
        split; [done |]. split.
        - simpl. split; [done |]. split; [done |]. split; [done |].
          split; [done |]. split; [done |]. exists []. by rewrite Hflags.
        - intros _. exists [true]. by rewrite Hflags. }
      assert (Hflags : forall more,
                Main.saved_flags more = [] ->
                Main.saved_flags
                  ([ Main.Saved (Main.set_state session_data state');
                     Main.Sent STATUS "Generating your personalized feedback...";
                     Main.FeedbackRequested (SessionData.session_id session_data)
                       (InterviewState.answers
                          (InterviewState.set_completed_at
                             (InterviewState.set_is_completed state' true)
                             (Some (Websocket.clock a))));
                     Main.Saved
                       (Main.set_feedback
                          (Main.set_state (Main.set_state session_data state')
                             (InterviewState.set_completed_at
                                (InterviewState.set_is_completed state' true)
                                (Some (Websocket.clock a))))
                          (FeedbackService.generate_feedback
                             (Websocket.feedback_reply a) (Websocket.clock a)
                             (SessionData.session_id session_data)
                             (InterviewState.answers state'))) ] ++ more)
                = [true; true]).
      { intros more Hmore. rewrite saved_flags_app, Hmore.
        unfold Main.saved_flags. simpl. by rewrite Hdone. }
      destruct (Websocket.delivers (Websocket.link a) 1); cbn [negb].
      2: { split; [done |]. split; [done |]. apply Hcompiled; try done.
           by rewrite <- (app_nil_r [_; _; _; _]), Hflags. }
      destruct (Websocket.delivers (Websocket.link a) 2); cbn [negb].
      2: { split; [done |]. split; [done |].
           apply Hcompiled; try done. by apply Hflags. }
      split; [done |]. split.
      * intros _. split; [done |]. split; [done |].
        apply in_or_app. right. right. by left.
      * apply Hcompiled; try done. by apply Hflags.
  - unfold Websocket.handle.
    destruct (Websocket.delivers (Websocket.link a) 0);
      apply Hasking; try done; by constructor.
Qed.

Lemma loop_body_stage (session_data : SessionData.t) a :
  Session.well_formed (SessionData.state session_data) ->
  InterviewState.is_completed (SessionData.state session_data) = false ->
  InterviewState.completed_at (SessionData.state session_data) = None ->
  SessionData.feedback session_data = None ->
  let '(next, events, status) := Websocket.loop_body session_data a in
  (status = Websocket.Running -> Session.well_formed (SessionData.state next))
  /\ (status = Websocket.Finished ->
      InterviewState.current_question_index (SessionData.state session_data) = 7
      /\ InterviewState.completed_at (SessionData.state next)
         = Some (Websocket.clock a)
      /\ In (Main.Sent SESSION_END "Interview completed successfully!") events)
  /\ exists stage,
      Frames.ends_at status stage
      /\ Frames.at_stage stage next events
      /\ (stage <> Frames.Asking ->
          exists flags, Main.saved_flags events = true :: flags).
Proof.
  intros Hwf Hopen Hat Hfb.
  destruct (Frames.answer (Websocket.frame a)) as [text |] eqn:Hanswer.
  { rewrite (loop_body_answer _ _ _ Hanswer). by apply process_stage. }
  assert (Hlt : InterviewState.current_question_index
                  (SessionData.state session_data) < 8).
  { destruct Hwf as (Hi & _ & _ & Hco). rewrite QUESTIONS_length in *.
    destruct (Z.eq_dec (InterviewState.current_question_index
                          (SessionData.state session_data)) 8) as [E | NE]; [| lia].
    apply Hco in E. congruence. }
  assert (Hsame : forall events status,
            Main.feedback_calls events = 0%nat ->
            Main.saved_flags events = [] ->
            Frames.ends_at status Frames.Asking ->
            (status = Websocket.Running ->
             Session.well_formed (SessionData.state session_data))
            /\ (status = Websocket.Finished ->
                InterviewState.current_question_index
                  (SessionData.state session_data) = 7
                /\ InterviewState.completed_at (SessionData.state session_data)
                   = Some (Websocket.clock a)
                /\ In (Main.Sent SESSION_END "Interview completed successfully!")
                      events)
            /\ exists stage,
                Frames.ends_at status stage
                /\ Frames.at_stage stage session_data events
                /\ (stage <> Frames.Asking ->
                    exists flags, Main.saved_flags events = true :: flags)).
  { intros events status Hcalls Hflags Hends.
    split; [done |]. split; [by intros ->; simpl in Hends |].
    exists Frames.Asking. split; [done |]. split; [| done].
    simpl. rewrite Hflags. done. }
  destruct (Frames.refusal (Websocket.frame a)) as [notice |] eqn:Hrefusal.
  - rewrite (loop_body_refused _ _ _ Hrefusal).
    destruct (Websocket.delivers (Websocket.link a) 0); by apply Hsame.
  - destruct (loop_body_garbled session_data a Hrefusal Hanswer) as (e & -> & _).
    unfold Websocket.handle.
    destruct (Websocket.delivers (Websocket.link a) 0); by apply Hsame.
Qed.

(** Events of a stretch that left the session asking, followed by more. *)
Lemma at_stage_app stage (middle final : SessionData.t)
    (events later : list Main.Event) :
  Frames.at_stage Frames.Asking middle events ->
  Frames.at_stage stage final later ->
  Frames.at_stage stage final (events ++ later).
Proof.
  intros (_ & _ & _ & _ & Hcalls & Hquiet).
  destruct stage; simpl; rewrite feedback_calls_app, saved_flags_app, Hcalls.
  - intros (? & ? & ? & ? & ? & ?). repeat split; try done.
    by apply Forall_app.
  - intros (? & ? & ? & ? & ? & quiet & ? & ->). repeat split; try done.
    exists (Main.saved_flags events ++ quiet).
    split; [by apply Forall_app | by rewrite app_assoc].
  - intros (? & ? & ? & ? & ? & quiet & ? & ->). repeat split; try done.
    exists (Main.saved_flags events ++ quiet).
    split; [by apply Forall_app | by rewrite app_assoc].
Qed.

(** The whole loop on a session in which the agent has not yet given the
    complete action. *)
Lemma conversation_stage (inbox : list Websocket.Arrival)
    (session_data : SessionData.t) :
  Session.well_formed (SessionData.state session_data) ->
  InterviewState.is_completed (SessionData.state session_data) = false ->
  InterviewState.completed_at (SessionData.state session_data) = None ->
  SessionData.feedback session_data = None ->
  let '(final, events, status) := Websocket.conversation session_data inbox in
  (status = Websocket.Finished ->
   In (Main.Sent SESSION_END "Interview completed successfully!") events)
  /\ exists stage,
      Frames.ends_at status stage /\ Frames.at_stage stage final events.
Proof.
  revert session_data.
  induction inbox as [| a inbox IH]; intros session_data Hwf Hopen Hat Hfb.
  - simpl. split; [done |]. exists Frames.Asking. split; [done |].
    simpl. split; [done |]. split; [| done].
    destruct Hwf as (Hi & _ & _ & Hco). rewrite QUESTIONS_length in *.
    destruct (Z.eq_dec (InterviewState.current_question_index
                          (SessionData.state session_data)) 8) as [E | NE]; [| lia].
    apply Hco in E. congruence.
  - simpl.
    pose proof (loop_body_stage session_data a Hwf Hopen Hat Hfb) as Hbody.
    destruct (Websocket.loop_body session_data a) as [[next events] status].
    destruct Hbody as (Hwf' & Hend & stage & Hends & Hstage & _).
    destruct status as [| | e |].
    + destruct stage; try done.
      pose proof Hstage as (Hopen' & _ & Hat' & Hfb' & _).
      specialize (IH next (Hwf' eq_refl) Hopen' Hat' Hfb').
      destruct (Websocket.conversation next inbox) as [[final later] status].
      destruct IH as (Hsent & stage' & Hends' & Hstage').
      split.
      * intros Hst. apply in_or_app. right. by apply Hsent.
      * exists stage'. split; [done |]. by eapply at_stage_app.
    + split; [intros _; by apply Hend |]. by exists stage.
    + split; [done |]. by exists stage.
    + split; [done |]. by exists stage.
Qed.

(** The iteration that moves the index from 7 to 8. *)
Lemma loop_body_last_question (session_data : SessionData.t) a :
  InterviewState.current_question_index (SessionData.state session_data) = 7 ->
  let '(after, events, outcome) := Websocket.loop_body session_data a in
  InterviewState.current_question_index (SessionData.state after) = 8 ->
  InterviewState.is_completed (SessionData.state after) = true
  /\ (exists text r,
        Frames.answer (Websocket.frame a) = Some text
        /\ snd (InterviewerAgent.validate_and_respond (Websocket.oracle a)
                  (Websocket.clock a) (SessionData.state session_data) text)
           = Ok r
        /\ InterviewerAgent.action r = InterviewerAgent.complete)
  /\ (exists flags, Main.saved_flags events = true :: flags)
  /\ (if Websocket.delivers (Websocket.link a) 0
      then InterviewState.completed_at (SessionData.state after)
           = Some (Websocket.clock a)
           /\ Main.feedback_calls events = 1%nat
           /\ is_Some (SessionData.feedback after)
      else InterviewState.completed_at (SessionData.state after)
           = InterviewState.completed_at (SessionData.state session_data)
           /\ Main.feedback_calls events = 0%nat
           /\ SessionData.feedback after = SessionData.feedback session_data
           /\ outcome = Websocket.Disconnected)
  /\ (Websocket.delivers (Websocket.link a) 2 = true ->
      outcome = Websocket.Finished
      /\ In (Main.Sent SESSION_END "Interview completed successfully!") events).
Proof.
  intros H7.
  destruct (Frames.answer (Websocket.frame a)) as [text |] eqn:Hanswer.
  2: { destruct (Frames.refusal (Websocket.frame a)) as [notice |] eqn:Hrefusal.
       - rewrite (loop_body_refused _ _ _ Hrefusal).
         destruct (Websocket.delivers (Websocket.link a) 0); simpl; lia.
       - destruct (loop_body_garbled session_data a Hrefusal Hanswer)
           as (e & -> & _).
         unfold Websocket.handle. simpl. lia. }
  rewrite (loop_body_answer _ _ _ Hanswer).
  assert (Hlt : InterviewState.current_question_index
                  (SessionData.state session_data) < 8) by lia.
  pose proof (turn_action (Websocket.oracle a) (Websocket.clock a)
                (SessionData.state session_data) text Hlt) as Hact.
  pose proof (turn_completed_at (Websocket.oracle a) (Websocket.clock a)
                (SessionData.state session_data) text) as Hat.
  unfold Websocket.process.
  destruct (InterviewerAgent.validate_and_respond (Websocket.oracle a)
              (Websocket.clock a) (SessionData.state session_data) text)
    as [state' result] eqn:Hturn.
  simpl fst in Hat.
  destruct result as [r | e]; cbv zeta; [| unfold Websocket.handle; simpl; lia].
  destruct (InterviewerAgent.action r) eqn:Haction.
  - destruct Hact as (Hlt' & s & ->). simpl Main.message_content. cbv iota.
    destruct (Websocket.delivers (Websocket.link a) 0); simpl; lia.
  - destruct (Main.message_content (InterviewerAgent.message r));
      unfold Websocket.handle;
      destruct (Websocket.delivers (Websocket.link a) 0); simpl; lia.
  - destruct Hact as (_ & H8 & Hdone).
    assert (Hresponse :
              exists text0 r0,
                Some text = Some text0
                /\ snd (InterviewerAgent.validate_and_respond
                          (Websocket.oracle a) (Websocket.clock a)
                          (SessionData.state session_data) text0) = Ok r0
                /\ InterviewerAgent.action r0 = InterviewerAgent.complete).
    { exists text, r. by rewrite Hturn. }
    destruct (Websocket.delivers (Websocket.link a) 0) eqn:D0; cbn [negb].
    2: { intros _. split; [done |]. split; [done |]. split.
         - exists []. unfold Main.saved_flags. simpl. by rewrite Hdone.
         - split; [done |]. intros D2.
           rewrite (delivers_earlier _ 2 0) in D0 by (done || lia). done. }
    assert (Hflags : forall events : list Main.Event,
              exists flags,
                Main.saved_flags (Main.Saved (Main.set_state session_data state')
                                    :: events) = true :: flags).
    { intros events. eexists. unfold Main.saved_flags. simpl.
      rewrite Hdone. reflexivity. }
    destruct (Websocket.delivers (Websocket.link a) 1) eqn:D1; cbn [negb].
    2: { intros _. split; [done |]. split; [done |]. split; [apply Hflags |].
         split; [done |]. intros D2.
         rewrite (delivers_earlier _ 2 1) in D1 by (done || lia). done. }
    destruct (Websocket.delivers (Websocket.link a) 2) eqn:D2; cbn [negb].
    2: { intros _. split; [done |]. split; [done |]. split; [apply Hflags |].
         split; [done |]. done. }
    intros _. split; [done |]. split; [done |]. split; [apply Hflags |].
    split; [done |]. intros _. split; [done |].
    apply in_or_app. right. right. by left.
Qed.

Lemma open_session_spec session_id started opening :
  let '(opened, events, status) :=
    Websocket.open_session session_id started opening in
  opened = SessionData.Build session_id (Session.initial session_id started) None
  /\ Frames.at_stage Frames.Asking opened events
  /\ Handler.snapshots events = [opened]
  /\ (status = Websocket.Running \/ status = Websocket.Disconnected)
  /\ (Websocket.delivers opening 2 = true -> status = Websocket.Running).
Proof.
  unfold Websocket.open_session.
  destruct (Websocket.delivers opening 0) eqn:D0; cbn [negb].
  2: { repeat split; try done; [by repeat constructor | by right |].
       intros D2. rewrite (delivers_earlier _ 2 0) in D0 by (done || lia). done. }
  destruct (Websocket.delivers opening 1) eqn:D1; cbn [negb].
  2: { repeat split; try done; [by repeat constructor | by right |].
       intros D2. rewrite (delivers_earlier _ 2 1) in D1 by (done || lia). done. }
  change (InterviewerAgent.get_current_question
            (InterviewState.Build session_id 0 [] false started None))
    with (Ok (nth_error InterviewerAgent.QUESTIONS 0)).
  cbn [nth_error InterviewerAgent.QUESTIONS].
  destruct (Websocket.delivers opening 2) eqn:D2; cbn [negb];
    repeat split; try done; try (by repeat constructor); by (left || right).
Qed.

(** What each stage says about the flag, the index, the completion time and
    the calls of the feedback compiler. *)
Lemma stage_facts stage (d : SessionData.t) (events : list Main.Event) :
  Frames.at_stage stage d events ->
  (Main.feedback_calls events <= 1)%nat
  /\ (Main.rises false (Main.saved_flags events) <= 1)%nat
  /\ (InterviewState.is_completed (SessionData.state d) = true
      <-> InterviewState.current_question_index (SessionData.state d) = 8)
  /\ (InterviewState.current_question_index (SessionData.state d) = 8
      <-> Main.rises false (Main.saved_flags events) = 1%nat)
  /\ (Main.feedback_calls events = 1%nat
      <-> is_Some (InterviewState.completed_at (SessionData.state d)))
  /\ (Main.feedback_calls events = 1%nat
      <-> is_Some (SessionData.feedback d))
  /\ (Main.feedback_calls events = 1%nat ->
      InterviewState.current_question_index (SessionData.state d) = 8)
  /\ (stage = Frames.Compiled ->
      InterviewState.is_completed (SessionData.state d) = true
      /\ is_Some (InterviewState.completed_at (SessionData.state d))
      /\ InterviewState.current_question_index (SessionData.state d) = 8
      /\ is_Some (SessionData.feedback d)
      /\ Main.feedback_calls events = 1%nat
      /\ Main.rises false (Main.saved_flags events) = 1%nat).
Proof.
  destruct stage; simpl.
  - intros (Hopen & Hlt & Hat & Hfb & Hcalls & Hquiet).
    assert (Hrises : Main.rises false (Main.saved_flags events) = 0%nat).
    { rewrite <- (app_nil_r (Main.saved_flags events)).
      by rewrite rises_all_false. }
    rewrite Hopen, Hat, Hfb, Hcalls, Hrises.
    repeat split; try done; try lia; try (intros [x Hx]; discriminate Hx).
  - intros (Hdone & H8 & Hat & Hfb & Hcalls & quiet & Hquiet & ->).
    rewrite rises_all_false by done.
    rewrite Hdone, H8, Hat, Hfb, Hcalls. simpl.
    repeat split; try done; try lia; try (intros [x Hx]; discriminate Hx).
  - intros (Hdone & H8 & Hat & Hfb & Hcalls & quiet & Hquiet & ->).
    rewrite rises_all_false by done.
    rewrite Hdone, H8, Hcalls. simpl.
    repeat split; try done; try lia.
Qed.

(** The endpoint as a whole. *)
Lemma interview_websocket_stage session_id started opening inbox :
  let '(final, trace, status) :=
    Websocket.interview_websocket session_id started opening inbox in
  (status = Websocket.Finished ->
   In (Main.Sent SESSION_END "Interview completed successfully!") trace)
  /\ exists stage,
      Frames.ends_at status stage /\ Frames.at_stage stage final trace.
Proof.
  unfold Websocket.interview_websocket.
  pose proof (open_session_spec session_id started opening) as Hopening.
  destruct (Websocket.open_session session_id started opening)
    as [[opened events] status].
  destruct Hopening as (-> & Hasking & _ & [-> | ->] & _).
  2: { split; [done |]. by exists Frames.Asking. }
  pose proof (conversation_stage inbox
                (SessionData.Build session_id
                   (Session.initial session_id started) None)
                (well_formed_initial session_id started)
                eq_refl eq_refl eq_refl) as Hconv.
  destruct (Websocket.conversation _ inbox) as [[final later] status].
  destruct Hconv as (Hsent & stage & Hends & Hstage).
  split.
  - intros Hst. apply in_or_app. right. by apply Hsent.
  - exists stage. split; [done |]. by eapply at_stage_app.
Qed.

End Endpoint.

(** ** C6: the end of the catalog *)

(** C6, as amended. The iteration whose advance moves the index from 7 to 8
    gets the complete action from the agent and marks the session completed,
    and the completed state is saved. When the status notice that follows is
    delivered, the iteration sets the completion time and requests the
    feedback exactly once; when the connection is lost before, it does
    neither. Over a whole session the feedback is requested at most once and
    the saved snapshots go from not completed to completed at most once,
    which they do exactly when the index has reached 8; the completion time
    is set exactly when the feedback has been requested; and a session that
    finishes has done all of it. *)
Theorem completion_at_end_of_catalog
    (session_id : string) (started : Z) (opening : Websocket.Link)
    (inbox : list Websocket.Arrival) :
  let '(final, trace, status) :=
    Websocket.interview_websocket session_id started opening inbox in
  (Main.feedback_calls trace <= 1)%nat
  /\ (Main.rises false (Main.saved_flags trace) <= 1)%nat
  /\ (InterviewState.is_completed (SessionData.state final) = true
      <-> InterviewState.current_question_index (SessionData.state final) = 8)
  /\ (InterviewState.current_question_index (SessionData.state final) = 8
      <-> Main.rises false (Main.saved_flags trace) = 1%nat)
  /\ (Main.feedback_calls trace = 1%nat
      <-> is_Some (InterviewState.completed_at (SessionData.state final)))
  /\ (Main.feedback_calls trace = 1%nat
      <-> is_Some (SessionData.feedback final))
  /\ (Main.feedback_calls trace = 1%nat ->
      InterviewState.current_question_index (SessionData.state final) = 8)
  /\ (status = Websocket.Finished ->
      InterviewState.is_completed (SessionData.state final) = true
      /\ is_Some (InterviewState.completed_at (SessionData.state final))
      /\ InterviewState.current_question_index (SessionData.state final) = 8
      /\ is_Some (SessionData.feedback final)
      /\ Main.feedback_calls trace = 1%nat
      /\ Main.rises false (Main.saved_flags trace) = 1%nat
      /\ In (Main.Sent SESSION_END "Interview completed successfully!") trace)
  /\ (forall (session_data : SessionData.t) (a : Websocket.Arrival),
        InterviewState.current_question_index (SessionData.state session_data) = 7 ->
        let '(after, events, outcome) := Websocket.loop_body session_data a in
        InterviewState.current_question_index (SessionData.state after) = 8 ->
        InterviewState.is_completed (SessionData.state after) = true
        /\ (exists text r,
              Frames.answer (Websocket.frame a) = Some text
              /\ snd (InterviewerAgent.validate_and_respond (Websocket.oracle a)
                        (Websocket.clock a) (SessionData.state session_data)
                        text) = Ok r
              /\ InterviewerAgent.action r = InterviewerAgent.complete)
        /\ (exists flags, Main.saved_flags events = true :: flags)
        /\ (if Websocket.delivers (Websocket.link a) 0
            then InterviewState.completed_at (SessionData.state after)
                 = Some (Websocket.clock a)
                 /\ Main.feedback_calls events = 1%nat
                 /\ is_Some (SessionData.feedback after)
            else InterviewState.completed_at (SessionData.state after)
                 = InterviewState.completed_at (SessionData.state session_data)
                 /\ Main.feedback_calls events = 0%nat
                 /\ SessionData.feedback after
                    = SessionData.feedback session_data
                 /\ outcome = Websocket.Disconnected)
        /\ (Websocket.delivers (Websocket.link a) 2 = true ->
            outcome = Websocket.Finished
            /\ In (Main.Sent SESSION_END "Interview completed successfully!")
                  events)).
Proof.
  pose proof (interview_websocket_stage session_id started opening inbox)
    as Hstage.
  destruct (Websocket.interview_websocket session_id started opening inbox)
    as [[final trace] status].
  destruct Hstage as (Hsent & stage & Hends & Hstage).
  destruct (stage_facts _ _ _ Hstage)
    as (F1 & F2 & F3 & F4 & F5 & F6 & F7 & F8).
  split; [done |]. split; [done |]. split; [done |]. split; [done |].
  split; [done |]. split; [done |]. split; [done |]. split.
  - intros ->. destruct stage; try done.
    destruct (F8 eq_refl) as (? & ? & ? & ? & ? & ?).
    repeat split; try done. by apply Hsent.
  - intros session_data a. apply loop_body_last_question.
Qed.

Lemma completion_at_end_of_catalog_witness :
  let inbox :=
    replicate 8 (Sample.arrives Sample.satisfied "yes" Websocket.Up) in
  let seven :=
    SessionData.Build "s"
      (Session.run (Session.initial "s" 0)
         (replicate 7 (Sample.says Sample.satisfied "yes")))
      None in
  (Main.feedback_calls
     (snd (fst (Websocket.interview_websocket "s" 0 Websocket.Up inbox)))
   = 1%nat
   /\ InterviewState.is_completed
        (SessionData.state
           (fst (fst (Websocket.interview_websocket "s" 0 Websocket.Up inbox))))
      = true)
  /\ InterviewState.completed_at
       (SessionData.state
          (fst (fst (Websocket.loop_body seven
                       (Sample.arrives Sample.satisfied "yes" Websocket.Up)))))
     = Some 10.
Proof.
  cbv zeta. split.
  - pose proof (completion_at_end_of_catalog "s" 0 Websocket.Up
                  (replicate 8 (Sample.arrives Sample.satisfied "yes"
                                  Websocket.Up))) as H.
    assert (Hs : snd (Websocket.interview_websocket "s" 0 Websocket.Up
                        (replicate 8 (Sample.arrives Sample.satisfied "yes"
                                        Websocket.Up)))
                 = Websocket.Finished) by (vm_compute; reflexivity).
    destruct (Websocket.interview_websocket "s" 0 Websocket.Up _)
      as [[final trace] status].
    simpl in Hs |- *. destruct H as (_ & _ & _ & _ & _ & _ & _ & H & _).
    destruct (H Hs) as (Hdone & _ & _ & _ & Hcalls & _). split; done.
  - pose proof (completion_at_end_of_catalog "s" 0 Websocket.Up []) as H.
    destruct (Websocket.interview_websocket "s" 0 Websocket.Up [])
      as [[final trace] status].
    destruct H as (_ & _ & _ & _ & _ & _ & _ & _ & H).
    specialize (H (SessionData.Build "s"
                     (Session.run (Session.initial "s" 0)
                        (replicate 7 (Sample.says Sample.satisfied "yes")))
                     None)
                  (Sample.arrives Sample.satisfied "yes" Websocket.Up)
                  ltac:(vm_compute; reflexivity)).
    assert (H8 : InterviewState.current_question_index
                   (SessionData.state
                      (fst (fst (Websocket.loop_body
                                   (SessionData.Build "s"
                                      (Session.run (Session.initial "s" 0)
                                         (replicate 7
                                            (Sample.says Sample.satisfied "yes")))
                                      None)
                                   (Sample.arrives Sample.satisfied "yes"
                                      Websocket.Up))))) = 8)
      by (vm_compute; reflexivity).
    destruct (Websocket.loop_body _ _) as [[after events] outcome].
    simpl in H8 |- *. destruct (H H8) as (_ & _ & _ & Hat & _).
    simpl in Hat. by destruct Hat as (Hat & _).
Defined.

(** C6, as stated, fails: when the client is gone by the time the answer to
    the last question has been processed, the status notice cannot be sent;
    the index is 8 and the saved state is marked completed, but no completion
    time is set and the feedback compiler is never called. *)
Lemma completion_without_feedback :
  ~ (forall (session_id : string) (started : Z) (opening : Websocket.Link)
            (inbox : list Websocket.Arrival),
       let '(final, trace, status) :=
         Websocket.interview_websocket session_id started opening inbox in
       InterviewState.current_question_index (SessionData.state final) = 8 ->
       InterviewState.is_completed (SessionData.state final) = true
       /\ is_Some (InterviewState.completed_at (SessionData.state final))
       /\ Main.feedback_calls trace = 1%nat).
Proof.
  intros H.
  specialize (H "s" 0 Websocket.Up
                (replicate 7 (Sample.arrives Sample.satisfied "yes" Websocket.Up)
                 ++ [ Sample.arrives Sample.satisfied "yes" (Websocket.Down 0) ])).
  assert (Hrun :
            InterviewState.current_question_index
              (SessionData.state
                 (fst (fst (Websocket.interview_websocket "s" 0 Websocket.Up
                              (replicate 7 (Sample.arrives Sample.satisfied "yes"
                                              Websocket.Up)
                               ++ [ Sample.arrives Sample.satisfied "yes"
                                      (Websocket.Down 0) ])))))
            = 8
            /\ Main.feedback_calls
                 (snd (fst (Websocket.interview_websocket "s" 0 Websocket.Up
                              (replicate 7 (Sample.arrives Sample.satisfied "yes"
                                              Websocket.Up)
                               ++ [ Sample.arrives Sample.satisfied "yes"
                                      (Websocket.Down 0) ]))))
               = 0%nat)
    by (vm_compute; split; reflexivity).
  destruct (Websocket.interview_websocket "s" 0 Websocket.Up _)
    as [[final trace] status].
  simpl in Hrun. destruct Hrun as (H8 & Hcalls).
  destruct (H H8) as (_ & _ & Hone). rewrite Hcalls in Hone. discriminate Hone.
Qed.

(** ** Remarks on the edges of the claims *)

(** A follow-up text that is present but empty is passed on as it is: the
    fallback of C4 is used only when the key is absent. *)
Example empty_follow_up_is_kept :
  let llm : GeminiService.Oracle :=
    fun _ _ _ =>
      GeminiService.JsonValue
        (PDict (<["is_complete" := PBool false]> (<["follow_up" := PStr ""]> ∅))) in
  InterviewerAgent.message
    <$> match snd (InterviewerAgent.validate_and_respond llm 10
                     (Session.initial "s" 0) "I am a student") with
        | Ok response => Some response
        | Raise _ => None
        end
  = Some (PStr "").
Proof. vm_compute. reflexivity. Qed.

(** A reply that is JSON but not an object makes the turn raise after the
    answer was merged: the index stays and no follow-up is counted. *)
Example reply_without_get_raises :
  let llm : GeminiService.Oracle :=
    fun _ _ _ => GeminiService.JsonValue (PList []) in
  let '(state', result) :=
    InterviewerAgent.validate_and_respond llm 10 (Session.initial "s" 0)
      "I am a student" in
  result = Raise AttributeError
  /\ InterviewState.current_question_index state' = 0
  /\ InterviewAnswer.follow_up_count <$> InterviewState.answers state' = [0].
Proof. vm_compute. repeat split; reflexivity. Qed.

(** Below minus the catalog size the lookup raises. *)
Example lookup_far_below_raises :
  InterviewerAgent.get_current_question
    (InterviewState.Build "s" (-9) [] false 0 None) = Raise IndexError.
Proof. reflexivity. Qed.

(** * Further properties of the code *)

(** ** What a turn does to the records *)

Section TurnEffect.
Import InterviewerAgent.

Lemma string_app_assoc (a b c : string) : (a +:+ b) +:+ c = a +:+ (b +:+ c).
Proof.
  induction a as [| x a IH]; [done |].
  change (String x ((a +:+ b) +:+ c) = String x (a +:+ (b +:+ c))).
  by rewrite IH.
Qed.

Lemma string_app_nil_r (a : string) : a +:+ "" = a.
Proof.
  induction a as [| x a IH]; [done |].
  change (String x (a +:+ "") = String x a). by rewrite IH.
Qed.

(** A turn on an existing question rewrites one record, the one the merge
    returned, and touches nothing but its completeness and its count. *)
Lemma turn_effect llm now state text q state1 k r :
  get_current_question state = Ok (Some q) ->
  _get_or_create_answer state q text now = (state1, k, r) ->
  exists r',
    InterviewState.answers (fst (validate_and_respond llm now state text))
    = <[k := r']> (InterviewState.answers state1)
    /\ InterviewAnswer.question_category r' = InterviewQuestion.category q
    /\ InterviewAnswer.question_text r' = InterviewAnswer.question_text r
    /\ InterviewAnswer.answer_text r' = InterviewAnswer.answer_text r
    /\ InterviewAnswer.timestamp r' = InterviewAnswer.timestamp r
    /\ InterviewAnswer.follow_up_count r <= InterviewAnswer.follow_up_count r'
    /\ (InterviewState.current_question_index
          (fst (validate_and_respond llm now state text))
        = InterviewState.current_question_index state + 1 ->
        InterviewAnswer.follow_up_count r' = InterviewAnswer.follow_up_count r)
    /\ (InterviewState.current_question_index
          (fst (validate_and_respond llm now state text))
        = InterviewState.current_question_index state ->
        is_ok (snd (validate_and_respond llm now state text)) = true ->
        InterviewAnswer.follow_up_count r'
        = InterviewAnswer.follow_up_count r + 1
        /\ InterviewAnswer.follow_up_count r < max_follow_ups).
Proof.
  turn_paths llm now state text; intros Hq0; try discriminate Hq0;
    injection Hq0 as ->; intros Hm0; rewrite Hm in Hm0;
    injection Hm0 as -> -> ->;
    destruct (merge_spec _ _ _ _ _ _ _ Hm) as (I1 & _ & _ & Hk & Hcat & _).
  1-6: exists r; simpl; rewrite list_insert_id by done;
       repeat split; try done; try lia; intros; discriminate.
  - eexists. simpl. split; [reflexivity |]. simpl.
    repeat split; try done; try lia.
  - eexists. simpl. split; [reflexivity |]. simpl.
    repeat split; try done; try lia.
  - eexists. simpl. split; [by rewrite list_insert_insert_eq |]. simpl.
    apply orb_false_iff in Hadv as [_ Hlow]. apply Z.leb_gt in Hlow.
    repeat split; try done; try lia.
Qed.

End TurnEffect.

(** ** Records only grow, and stay in catalog order *)

Section Growth.
Import InterviewerAgent.

(** Where the lookup finds no question the turn leaves the state alone. *)
Lemma turn_without_question llm now state text :
  (forall q, get_current_question state <> Ok (Some q)) ->
  fst (validate_and_respond llm now state text) = state.
Proof.
  intros Hno. pose proof (validate_and_respond_cases llm now state text) as Hc.
  destruct (get_current_question state) as [[q |] | e];
    [by destruct (Hno q) | by rewrite Hc | by rewrite Hc].
Qed.

Lemma record_grows_refl a : Flow.record_grows a a.
Proof.
  split; [done |]. split; [done |]. split; [done |].
  split; [| lia]. exists "". by rewrite string_app_nil_r.
Qed.

Lemma record_grows_trans a b c :
  Flow.record_grows a b -> Flow.record_grows b c -> Flow.record_grows a c.
Proof.
  intros (C1 & Q1 & T1 & (m1 & X1) & F1) (C2 & Q2 & T2 & (m2 & X2) & F2).
  split; [congruence |]. split; [congruence |]. split; [congruence |].
  split; [| lia]. exists (m1 +:+ m2). by rewrite X2, X1, string_app_assoc.
Qed.

Lemma answers_grow_refl l : Flow.answers_grow l l.
Proof. split; [done |]. intros k a Hk. exists a. split; [done | apply record_grows_refl]. Qed.

Lemma answers_grow_trans l1 l2 l3 :
  Flow.answers_grow l1 l2 -> Flow.answers_grow l2 l3 -> Flow.answers_grow l1 l3.
Proof.
  intros (L1 & G1) (L2 & G2). split; [lia |]. intros k a Hk.
  destruct (G1 k a Hk) as (b & Hb & Gab). destruct (G2 k b Hb) as (c & Hc & Gbc).
  exists c. split; [done |]. by eapply record_grows_trans.
Qed.

Lemma turn_grows llm now state text :
  Flow.answers_grow (InterviewState.answers state)
    (InterviewState.answers (fst (validate_and_respond llm now state text))).
Proof.
  destruct (get_current_question state) as [[q |] | e] eqn:Hq.
  2,3: rewrite turn_without_question; [apply answers_grow_refl | congruence].
  destruct (_get_or_create_answer state q text now) as [[state1 k] r] eqn:Hm.
  destruct (turn_effect llm now state text q state1 k r Hq Hm)
    as (r' & -> & Hc & Hqt & Hat & Hts & Hfu & _).
  destruct (merge_spec _ _ _ _ _ _ _ Hm) as (_ & _ & _ & Hk & Hcat & _ & Hshape).
  destruct Hshape as [(_ & E1 & -> & Hr) | (a & Fs & E1 & Hr)].
  - rewrite E1. rewrite insert_app_r_alt by lia. rewrite Nat.sub_diag. simpl.
    split; [rewrite length_app; lia |]. intros j a Hj. exists a.
    split; [| apply record_grows_refl].
    rewrite lookup_app_l; [done | by eapply lookup_lt_Some].
  - destruct (find_answer_Some _ _ _ _ Fs) as (Hka & Hca & _).
    rewrite E1, list_insert_insert_eq.
    split; [by rewrite length_insert |]. intros j b Hj.
    destruct (decide (j = k)) as [-> | Hne].
    + exists r'. split; [apply list_lookup_insert_eq; by eapply lookup_lt_Some |].
      rewrite Hka in Hj. injection Hj as <-.
      rewrite Hr in Hqt, Hat, Hts, Hfu. simpl in *.
      split; [congruence |]. split; [congruence |]. split; [congruence |].
      split; [eexists; exact Hat | lia].
    + exists b. split; [by rewrite list_lookup_insert_ne | apply record_grows_refl].
Qed.

Lemma catalog_categories_NoDup : NoDup Flow.catalog_categories.
Proof. apply (bool_decide_unpack _). by vm_compute. Qed.

(** The category of the question at an index in range. *)
Lemma current_category state q :
  0 <= InterviewState.current_question_index state ->
  get_current_question state = Ok (Some q) ->
  Flow.catalog_categories !! Z.to_nat (InterviewState.current_question_index state)
  = Some (InterviewQuestion.category q).
Proof.
  intros Hi Hq. apply get_current_question_Some in Hq as Hr.
  destruct (get_current_question_in_range state) as (E & _); [lia |].
  rewrite E in Hq. injection Hq as Hq.
  unfold Flow.catalog_categories. rewrite list_lookup_fmap, Hq. done.
Qed.

(** After the merge the records are those of the questions up to and
    including the current one. *)
Lemma merge_in_order state q text now state1 k r :
  Session.well_formed state ->
  Flow.in_catalog_order state ->
  get_current_question state = Ok (Some q) ->
  _get_or_create_answer state q text now = (state1, k, r) ->
  Session.categories state1
  = take (S (Z.to_nat (InterviewState.current_question_index state)))
         Flow.catalog_categories
  /\ k = Z.to_nat (InterviewState.current_question_index state).
Proof.
  intros (Hi & _) (n & Hcats & Hn) Hq Hm.
  pose proof (current_category state q (proj1 Hi) Hq) as Hcat.
  set (i := Z.to_nat (InterviewState.current_question_index state)) in *.
  destruct (merge_spec _ _ _ _ _ _ _ Hm) as (_ & _ & _ & Hk & Hc & _ & Hshape).
  unfold Session.categories in *.
  destruct Hn as [-> | (-> & Hlt)].
  - destruct Hshape as [(Fn & E1 & -> & Hr) | (a & Fs & E1 & Hr)].
    + rewrite E1, fmap_app, Hcats.
      change (InterviewAnswer.question_category <$> [r])
        with [InterviewAnswer.question_category r].
      rewrite Hc. split; [symmetry; by apply take_S_r |].
      rewrite <- (length_fmap InterviewAnswer.question_category), Hcats.
      rewrite length_take. apply lookup_lt_Some in Hcat. lia.
    + exfalso. destruct (find_answer_Some _ _ _ _ Fs) as (Hka & Hca & _).
      assert (Hin : (InterviewAnswer.question_category <$> InterviewState.answers state)
                    !! k = Some (InterviewQuestion.category q)).
      { rewrite list_lookup_fmap, Hka. simpl. by rewrite Hca. }
      rewrite Hcats in Hin. apply lookup_take_Some in Hin as (Hin & Hlt).
      pose proof (NoDup_lookup _ _ _ _ catalog_categories_NoDup Hin Hcat). lia.
  - destruct Hshape as [(Fn & E1 & -> & Hr) | (a & Fs & E1 & Hr)].
    + exfalso.
      assert (Hin : (InterviewAnswer.question_category <$> InterviewState.answers state)
                    !! i = Some (InterviewQuestion.category q)).
      { rewrite Hcats. rewrite lookup_take_lt by lia. done. }
      rewrite list_lookup_fmap in Hin.
      destruct (InterviewState.answers state !! i) as [b |] eqn:Hb; [| discriminate].
      injection Hin as Hin.
      apply (proj1 (find_answer_None _ _) Fn b); [| done].
      by eapply list_elem_of_lookup_2.
    + destruct (find_answer_Some _ _ _ _ Fs) as (Hka & Hca & _).
      rewrite E1, (categories_insert _ _ a); [| done | by rewrite Hr].
      split; [done |].
      assert (Hin : (InterviewAnswer.question_category <$> InterviewState.answers state)
                    !! k = Some (InterviewQuestion.category q)).
      { rewrite list_lookup_fmap, Hka. simpl. by rewrite Hca. }
      rewrite Hcats in Hin. apply lookup_take_Some in Hin as (Hin & _).
      by apply (NoDup_lookup _ _ _ _ catalog_categories_NoDup Hin Hcat).
Qed.

Lemma turn_in_order llm now state text :
  Session.well_formed state ->
  Flow.in_catalog_order state ->
  Flow.in_catalog_order (fst (validate_and_respond llm now state text)).
Proof.
  intros Hwf Hord.
  destruct (get_current_question state) as [[q |] | e] eqn:Hq.
  2,3: rewrite turn_without_question; [done | congruence].
  destruct (_get_or_create_answer state q text now) as [[state1 k] r] eqn:Hm.
  destruct (merge_in_order _ _ _ _ _ _ _ Hwf Hord Hq Hm) as (Hcats & _).
  destruct (turn_effect llm now state text q state1 k r Hq Hm)
    as (r' & Ha & Hc & _).
  destruct (merge_spec _ _ _ _ _ _ _ Hm) as (_ & _ & _ & Hk & Hcat & _).
  pose proof (get_current_question_Some _ _ Hq) as Hrange.
  destruct Hwf as ((Hi & _) & _).
  exists (S (Z.to_nat (InterviewState.current_question_index state))).
  split.
  - unfold Session.categories in *. rewrite Ha.
    rewrite (categories_insert _ _ r); [done | done | congruence].
  - destruct (turn_index llm now state text) as [E | E]; rewrite E.
    + right. split; [done |]. rewrite QUESTIONS_length. lia.
    + left. rewrite Z2Nat.inj_add by lia. simpl. lia.
Qed.

Lemma run_in_order state turns :
  Session.well_formed state ->
  Flow.in_catalog_order state ->
  Flow.in_catalog_order (Session.run state turns).
Proof.
  revert state. induction turns as [| t turns IH]; intros state Hwf Hord; [done |].
  simpl. apply IH; [by apply turn_well_formed | by apply turn_in_order].
Qed.

Lemma run_grows state turns :
  Flow.answers_grow (InterviewState.answers state)
    (InterviewState.answers (Session.run state turns)).
Proof.
  revert state. induction turns as [| t turns IH]; intros state;
    [apply answers_grow_refl |].
  simpl. eapply answers_grow_trans; [| apply IH]. apply turn_grows.
Qed.

End Growth.

(** X1. In every state a session reaches, the records are the records of
    the first questions of the catalog, in catalog order: one for each
    question already passed, and possibly one for the current question. *)
Theorem answers_in_catalog_order
    (session_id : string) (started : Z) (turns : list Session.Turn) :
  let state := Session.run (Session.initial session_id started) turns in
  exists n : nat,
    InterviewAnswer.question_category <$> InterviewState.answers state
    = take n (InterviewQuestion.category <$> InterviewerAgent.QUESTIONS)
    /\ length (InterviewState.answers state) = n
    /\ (n <= 8)%nat
    /\ (Z.of_nat n = InterviewState.current_question_index state
        \/ (Z.of_nat n = InterviewState.current_question_index state + 1
            /\ InterviewState.current_question_index state < 8)).
Proof.
  cbv zeta.
  pose proof (run_well_formed _ turns (well_formed_initial session_id started))
    as Hwf.
  assert (Hord : Flow.in_catalog_order
                   (Session.run (Session.initial session_id started) turns)).
  { apply run_in_order; [apply well_formed_initial |].
    exists 0%nat. split; [done | by left]. }
  destruct Hord as (n & Hcats & Hn). destruct Hwf as ((Hi & Hi') & _).
  rewrite QUESTIONS_length in *. exists n.
  assert (Hle : (n <= 8)%nat) by (destruct Hn as [-> | (-> & ?)]; lia).
  split; [exact Hcats |]. split; [| split; [done |]].
  - rewrite <- (length_fmap InterviewAnswer.question_category).
    unfold Session.categories in Hcats. rewrite Hcats, length_take.
    unfold Flow.catalog_categories. rewrite length_fmap, QUESTIONS_length. lia.
  - destruct Hn as [-> | (-> & ?)]; [left | right]; lia.
Qed.

(** X2. Whatever the turns processed from a state, no record is removed or
    moved: the record at each position keeps its category, question text and
    timestamp, its answer text is the old text with text appended, and its
    follow-up count does not go down. *)
Theorem records_only_grow
    (state : InterviewState.t) (turns : list Session.Turn)
    (k : nat) (a : InterviewAnswer.t) :
  InterviewState.answers state !! k = Some a ->
  (length (InterviewState.answers state)
   <= length (InterviewState.answers (Session.run state turns)))%nat
  /\ exists a',
      InterviewState.answers (Session.run state turns) !! k = Some a'
      /\ InterviewAnswer.question_category a' = InterviewAnswer.question_category a
      /\ InterviewAnswer.question_text a' = InterviewAnswer.question_text a
      /\ InterviewAnswer.timestamp a' = InterviewAnswer.timestamp a
      /\ (exists more,
            InterviewAnswer.answer_text a' = InterviewAnswer.answer_text a +:+ more)
      /\ InterviewAnswer.follow_up_count a <= InterviewAnswer.follow_up_count a'.
Proof.
  intros Hk. destruct (run_grows state turns) as (Hlen & Hgrow).
  split; [done |]. destruct (Hgrow k a Hk) as (a' & Hk' & Hg).
  exists a'. split; [done | exact Hg].
Qed.

Lemma records_only_grow_witness :
  let state :=
    Session.run (Session.initial "s" 0) [Sample.says Sample.demanding "A"] in
  exists a',
    InterviewState.answers
      (Session.run state
         [Sample.says Sample.demanding "B"; Sample.says Sample.satisfied "C";
          Sample.says Sample.satisfied "D"]) !! 0%nat = Some a'
    /\ exists more, InterviewAnswer.answer_text a' = "A" +:+ more.
Proof.
  cbv zeta.
  edestruct (records_only_grow
               (Session.run (Session.initial "s" 0) [Sample.says Sample.demanding "A"])
               [Sample.says Sample.demanding "B"; Sample.says Sample.satisfied "C";
                Sample.says Sample.satisfied "D"] 0%nat)
    as (_ & a' & Hk & _ & _ & _ & Hmore & _); [reflexivity |].
  exists a'. split; [exact Hk | exact Hmore].
Defined.

(** ** Completion is final *)

Section Final.
Import InterviewerAgent.

Lemma turn_keeps_completed llm now state text :
  InterviewState.is_completed state = true ->
  InterviewState.is_completed (fst (validate_and_respond llm now state text)) = true.
Proof.
  intros Hdone. turn_paths llm now state text; simpl; try done;
    by destruct (merge_spec _ _ _ _ _ _ _ Hm) as (_ & -> & _).
Qed.

Lemma run_keeps_completed state turns :
  InterviewState.is_completed state = true ->
  InterviewState.is_completed (Session.run state turns) = true.
Proof.
  revert state. induction turns as [| t turns IH]; intros state Hdone; [done |].
  simpl. apply IH. by apply turn_keeps_completed.
Qed.

Lemma run_frozen state turns :
  get_current_question state = Ok None -> Session.run state turns = state.
Proof.
  intros Hq. induction turns as [| t turns IH]; [done |].
  simpl. unfold Session.step, Session.turn.
  rewrite turn_without_question; [done | congruence].
Qed.

End Final.

(** X3. A state marked completed stays marked completed whatever turns
    follow; and once a session has reached completion, further answers
    change nothing at all: the state after any number of turns is the state
    at completion, and each of those turns answers with the complete
    action. *)
Theorem completion_is_final
    (state : InterviewState.t) (more : list Session.Turn) (t : Session.Turn) :
  (InterviewState.is_completed state = true ->
   InterviewState.is_completed (Session.run state more) = true)
  /\ (Session.reachable state ->
      InterviewState.is_completed state = true ->
      Session.run state more = state
      /\ Session.turn (Session.run state more) t
         = (state,
            Ok (InterviewerAgent.BuildResponse InterviewerAgent.complete
                  (PStr "Thank you for completing all the questions!") None))).
Proof.
  split; [apply run_keeps_completed |].
  intros Hreach Hdone.
  apply reachable_well_formed in Hreach as (_ & _ & _ & Hco).
  apply Hco in Hdone. rewrite QUESTIONS_length in Hdone.
  assert (Hq : InterviewerAgent.get_current_question state = Ok None)
    by (apply get_current_question_past_end; lia).
  rewrite (run_frozen state more Hq). split; [done |].
  unfold Session.turn.
  pose proof (validate_and_respond_cases (Session.llm t) (Session.now t) state
                (Session.user_answer t)) as Hc.
  rewrite Hq in Hc. exact Hc.
Qed.

Lemma completion_is_final_witness :
  Session.run Sample.finished
    [Sample.says Sample.demanding "one more"; Sample.says Sample.broken "and more"]
  = Sample.finished
  /\ InterviewState.is_completed
       (Session.run Sample.finished [Sample.says Sample.silent "again"]) = true.
Proof.
  assert (Hdone : InterviewState.is_completed Sample.finished = true)
    by (vm_compute; reflexivity).
  split.
  - apply (completion_is_final Sample.finished
             [Sample.says Sample.demanding "one more";
              Sample.says Sample.broken "and more"]
             (Sample.says Sample.silent "x")); [| exact Hdone].
    exists "s", 0, (replicate 8 (Sample.says Sample.satisfied "yes")). reflexivity.
  - apply (completion_is_final Sample.finished [Sample.says Sample.silent "again"]
             (Sample.says Sample.silent "x")). exact Hdone.
Defined.

(** X4. The response of a turn agrees with the state it returns: the action
    is complete exactly when the returned state has no question left, and
    otherwise the category in the response is the category of the question
    at the returned state's index, whose text is the message when the action
    is next_question. *)
Theorem response_matches_state
    (llm : GeminiService.Oracle) (now : Z) (state : InterviewState.t)
    (text : string) (r : InterviewerAgent.Response) :
  snd (InterviewerAgent.validate_and_respond llm now state text) = Ok r ->
  let state' := fst (InterviewerAgent.validate_and_respond llm now state text) in
  (InterviewerAgent.action r = InterviewerAgent.complete
   <-> InterviewerAgent.get_current_question state' = Ok None)
  /\ (InterviewerAgent.action r = InterviewerAgent.complete ->
      InterviewerAgent.question_category r = None)
  /\ (InterviewerAgent.action r <> InterviewerAgent.complete ->
      exists q',
        InterviewerAgent.get_current_question state' = Ok (Some q')
        /\ InterviewerAgent.question_category r
           = Some (InterviewQuestion.category q')
        /\ (InterviewerAgent.action r = InterviewerAgent.next_question ->
            InterviewerAgent.message r
            = PStr (InterviewQuestion.question_text q'))).
Proof.
  cbv zeta.
  turn_paths llm now state text; simpl; intros Hr; try discriminate Hr;
    injection Hr as <-; simpl.
  - rewrite Hq'. split; [split; discriminate |]. split; [discriminate |].
    intros _. exists q'. done.
  - assert (Hnone : InterviewerAgent.get_current_question
                      (InterviewState.set_is_completed
                         (InterviewState.set_current_question_index
                            (InterviewerAgent.store state1 k
                               (InterviewAnswer.set_is_complete r0
                                  (default (PBool true) (d !! "is_complete"))))
                            (InterviewState.current_question_index state + 1))
                         true) = Ok None).
    { apply get_current_question_past_end. simpl. lia. }
    rewrite Hnone. split; [done |]. split; [done |]. intros Hne. done.
  - destruct (merge_spec _ _ _ _ _ _ _ Hm) as (I1 & _).
    assert (Hsame : InterviewerAgent.get_current_question
                      (InterviewerAgent.store
                         (InterviewerAgent.store state1 k
                            (InterviewAnswer.set_is_complete r0
                               (default (PBool true) (d !! "is_complete"))))
                         k
                         (InterviewAnswer.set_follow_up_count
                            (InterviewAnswer.set_is_complete r0
                               (default (PBool true) (d !! "is_complete")))
                            (InterviewAnswer.follow_up_count r0 + 1)))
                    = Ok (Some q)).
    { rewrite <- Hq. apply get_current_question_index. simpl. done. }
    rewrite Hsame. split; [split; discriminate |]. split; [discriminate |].
    intros _. exists q. split; [done |]. split; [done | discriminate].
  - rewrite Hq. split; [done |]. split; [done |]. intros Hne. done.
Qed.

Lemma response_matches_state_witness :
  let next :=
    InterviewerAgent.BuildResponse InterviewerAgent.next_question
      (PStr "What motivated you to pursue a career in this field?")
      (Some MOTIVATION) in
  snd (InterviewerAgent.validate_and_respond Sample.satisfied 10
         (Session.initial "s" 0) "I am a student") = Ok next
  /\ exists q',
      InterviewerAgent.get_current_question
        (fst (InterviewerAgent.validate_and_respond Sample.satisfied 10
                (Session.initial "s" 0) "I am a student")) = Ok (Some q')
      /\ InterviewerAgent.question_category next
         = Some (InterviewQuestion.category q').
Proof.
  cbv zeta. split; [reflexivity |].
  destruct (response_matches_state Sample.satisfied 10 (Session.initial "s" 0)
              "I am a student"
              (InterviewerAgent.BuildResponse InterviewerAgent.next_question
                 (PStr "What motivated you to pursue a career in this field?")
                 (Some MOTIVATION))
              eq_refl) as (_ & _ & H).
  destruct H as (q' & Hq' & Hcat & _); [discriminate |].
  exists q'. split; [exact Hq' | exact Hcat].
Defined.

(** ** Sessions run straight through, and always end *)

Section Progressing.
Import InterviewerAgent.

(** A record of a category outside the first [n] of the catalog is not among
    records whose categories are the first [n]. *)
Lemma find_answer_beyond (l : list InterviewAnswer.t) (n : nat) c :
  InterviewAnswer.question_category <$> l = take n Flow.catalog_categories ->
  Flow.catalog_categories !! n = Some c ->
  find_answer c l = None.
Proof.
  intros Hcats Hc. apply find_answer_None. intros a Ha Hcat.
  apply list_elem_of_lookup in Ha as (j & Hj).
  assert (Hin : (InterviewAnswer.question_category <$> l) !! j = Some c).
  { rewrite list_lookup_fmap, Hj. simpl. by rewrite Hcat. }
  rewrite Hcats in Hin. apply lookup_take_Some in Hin as (Hin & Hlt).
  pose proof (NoDup_lookup _ _ _ _ catalog_categories_NoDup Hin Hc). lia.
Qed.

(** The first answer to a question, found complete. *)
Lemma turn_first_complete llm now state text q :
  get_current_question state = Ok (Some q) ->
  find_answer (InterviewQuestion.category q) (InterviewState.answers state) = None ->
  Flow.finds_complete llm ->
  exists v,
    truthy v = true
    /\ InterviewState.answers (fst (validate_and_respond llm now state text))
       = InterviewState.answers state
         ++ [InterviewAnswer.Build (InterviewQuestion.category q)
               (InterviewQuestion.question_text q) text 0 v now]
    /\ InterviewState.current_question_index
         (fst (validate_and_respond llm now state text))
       = InterviewState.current_question_index state + 1
    /\ InterviewState.is_completed (fst (validate_and_respond llm now state text))
       = (if InterviewState.current_question_index state + 1 <? 8
          then InterviewState.is_completed state else true).
Proof.
  intros Hq Hfind Hfc.
  pose proof (validate_and_respond_cases llm now state text) as Hc.
  rewrite Hq in Hc. unfold _get_or_create_answer in Hc. rewrite Hfind in Hc.
  simpl InterviewAnswer.answer_text in Hc.
  destruct (Hfc (InterviewQuestion.question_text q) text
              (InterviewQuestion.expected_coverage q)) as (d & Hd & Ht).
  rewrite Hd in Hc. cbv zeta in Hc. rewrite Ht in Hc. simpl orb in Hc.
  exists (default (PBool true) (d !! "is_complete")). split; [done |].
  assert (Hins : forall x : InterviewAnswer.t,
            <[length (InterviewState.answers state) := x]>
              (InterviewState.answers state
                 ++ [InterviewAnswer.Build (InterviewQuestion.category q)
                       (InterviewQuestion.question_text q) text 0 (PBool false) now])
            = InterviewState.answers state ++ [x]).
  { intros x. rewrite insert_app_r_alt by lia. by rewrite Nat.sub_diag. }
  destruct (InterviewState.current_question_index state + 1 <? 8).
  - destruct Hc as (q' & _ & ->). simpl. by rewrite Hins.
  - destruct Hc as (_ & ->). simpl. by rewrite Hins.
Qed.

Lemma remaining_bounds state :
  Session.well_formed state ->
  (InterviewState.current_question_index state = 8 -> Flow.remaining state = 0)
  /\ (InterviewState.current_question_index state < 8 ->
      1 <= Flow.remaining state
      <= 3 * (8 - InterviewState.current_question_index state)).
Proof.
  intros ((Hi & Hi') & Hfu & _). rewrite QUESTIONS_length in Hi'.
  unfold Flow.remaining, Flow.current_follow_ups, max_follow_ups.
  rewrite QUESTIONS_length. split.
  - intros E. rewrite get_current_question_past_end by lia. lia.
  - intros Hlt. destruct (get_current_question state) as [[q |] | e]; [| lia | lia].
    destruct (find_answer (InterviewQuestion.category q) (InterviewState.answers state))
      as [[k a] |] eqn:F; [| lia].
    destruct (find_answer_Some _ _ _ _ F) as (Hk & _).
    rewrite Forall_lookup in Hfu. specialize (Hfu k a Hk).
    unfold max_follow_ups in Hfu. lia.
Qed.

(** A turn that returns on a question brings the session at least one step
    closer to its end. *)
Lemma turn_decreases llm now state text :
  Session.well_formed state ->
  Flow.in_catalog_order state ->
  InterviewState.current_question_index state < 8 ->
  is_ok (snd (validate_and_respond llm now state text)) = true ->
  Flow.remaining (fst (validate_and_respond llm now state text))
  <= Flow.remaining state - 1.
Proof.
  intros Hwf Hord Hlt Hok.
  pose proof Hwf as ((Hi & _) & _).
  destruct (get_current_question_in_range state) as (Hq & q & Hsome); [lia |].
  rewrite Hsome in Hq.
  destruct (_get_or_create_answer state q text now) as [[state1 k] r] eqn:Hm.
  destruct (merge_in_order _ _ _ _ _ _ _ Hwf Hord Hq Hm) as (Hcats & _).
  destruct (well_formed_merge _ _ _ _ _ _ _ Hwf Hm) as (_ & Hfu).
  destruct (merge_spec _ _ _ _ _ _ _ Hm) as (_ & _ & _ & Hk & Hcat & Hfind & Hshape).
  destruct (turn_effect llm now state text q state1 k r Hq Hm)
    as (r' & Ha & Hc' & _ & _ & _ & _ & Hadv & Hstay).
  assert (Hcur : Flow.current_follow_ups state = InterviewAnswer.follow_up_count r).
  { unfold Flow.current_follow_ups. rewrite Hq.
    destruct Hshape as [(-> & _ & _ & ->) | (a & -> & _ & ->)]; done. }
  assert (Hcats' : InterviewAnswer.question_category
                     <$> InterviewState.answers
                           (fst (validate_and_respond llm now state text))
                   = take (S (Z.to_nat (InterviewState.current_question_index state)))
                          Flow.catalog_categories).
  { rewrite Ha, (categories_insert _ _ r); [done | done | congruence]. }
  unfold Flow.remaining. rewrite Hcur, QUESTIONS_length.
  unfold max_follow_ups in *.
  destruct (turn_index llm now state text) as [E | E]; cbv zeta in E.
  - destruct (Hstay E Hok) as (Hplus & _).
    assert (Hcur' : Flow.current_follow_ups
                      (fst (validate_and_respond llm now state text))
                    = InterviewAnswer.follow_up_count r').
    { unfold Flow.current_follow_ups.
      rewrite (get_current_question_index _ state E), Hq, Ha.
      rewrite (find_answer_insert _ _ _ r r' Hfind Hc'). done. }
    rewrite Hcur', E. lia.
  - assert (Hcur' : Flow.current_follow_ups
                      (fst (validate_and_respond llm now state text)) = 0).
    { unfold Flow.current_follow_ups.
      destruct (get_current_question
                  (fst (validate_and_respond llm now state text)))
        as [[q' |] | e] eqn:Hq'; [| done | done].
      pose proof (get_current_question_Some _ _ Hq') as Hrange.
      rewrite (find_answer_beyond _
                 (S (Z.to_nat (InterviewState.current_question_index state)))
                 (InterviewQuestion.category q')); [done | done |].
      replace (S (Z.to_nat (InterviewState.current_question_index state)))
        with (Z.to_nat (InterviewState.current_question_index
                          (fst (validate_and_respond llm now state text))))
        by (rewrite E; lia).
      apply current_category; [lia | done]. }
    rewrite Hcur', E. lia.
Qed.

(** With an oracle that replies with an object, a turn on a state whose lookup
    does not raise returns. *)
Lemma replies_object_returns llm now state text :
  Flow.replies_object llm ->
  0 <= InterviewState.current_question_index state ->
  is_ok (snd (validate_and_respond llm now state text)) = true.
Proof.
  intros Hobj Hi.
  pose proof (validate_and_respond_cases llm now state text) as Hc.
  destruct (get_current_question state) as [[q |] | e] eqn:Hq.
  - destruct (_get_or_create_answer state q text now) as [[state1 k] r].
    destruct (Hobj (InterviewQuestion.question_text q) (InterviewAnswer.answer_text r)
                (InterviewQuestion.expected_coverage q)) as (d & Hd).
    rewrite Hd in Hc. cbv zeta in Hc.
    destruct (truthy _ || _).
    + destruct (_ <? 8); [destruct Hc as (q' & _ & ->) | destruct Hc as (_ & ->)];
        done.
    + by rewrite Hc.
  - by rewrite Hc.
  - exfalso.
    destruct (Z.lt_ge_cases (InterviewState.current_question_index state) 8).
    + destruct (get_current_question_in_range state) as (E & q & Hsome); [lia |].
      rewrite E, Hsome in Hq. discriminate.
    + rewrite get_current_question_past_end in Hq by lia. discriminate.
Qed.

Lemma run_decreases state turns :
  Session.well_formed state ->
  Flow.in_catalog_order state ->
  Forall (fun t => Flow.replies_object (Session.llm t)) turns ->
  Flow.remaining (Session.run state turns)
  <= Z.max 0 (Flow.remaining state - Z.of_nat (length turns)).
Proof.
  revert state. induction turns as [| t turns IH]; intros state Hwf Hord Hall.
  - simpl. lia.
  - apply Forall_cons in Hall as (Hobj & Hall). simpl.
    pose proof Hwf as ((Hi & Hi') & _). rewrite QUESTIONS_length in Hi'.
    destruct (Z.eq_dec (InterviewState.current_question_index state) 8) as [E | NE].
    + unfold Session.step, Session.turn.
      rewrite turn_without_question.
      2: { rewrite get_current_question_past_end by lia. congruence. }
      etrans; [apply IH; done |].
      rewrite (proj1 (remaining_bounds state Hwf) E). lia.
    + assert (Hlt : InterviewState.current_question_index state < 8) by lia.
      pose proof (turn_decreases (Session.llm t) (Session.now t) state
                    (Session.user_answer t) Hwf Hord Hlt
                    (replies_object_returns _ _ _ _ Hobj Hi)) as Hdec.
      etrans.
      { apply IH; [by apply turn_well_formed | by apply turn_in_order | done]. }
      unfold Session.step, Session.turn. rewrite Nat2Z.inj_succ. lia.
Qed.

End Progressing.

(** X5. When every answer is found complete, a session of at most 8 turns
    runs straight through: after its turns the index is their number, there
    is one record per turn, for the questions of the catalog in order, each
    holding that turn's text and clock, no follow-up and a true verdict; and
    the session is marked completed exactly when there were 8 turns. *)
Theorem straight_through
    (session_id : string) (started : Z) (turns : list Session.Turn) :
  (length turns <= 8)%nat ->
  Forall (fun t => Flow.finds_complete (Session.llm t)) turns ->
  let state := Session.run (Session.initial session_id started) turns in
  InterviewState.current_question_index state = Z.of_nat (length turns)
  /\ InterviewAnswer.question_category <$> InterviewState.answers state
     = take (length turns)
         (InterviewQuestion.category <$> InterviewerAgent.QUESTIONS)
  /\ InterviewAnswer.question_text <$> InterviewState.answers state
     = take (length turns)
         (InterviewQuestion.question_text <$> InterviewerAgent.QUESTIONS)
  /\ InterviewAnswer.answer_text <$> InterviewState.answers state
     = Session.user_answer <$> turns
  /\ InterviewAnswer.timestamp <$> InterviewState.answers state
     = Session.now <$> turns
  /\ Forall (fun a => InterviewAnswer.follow_up_count a = 0
                      /\ truthy (InterviewAnswer.is_complete a) = true)
            (InterviewState.answers state)
  /\ (InterviewState.is_completed state = true <-> length turns = 8%nat).
Proof.
  cbv zeta. induction turns as [| t turns IH] using rev_ind; intros Hlen Hall.
  - simpl. repeat split; done.
  - rewrite length_app in Hlen. simpl in Hlen.
    apply Forall_app in Hall as (Hall & Ht). rewrite Forall_singleton in Ht.
    destruct (IH ltac:(lia) Hall) as (Hi & Hc & Hq & Ha & Hn & Hf & Hd).
    unfold Session.run in *. rewrite foldl_app. simpl.
    set (state := foldl Session.step (Session.initial session_id started) turns) in *.
    assert (Hrange : 0 <= InterviewState.current_question_index state < 8) by lia.
    destruct (get_current_question_in_range state Hrange) as (Hgq & q & Hsome).
    rewrite Hi, Nat2Z.id in Hgq, Hsome. rewrite Hsome in Hgq.
    assert (Hnone : InterviewerAgent.find_answer (InterviewQuestion.category q)
                      (InterviewState.answers state) = None).
    { apply (find_answer_beyond _ (length turns)); [exact Hc |].
      unfold Flow.catalog_categories. by rewrite list_lookup_fmap, Hsome. }
    destruct (turn_first_complete (Session.llm t) (Session.now t) state
                (Session.user_answer t) q Hgq Hnone Ht)
      as (v & Hv & Hans & Hidx & Hdone).
    unfold Session.step, Session.turn. rewrite Hans, Hidx, Hdone.
    rewrite !fmap_app, length_app. simpl.
    rewrite Hc, Hq, Ha, Hn.
    replace (length turns + 1)%nat with (S (length turns)) by lia.
    split; [lia |].
    split; [symmetry; apply take_S_r; by rewrite list_lookup_fmap, Hsome |].
    split; [symmetry; apply take_S_r; by rewrite list_lookup_fmap, Hsome |].
    split; [done |]. split; [done |].
    split; [apply Forall_app; split; [done | by apply Forall_singleton] |].
    rewrite Hi. destruct (Z.ltb_spec (Z.of_nat (length turns) + 1) 8).
    + rewrite Hd. split; lia.
    + split; [lia | done].
Qed.

Lemma straight_through_witness :
  let turns :=
    [ Sample.says Sample.satisfied "I am Asha";
      Sample.says Sample.silent "I like machines";
      Sample.says Sample.broken "Two internships" ] in
  InterviewState.current_question_index
    (Session.run (Session.initial "s" 0) turns) = 3
  /\ InterviewAnswer.answer_text
       <$> InterviewState.answers (Session.run (Session.initial "s" 0) turns)
     = ["I am Asha"; "I like machines"; "Two internships"].
Proof.
  cbv zeta.
  edestruct (straight_through "s" 0
               [ Sample.says Sample.satisfied "I am Asha";
                 Sample.says Sample.silent "I like machines";
                 Sample.says Sample.broken "Two internships" ])
    as (Hi & _ & _ & Ha & _).
  - simpl. lia.
  - repeat constructor; intros question answer coverage; eexists;
      (split; [reflexivity | reflexivity]).
  - split; [exact Hi | exact Ha].
Defined.

(** X6. A session always ends: as long as the oracle replies with an object
    or fails, every turn on a question lowers a bound on the turns still
    possible, which starts at 24 (three per question), so after 24 turns
    the index is 8 and the session is marked completed. *)
Theorem session_ends_within_24_turns
    (session_id : string) (started : Z) (turns : list Session.Turn) :
  Forall (fun t => Flow.replies_object (Session.llm t)) turns ->
  let state := Session.run (Session.initial session_id started) turns in
  Flow.remaining (Session.initial session_id started) = 24
  /\ Flow.remaining state <= Z.max 0 (24 - Z.of_nat (length turns))
  /\ (Flow.remaining state = 0
      <-> InterviewState.current_question_index state = 8)
  /\ ((24 <= length turns)%nat ->
      InterviewState.current_question_index state = 8
      /\ InterviewState.is_completed state = true).
Proof.
  intros Hall. cbv zeta.
  assert (H24 : Flow.remaining (Session.initial session_id started) = 24)
    by reflexivity.
  pose proof (run_well_formed _ turns (well_formed_initial session_id started))
    as Hwf.
  assert (Hord : Flow.in_catalog_order (Session.initial session_id started)).
  { exists 0%nat. split; [done | by left]. }
  pose proof (run_decreases _ turns (well_formed_initial session_id started)
                Hord Hall) as Hdec.
  rewrite H24 in Hdec.
  destruct (remaining_bounds _ Hwf) as (H8 & Hlt).
  pose proof Hwf as ((Hi & Hi') & _ & _ & Hco). rewrite QUESTIONS_length in *.
  assert (Hzero : Flow.remaining
                    (Session.run (Session.initial session_id started) turns) = 0
                  <-> InterviewState.current_question_index
                        (Session.run (Session.initial session_id started) turns) = 8).
  { split; [| done]. intros Hz.
    destruct (Z.eq_dec (InterviewState.current_question_index
                          (Session.run (Session.initial session_id started) turns)) 8)
      as [E | NE]; [done |].
    assert (Hl : InterviewState.current_question_index
                   (Session.run (Session.initial session_id started) turns) < 8)
      by lia.
    specialize (Hlt Hl). lia. }
  split; [done |]. split; [done |]. split; [done |].
  intros Hlong.
  assert (Hz : Flow.remaining
                 (Session.run (Session.initial session_id started) turns) = 0).
  { destruct (Z.eq_dec (InterviewState.current_question_index
                          (Session.run (Session.initial session_id started) turns)) 8)
      as [E | NE]; [by apply H8 |].
    assert (Hl : InterviewState.current_question_index
                   (Session.run (Session.initial session_id started) turns) < 8)
      by lia.
    specialize (Hlt Hl). lia. }
  apply Hzero in Hz. split; [done |]. by apply Hco.
Qed.

Lemma session_ends_within_24_turns_witness :
  InterviewState.is_completed
    (Session.run (Session.initial "s" 0)
       (replicate 24 (Sample.says Sample.demanding "and then"))) = true.
Proof.
  apply (session_ends_within_24_turns "s" 0
           (replicate 24 (Sample.says Sample.demanding "and then"))).
  - apply Forall_replicate. intros question answer coverage.
    eexists. reflexivity.
  - simpl. lia.
Defined.

(** ** The websocket loop, message by message *)

Section Messages.

Lemma loop_body_rejected (session_data : SessionData.t) (m : Main.Incoming) :
  Handler.accepted m = false ->
  Main.loop_body session_data m
  = (session_data,
     [ Main.Sent ERROR
         (if Main.all_space (Main.content m)
          then "I didn't catch that. Could you please repeat your answer?"
          else "Your answer is too long. Please keep it under 2000 characters.") ],
     Main.Running).
Proof.
  unfold Handler.accepted, Main.loop_body. intros Hrej.
  destruct (Main.all_space (Main.content m)); [done |]. simpl in Hrej.
  apply Nat.leb_gt in Hrej.
  destruct (Nat.ltb_spec Main.MAX_ANSWER_LENGTH (Text.len (Main.content m)));
    [done | lia].
Qed.

(** An accepted message reaches the agent; what the loop does next depends
    on the agent's result only. *)
Lemma loop_body_accepted (session_data : SessionData.t) (m : Main.Incoming) :
  Handler.accepted m = true ->
  Main.loop_body session_data m
  = let '(interview_state, result) :=
      InterviewerAgent.validate_and_respond (Main.oracle m) (Main.clock m)
        (SessionData.state session_data) (Main.content m) in
    let saved := Main.set_state session_data interview_state in
    match result with
    | Raise e => (saved, [ Main.SentError e ], Main.Crashed e)
    | Ok r =>
        match InterviewerAgent.action r with
        | InterviewerAgent.complete =>
            let feedback :=
              FeedbackService.generate_feedback (Main.feedback_reply m)
                (Main.clock m) (SessionData.session_id session_data)
                (InterviewState.answers interview_state) in
            let final :=
              Main.set_feedback
                (Main.set_state saved
                   (InterviewState.set_completed_at
                      (InterviewState.set_is_completed interview_state true)
                      (Some (Main.clock m))))
                feedback in
            (final,
             [ Main.Saved saved;
               Main.Sent STATUS "Generating your personalized feedback...";
               Main.FeedbackRequested (SessionData.session_id session_data)
                 (InterviewState.answers interview_state);
               Main.Saved final;
               Main.SentFeedback feedback;
               Main.Sent SESSION_END "Interview completed successfully!" ],
             Main.Finished)
        | _ =>
            match Main.message_content (InterviewerAgent.message r) with
            | Raise e =>
                (saved, [ Main.Saved saved; Main.SentError e ], Main.Crashed e)
            | Ok text =>
                (saved, [ Main.Saved saved; Main.Sent QUESTION text ], Main.Running)
            end
        end
    end.
Proof.
  unfold Handler.accepted, Main.loop_body. intros Hacc.
  apply andb_true_iff in Hacc as (Hns & Hlen).
  apply negb_true_iff in Hns. apply Nat.leb_le in Hlen. rewrite Hns.
  destruct (Nat.ltb_spec Main.MAX_ANSWER_LENGTH (Text.len (Main.content m)));
    [lia |].
  destruct (InterviewerAgent.validate_and_respond _ _ _ _) as [state' [r | e]];
    [| done].
  destruct (InterviewerAgent.action r); done.
Qed.

Lemma conversation_cons (session_data : SessionData.t) m inbox :
  Main.conversation session_data (m :: inbox)
  = let '(next, events, status) := Main.loop_body session_data m in
    match status with
    | Main.Running =>
        let '(final, later, status') := Main.conversation next inbox in
        (final, events ++ later, status')
    | _ => (next, events, status)
    end.
Proof. reflexivity. Qed.

End Messages.

Section Refusals.

Lemma loop_body_not_json (session_data : SessionData.t) a :
  Websocket.frame a = Websocket.NotJson ->
  Websocket.loop_body session_data a
  = (session_data,
     if Websocket.delivers (Websocket.link a) 0
     then [ Main.SentError JSONDecodeError ] else [],
     Websocket.Crashed JSONDecodeError).
Proof. unfold Websocket.loop_body. by intros ->. Qed.

Lemma loop_body_not_text (session_data : SessionData.t) a client_message :
  Websocket.frame a = Websocket.Json client_message ->
  truthy (Websocket.answer_text client_message) = true ->
  (forall text, Websocket.answer_text client_message <> PStr text) ->
  Websocket.loop_body session_data a
  = (session_data,
     if Websocket.delivers (Websocket.link a) 0
     then [ Main.SentError AttributeError ] else [],
     Websocket.Crashed AttributeError).
Proof.
  unfold Websocket.loop_body. intros -> Htruthy Hother. cbv zeta.
  rewrite Htruthy. cbn [negb].
  destruct (Websocket.answer_text client_message); try done.
  by destruct (Hother s).
Qed.

(** The refusal of a frame [{"content": s, ...}] in terms of the code points
    of [s]. *)
Lemma refusal_of_code_points (l : list N) (d : gmap string value) :
  Forall (fun c => (c < 1114112)%N) l ->
  Frames.refusal
    (Websocket.Json (PDict (<["content" := PStr (Text.encode l)]> d)))
  = if forallb Text.isspace l
    then Some "I didn't catch that. Could you please repeat your answer?"
    else if (2000 <? length l)%nat
         then Some "Your answer is too long. Please keep it under 2000 characters."
         else None.
Proof.
  intros Hl. unfold Frames.refusal, Websocket.answer_text.
  rewrite lookup_insert_eq. simpl default. cbv iota.
  by rewrite len_encode, code_points_encode.
Qed.

Lemma conversation_cons_ws (session_data : SessionData.t) a inbox :
  Websocket.conversation session_data (a :: inbox)
  = let '(next, events, status) := Websocket.loop_body session_data a in
    match status with
    | Websocket.Running =>
        let '(final, later, status') := Websocket.conversation next inbox in
        (final, events ++ later, status')
    | _ => (next, events, status)
    end.
Proof. reflexivity. Qed.

Lemma loop_body_skipped (session_data : SessionData.t) a :
  Frames.skipped a = true ->
  exists notice,
    Websocket.loop_body session_data a
    = (session_data, [ Main.Sent ERROR notice ], Websocket.Running).
Proof.
  unfold Frames.skipped. intros H. apply andb_true_iff in H as (Hr & Hd).
  apply bool_decide_eq_true in Hr as [notice Hr].
  exists notice. by rewrite (loop_body_refused _ _ _ Hr), Hd.
Qed.

End Refusals.

(** X7. A frame whose answer text is empty or another falsy value, only
    white space, or longer than 2000 characters is answered with an error
    notice and changes nothing; when the notice cannot be sent the handler
    ends. A conversation ends in the same session data and the same status,
    saves the same snapshots and requests the feedback as often, as the
    conversation without the refused frames whose notice was delivered.
    A frame that is not JSON, or whose answer text is a value other than a
    string that is not falsy, ends the handler with an exception, the
    session data unchanged. White space and length are those of the
    characters of the text, not of its bytes. *)
Theorem refused_frames_change_nothing
    (session_data : SessionData.t) (inbox : list Websocket.Arrival) :
  let '(final, events, status) := Websocket.conversation session_data inbox in
  let '(final', events', status') :=
    Websocket.conversation session_data
      (filter (fun a => Frames.skipped a = false) inbox) in
  final = final' /\ status = status'
  /\ Handler.snapshots events = Handler.snapshots events'
  /\ Main.feedback_calls events = Main.feedback_calls events'
  /\ (forall a notice,
        Frames.refusal (Websocket.frame a) = Some notice ->
        Websocket.loop_body session_data a
        = if Websocket.delivers (Websocket.link a) 0
          then (session_data, [ Main.Sent ERROR notice ], Websocket.Running)
          else (session_data, [], Websocket.Disconnected))
  /\ (forall a,
        Websocket.frame a = Websocket.NotJson ->
        Websocket.loop_body session_data a
        = (session_data,
           if Websocket.delivers (Websocket.link a) 0
           then [ Main.SentError JSONDecodeError ] else [],
           Websocket.Crashed JSONDecodeError))
  /\ (forall a client_message,
        Websocket.frame a = Websocket.Json client_message ->
        truthy (Websocket.answer_text client_message) = true ->
        (forall text, Websocket.answer_text client_message <> PStr text) ->
        Websocket.loop_body session_data a
        = (session_data,
           if Websocket.delivers (Websocket.link a) 0
           then [ Main.SentError AttributeError ] else [],
           Websocket.Crashed AttributeError))
  /\ (forall (l : list N) (d : gmap string value),
        Forall (fun c => (c < 1114112)%N) l ->
        Frames.refusal
          (Websocket.Json (PDict (<["content" := PStr (Text.encode l)]> d)))
        = if forallb Text.isspace l
          then Some "I didn't catch that. Could you please repeat your answer?"
          else if (2000 <? length l)%nat
               then Some "Your answer is too long. Please keep it under 2000 characters."
               else None).
Proof.
  assert (Hrest :
            forall session_data : SessionData.t,
              (forall a notice,
                 Frames.refusal (Websocket.frame a) = Some notice ->
                 Websocket.loop_body session_data a
                 = if Websocket.delivers (Websocket.link a) 0
                   then (session_data, [ Main.Sent ERROR notice ],
                         Websocket.Running)
                   else (session_data, [], Websocket.Disconnected))
              /\ (forall a,
                    Websocket.frame a = Websocket.NotJson ->
                    Websocket.loop_body session_data a
                    = (session_data,
                       if Websocket.delivers (Websocket.link a) 0
                       then [ Main.SentError JSONDecodeError ] else [],
                       Websocket.Crashed JSONDecodeError))
              /\ (forall a client_message,
                    Websocket.frame a = Websocket.Json client_message ->
                    truthy (Websocket.answer_text client_message) = true ->
                    (forall text,
                       Websocket.answer_text client_message <> PStr text) ->
                    Websocket.loop_body session_data a
                    = (session_data,
                       if Websocket.delivers (Websocket.link a) 0
                       then [ Main.SentError AttributeError ] else [],
                       Websocket.Crashed AttributeError))
              /\ (forall (l : list N) (d : gmap string value),
                    Forall (fun c => (c < 1114112)%N) l ->
                    Frames.refusal
                      (Websocket.Json
                         (PDict (<["content" := PStr (Text.encode l)]> d)))
                    = if forallb Text.isspace l
                      then Some "I didn't catch that. Could you please repeat your answer?"
                      else if (2000 <? length l)%nat
                           then Some "Your answer is too long. Please keep it under 2000 characters."
                           else None)).
  { intros sd. split; [apply loop_body_refused |].
    split; [apply loop_body_not_json |].
    split; [apply loop_body_not_text | apply refusal_of_code_points]. }
  revert session_data. induction inbox as [| a inbox IH]; intros session_data.
  - simpl. split; [done |]. split; [done |]. split; [done |]. split; [done |].
    apply Hrest.
  - destruct (Frames.skipped a) eqn:Hskip.
    + rewrite filter_cons_False by (rewrite Hskip; discriminate).
      rewrite conversation_cons_ws.
      destruct (loop_body_skipped session_data a Hskip) as (notice & ->).
      specialize (IH session_data).
      destruct (Websocket.conversation session_data inbox) as [[final later] st].
      destruct (Websocket.conversation session_data (filter _ inbox))
        as [[final' later'] st'].
      destruct IH as (-> & -> & Hs & Hf & _).
      split; [done |]. split; [done |]. split; [done |]. split; [done |].
      apply Hrest.
    + rewrite filter_cons_True by done. rewrite !conversation_cons_ws.
      destruct (Websocket.loop_body session_data a) as [[next events] status].
      destruct status;
        try (split; [done |]; split; [done |]; split; [done |];
             split; [done |]; apply Hrest).
      specialize (IH next).
      destruct (Websocket.conversation next inbox) as [[final later] st].
      destruct (Websocket.conversation next (filter _ inbox))
        as [[final' later'] st'].
      destruct IH as (-> & -> & Hs & Hf & _).
      unfold Handler.snapshots in *.
      rewrite !feedback_calls_app, !omap_app, Hs, Hf.
      split; [done |]. split; [done |]. split; [done |]. split; [done |].
      apply Hrest.
Qed.

Lemma refused_frames_change_nothing_witness :
  Websocket.loop_body (SessionData.Build "s" (Session.initial "s" 0) None)
    (Sample.arrives Sample.satisfied " 　 " Websocket.Up)
  = (SessionData.Build "s" (Session.initial "s" 0) None,
     [ Main.Sent ERROR "I didn't catch that. Could you please repeat your answer?" ],
     Websocket.Running).
Proof.
  pose proof (refused_frames_change_nothing
                (SessionData.Build "s" (Session.initial "s" 0) None) []) as H.
  simpl in H. destruct H as (_ & _ & _ & _ & H & _).
  apply (H (Sample.arrives Sample.satisfied " 　 " Websocket.Up)).
  reflexivity.
Defined.

(** X8. The loop processes the messages one after the other and stops for
    good: a conversation over two batches of messages is the conversation
    over the first batch followed, when that left the loop running, by the
    conversation over the second from where the first ended; once the first
    has finished or failed, the second batch is never looked at. *)
Theorem conversation_app
    (session_data : SessionData.t) (first second : list Main.Incoming) :
  let '(middle, events, status) := Main.conversation session_data first in
  match status with
  | Main.Running =>
      let '(final, later, status') := Main.conversation middle second in
      Main.conversation session_data (first ++ second)
      = (final, events ++ later, status')
  | _ =>
      Main.conversation session_data (first ++ second)
      = (middle, events, status)
  end.
Proof.
  revert session_data. induction first as [| m first IH]; intros session_data.
  - simpl. by destruct (Main.conversation session_data second) as [[final later] st].
  - rewrite <- app_comm_cons, !conversation_cons.
    destruct (Main.loop_body session_data m) as [[next events] status].
    destruct status; [| done | done].
    specialize (IH next).
    destruct (Main.conversation next first) as [[middle later] st].
    destruct st.
    + destruct (Main.conversation middle second) as [[final last] st'].
      rewrite IH. by rewrite app_assoc.
    + by rewrite IH.
    + by rewrite IH.
Qed.

(** ** Conversations with a well-behaved oracle *)

Section WellBehaved.

Lemma well_behaved_replies_object (m : Main.Incoming) :
  Handler.well_behaved m -> Flow.replies_object (Main.oracle m).
Proof.
  intros (_ & H) question answer coverage.
  destruct (H question answer coverage) as (d & Hd & _). by exists d.
Qed.

(** With such an oracle every message of a response is a string. *)
Lemma well_behaved_message (m : Main.Incoming) state r :
  Handler.well_behaved m ->
  snd (InterviewerAgent.validate_and_respond (Main.oracle m) (Main.clock m)
         state (Main.content m)) = Ok r ->
  exists s, InterviewerAgent.message r = PStr s.
Proof.
  intros (_ & H).
  turn_paths (Main.oracle m) (Main.clock m) state (Main.content m);
    simpl; intros Hr; try discriminate Hr; injection Hr as <-; simpl; eauto.
  destruct (H (InterviewQuestion.question_text q) (InterviewAnswer.answer_text r0)
              (InterviewQuestion.expected_coverage q)) as (d' & Hd' & Hf).
  rewrite V in Hd'. injection Hd' as <-.
  destruct Hf as [-> | (s & ->)]; simpl; eauto.
Qed.

Lemma loop_body_well_behaved (session_data : SessionData.t) (m : Main.Incoming) :
  Session.well_formed (SessionData.state session_data) ->
  Flow.in_catalog_order (SessionData.state session_data) ->
  InterviewState.is_completed (SessionData.state session_data) = false ->
  Handler.well_behaved m ->
  let '(next, events, status) := Main.loop_body session_data m in
  status = Main.Finished
  \/ (status = Main.Running
      /\ Session.well_formed (SessionData.state next)
      /\ Flow.in_catalog_order (SessionData.state next)
      /\ InterviewState.is_completed (SessionData.state next) = false
      /\ Flow.remaining (SessionData.state next)
         <= Flow.remaining (SessionData.state session_data) - 1).
Proof.
  intros Hwf Hord Hopen Hwb.
  pose proof (loop_body_spec session_data m Hwf Hopen) as Hspec.
  assert (Hlt : InterviewState.current_question_index
                  (SessionData.state session_data) < 8).
  { destruct Hwf as ((_ & Hi') & _ & _ & Hco). rewrite QUESTIONS_length in *.
    destruct (Z.eq_dec (InterviewState.current_question_index
                          (SessionData.state session_data)) 8) as [E | NE]; [| lia].
    apply Hco in E. congruence. }
  pose proof (replies_object_returns (Main.oracle m) (Main.clock m)
                (SessionData.state session_data) (Main.content m)
                (well_behaved_replies_object m Hwb)
                (proj1 (proj1 Hwf))) as Hok.
  pose proof (turn_decreases (Main.oracle m) (Main.clock m)
                (SessionData.state session_data) (Main.content m)
                Hwf Hord Hlt Hok) as Hdec.
  pose proof (turn_in_order (Main.oracle m) (Main.clock m)
                (SessionData.state session_data) (Main.content m) Hwf Hord)
    as Hord'.
  pose proof (well_behaved_message m (SessionData.state session_data)) as Hmsg.
  rewrite (loop_body_accepted session_data m (proj1 Hwb)) in Hspec |- *.
  destruct (InterviewerAgent.validate_and_respond (Main.oracle m) (Main.clock m)
              (SessionData.state session_data) (Main.content m))
    as [state' [r | e]]; [| discriminate Hok].
  simpl in Hdec, Hord'. destruct (Hmsg r Hwb eq_refl) as (s & Hs).
  cbv zeta in Hspec |- *.
  destruct (InterviewerAgent.action r); [| | by left].
  - rewrite Hs in Hspec |- *. simpl in Hspec |- *.
    destruct Hspec as (? & ? & _). right. done.
  - rewrite Hs in Hspec |- *. simpl in Hspec |- *.
    destruct Hspec as (? & ? & _). right. done.
Qed.

Lemma conversation_well_behaved (inbox : list Main.Incoming)
    (session_data : SessionData.t) :
  Session.well_formed (SessionData.state session_data) ->
  Flow.in_catalog_order (SessionData.state session_data) ->
  InterviewState.is_completed (SessionData.state session_data) = false ->
  Forall Handler.well_behaved inbox ->
  let '(final, events, status) := Main.conversation session_data inbox in
  status = Main.Finished
  \/ (status = Main.Running
      /\ 1 <= Flow.remaining (SessionData.state final)
         <= Flow.remaining (SessionData.state session_data)
            - Z.of_nat (length inbox)).
Proof.
  revert session_data.
  induction inbox as [| m inbox IH]; intros session_data Hwf Hord Hopen Hall.
  - simpl. right. split; [done |].
    destruct (remaining_bounds _ Hwf) as (_ & Hlt).
    destruct Hwf as ((_ & Hi') & _ & _ & Hco). rewrite QUESTIONS_length in *.
    destruct (Z.eq_dec (InterviewState.current_question_index
                          (SessionData.state session_data)) 8) as [E | NE].
    + apply Hco in E. congruence.
    + specialize (Hlt ltac:(lia)). lia.
  - apply Forall_cons in Hall as (Hm & Hall). rewrite conversation_cons.
    pose proof (loop_body_well_behaved session_data m Hwf Hord Hopen Hm) as Hbody.
    destruct (Main.loop_body session_data m) as [[next events] status].
    destruct Hbody as [-> | (-> & Hwf' & Hord' & Hopen' & Hdec)]; [by left |].
    specialize (IH next Hwf' Hord' Hopen' Hall).
    destruct (Main.conversation next inbox) as [[final later] st].
    destruct IH as [-> | (-> & Hrem)]; [by left |].
    right. split; [done |]. simpl length. lia.
Qed.

End WellBehaved.

Section Delivered.


(** On a connection that delivers the messages of the iteration, the
    endpoint does with an answer text what the loop of [Main] does. *)
Lemma process_delivered (session_data : SessionData.t) a text :
  Websocket.delivers (Websocket.link a) 2 = true ->
  Handler.accepted (Frames.incoming a text) = true ->
  let '(next, events, status) :=
    Main.loop_body session_data (Frames.incoming a text) in
  Websocket.process session_data a text
  = (next, events, Websocket.of_live status).
Proof.
  intros D2 Hacc.
  pose proof (delivers_earlier _ 2 1 ltac:(lia) D2) as D1.
  pose proof (delivers_earlier _ 2 0 ltac:(lia) D2) as D0.
  rewrite (loop_body_accepted _ _ Hacc). unfold Websocket.process.
  simpl Main.oracle. simpl Main.clock. simpl Main.content.
  simpl Main.feedback_reply. rewrite D0, D1, D2. cbn [negb].
  destruct (InterviewerAgent.validate_and_respond (Websocket.oracle a)
              (Websocket.clock a) (SessionData.state session_data) text)
    as [state' [r | e]]; cbv zeta; [| unfold Websocket.handle; by rewrite D0].
  destruct (InterviewerAgent.action r); try done;
    destruct (Main.message_content (InterviewerAgent.message r)); try done;
    unfold Websocket.handle; by rewrite D0.
Qed.

(** A message of [Main] arriving as a JSON string over a connection that
    stays up is handled as [Main] handles it. *)
Lemma loop_body_live (session_data : SessionData.t) (m : Main.Incoming) :
  let '(next, events, status) := Main.loop_body session_data m in
  Websocket.loop_body session_data (Frames.live m)
  = (next, events, Websocket.of_live status).
Proof.
  destruct (Handler.accepted m) eqn:Hacc.
  - assert (Hanswer : Frames.answer (Websocket.frame (Frames.live m))
                      = Some (Main.content m)).
    { unfold Handler.accepted, Main.all_space in Hacc. simpl.
      unfold Frames.answer. simpl.
      change Main.MAX_ANSWER_LENGTH with 2000%nat in Hacc. by rewrite Hacc. }
    rewrite (loop_body_answer _ _ _ Hanswer).
    pose proof (process_delivered session_data (Frames.live m) (Main.content m)
                  eq_refl) as H.
    assert (E : Frames.incoming (Frames.live m) (Main.content m) = m)
      by (by destruct m).
    rewrite E in H. by apply H.
  - rewrite (loop_body_rejected _ _ Hacc).
    assert (Hrefusal :
              Frames.refusal (Websocket.frame (Frames.live m))
              = Some (if Main.all_space (Main.content m)
                      then "I didn't catch that. Could you please repeat your answer?"
                      else "Your answer is too long. Please keep it under 2000 characters.")).
    { unfold Handler.accepted, Main.all_space in *. simpl.
      unfold Frames.refusal. simpl.
      destruct (forallb Text.isspace (Text.code_points (Main.content m)));
        [done |].
      simpl in Hacc. apply Nat.leb_gt in Hacc.
      change Main.MAX_ANSWER_LENGTH with 2000%nat in Hacc.
      destruct (Nat.ltb_spec 2000 (Text.len (Main.content m))); [done | lia]. }
    by rewrite (loop_body_refused _ _ _ Hrefusal).
Qed.

Lemma conversation_live (inbox : list Main.Incoming)
    (session_data : SessionData.t) :
  let '(final, events, status) := Main.conversation session_data inbox in
  Websocket.conversation session_data (Frames.live <$> inbox)
  = (final, events, Websocket.of_live status).
Proof.
  revert session_data. induction inbox as [| m inbox IH]; intros session_data.
  - done.
  - rewrite fmap_cons, conversation_cons, conversation_cons_ws.
    pose proof (loop_body_live session_data m) as Hbody.
    destruct (Main.loop_body session_data m) as [[next events] status].
    rewrite Hbody. destruct status; try done. simpl.
    specialize (IH next).
    destruct (Main.conversation next inbox) as [[final later] st].
    by rewrite IH.
Qed.

(** The endpoint on decoded text over a connection that stays up is the
    loop of [Main]. *)
Lemma interview_websocket_live session_id started (inbox : list Main.Incoming) :
  let '(final, trace, status) :=
    Main.interview_websocket session_id started inbox in
  Websocket.interview_websocket session_id started Websocket.Up
    (Frames.live <$> inbox)
  = (final, trace, Websocket.of_live status).
Proof.
  unfold Main.interview_websocket, Websocket.interview_websocket,
    Main.open_session, Websocket.open_session.
  cbn [Websocket.delivers negb].
  change (InterviewerAgent.get_current_question
            (InterviewState.Build session_id 0 [] false started None))
    with (Ok (nth_error InterviewerAgent.QUESTIONS 0)).
  cbn [nth_error InterviewerAgent.QUESTIONS].
  pose proof (conversation_live inbox
                (SessionData.Build session_id
                   (InterviewState.Build session_id 0 [] false started None)
                   None)) as Hconv.
  destruct (Main.conversation _ inbox) as [[final events] status].
  by rewrite Hconv.
Qed.




End Delivered.



(** ** What the storage holds *)

Section Storage.

Lemma string_length_app (a b : string) :
  String.length (a +:+ b) = (String.length a + String.length b)%nat.
Proof.
  induction a as [| x a IH]; [done |].
  change (S (String.length (a +:+ b)) = S (String.length a + String.length b)).
  by rewrite IH.
Qed.

Lemma get_current_question_raises state e :
  InterviewerAgent.get_current_question state = Raise e -> e = IndexError.
Proof.
  unfold InterviewerAgent.get_current_question, getitem.
  repeat match goal with
         | |- context [if ?c then _ else _] => destruct c
         | |- context [match ?l !! ?i with _ => _ end] => destruct (l !! i)
         end; simpl; congruence.
Qed.

(** A merge always changes the records. *)
Lemma merge_changes_answers state q text now :
  InterviewState.answers
    (fst (fst (InterviewerAgent._get_or_create_answer state q text now)))
  <> InterviewState.answers state.
Proof.
  destruct (InterviewerAgent._get_or_create_answer state q text now)
    as [[state1 k] r] eqn:Hm.
  destruct (merge_spec _ _ _ _ _ _ _ Hm) as (_ & _ & _ & Hk & _ & _ & Hshape).
  simpl. destruct Hshape as [(_ & -> & _) | (a & Fs & E1 & Hr)].
  - intros E. apply (f_equal length) in E. rewrite length_app in E. simpl in E. lia.
  - destruct (find_answer_Some _ _ _ _ Fs) as (Hka & _).
    intros E. rewrite E, Hka in Hk. injection Hk as Hk.
    rewrite Hr in Hk. apply (f_equal InterviewAnswer.answer_text) in Hk.
    simpl in Hk. apply (f_equal String.length) in Hk.
    rewrite !string_length_app in Hk. simpl in Hk. lia.
Qed.

(** What an exception of the agent leaves behind. *)
Lemma agent_raises llm now state text e :
  snd (InterviewerAgent.validate_and_respond llm now state text) = Raise e ->
  (e = IndexError
   /\ fst (InterviewerAgent.validate_and_respond llm now state text) = state)
  \/ (e = AttributeError
      /\ exists q,
          InterviewerAgent.get_current_question state = Ok (Some q)
          /\ fst (InterviewerAgent.validate_and_respond llm now state text)
             = fst (fst (InterviewerAgent._get_or_create_answer state q text now))).
Proof.
  turn_paths llm now state text; simpl; intros Hr; try discriminate Hr;
    injection Hr as <-.
  1-6: right; split; [done |]; exists q; by rewrite Hm.
  left. split; [by eapply get_current_question_raises | done].
Qed.

Lemma latest_app before (a b : list Main.Event) :
  Handler.latest before (a ++ b) = Handler.latest (Handler.latest before a) b.
Proof.
  unfold Handler.latest, Handler.snapshots. rewrite omap_app, last_app.
  by destruct (last (omap _ b)).
Qed.

(** One iteration: either the storage ends up holding the session data, or
    the agent raised and nothing was saved. *)
Lemma loop_body_latest (session_data : SessionData.t) (m : Main.Incoming) :
  let '(next, events, status) := Main.loop_body session_data m in
  match status with
  | Main.Crashed e =>
      (e = ValidationError /\ Handler.latest session_data events = next)
      \/ (e <> ValidationError
          /\ Handler.snapshots events = []
          /\ SessionData.feedback next = SessionData.feedback session_data
          /\ Flow.answers_grow
               (InterviewState.answers (SessionData.state session_data))
               (InterviewState.answers (SessionData.state next))
          /\ (e = AttributeError ->
              InterviewState.answers (SessionData.state next)
              <> InterviewState.answers (SessionData.state session_data)))
  | _ => Handler.latest session_data events = next
  end.
Proof.
  destruct (Handler.accepted m) eqn:Hacc.
  2: { by rewrite (loop_body_rejected _ _ Hacc). }
  rewrite (loop_body_accepted _ _ Hacc).
  pose proof (agent_raises (Main.oracle m) (Main.clock m)
                (SessionData.state session_data) (Main.content m)) as Hraise.
  pose proof (turn_grows (Main.oracle m) (Main.clock m)
                (SessionData.state session_data) (Main.content m)) as Hgrow.
  destruct (InterviewerAgent.validate_and_respond (Main.oracle m) (Main.clock m)
              (SessionData.state session_data) (Main.content m))
    as [state' [r | e]]; cbv zeta; simpl in Hgrow.
  - destruct (InterviewerAgent.action r); try done;
      destruct (Main.message_content (InterviewerAgent.message r)) eqn:Hmc;
      try done; left; split; try done;
      destruct (InterviewerAgent.message r); simpl in Hmc; congruence.
  - right. destruct (Hraise e eq_refl) as [(-> & _) | (-> & q & Hq & Hst)].
    + split; [done |]. split; [done |]. split; [done |]. split; [done |].
      discriminate.
    + split; [done |]. split; [done |]. split; [done |]. split; [done |].
      intros _. simpl in Hst |- *. rewrite Hst. apply merge_changes_answers.
Qed.

Lemma conversation_latest (inbox : list Main.Incoming)
    (session_data : SessionData.t) :
  let '(final, events, status) := Main.conversation session_data inbox in
  match status with
  | Main.Crashed e =>
      (e = ValidationError /\ Handler.latest session_data events = final)
      \/ (e <> ValidationError
          /\ SessionData.feedback final
             = SessionData.feedback (Handler.latest session_data events)
          /\ Flow.answers_grow
               (InterviewState.answers
                  (SessionData.state (Handler.latest session_data events)))
               (InterviewState.answers (SessionData.state final))
          /\ (e = AttributeError ->
              InterviewState.answers (SessionData.state final)
              <> InterviewState.answers
                   (SessionData.state (Handler.latest session_data events))))
  | _ => Handler.latest session_data events = final
  end.
Proof.
  revert session_data. induction inbox as [| m inbox IH]; intros session_data.
  - done.
  - rewrite conversation_cons.
    pose proof (loop_body_latest session_data m) as Hbody.
    destruct (Main.loop_body session_data m) as [[next events] status].
    destruct status as [| | e].
    + specialize (IH next).
      destruct (Main.conversation next inbox) as [[final later] st].
      rewrite latest_app, Hbody. exact IH.
    + exact Hbody.
    + destruct Hbody as [(-> & Hl) | (Hne & Hs & Hfb & Hg & Hd)]; [by left |].
      right. unfold Handler.latest. rewrite Hs. simpl. done.
Qed.

End Storage.

(** X10. Whenever the websocket loop is waiting for the next message, has
    finished, or has failed on building a message, the last snapshot it
    handed to the storage is the session data it holds in memory. *)
Theorem storage_follows_memory
    (session_id : string) (started : Z) (inbox : list Main.Incoming) :
  let '(final, trace, status) :=
    Main.interview_websocket session_id started inbox in
  status = Main.Running \/ status = Main.Finished
  \/ status = Main.Crashed ValidationError ->
  last (Handler.snapshots trace) = Some final.
Proof.
  unfold Main.interview_websocket, Main.open_session.
  set (opened := SessionData.Build session_id
                   (InterviewState.Build session_id 0 [] false started None) None).
  pose proof (conversation_latest inbox opened) as Hconv.
  destruct (Main.conversation opened inbox) as [[final events] status].
  intros Hstatus.
  assert (Hl : Handler.latest opened events = final).
  { destruct Hstatus as [-> | [-> | ->]]; [done | done |].
    destruct Hconv as [(_ & Hl) | (Hne & _)]; [done | by destruct Hne]. }
  unfold Handler.snapshots. rewrite omap_app, last_app.
  unfold Handler.latest, Handler.snapshots in Hl.
  destruct (last (omap _ events)) as [d |]; simpl in Hl |- *; congruence.
Qed.

Lemma storage_follows_memory_witness :
  let inbox :=
    [ Main.BuildIncoming "I am Asha" 10 Sample.demanding GeminiService.LlmRaised;
      Main.BuildIncoming "" 11 Sample.demanding GeminiService.LlmRaised;
      Main.BuildIncoming "from Pune" 12 Sample.satisfied GeminiService.LlmRaised ] in
  last (Handler.snapshots (snd (fst (Main.interview_websocket "s" 0 inbox))))
  = Some (fst (fst (Main.interview_websocket "s" 0 inbox))).
Proof.
  cbv zeta.
  pose proof (storage_follows_memory "s" 0
                [ Main.BuildIncoming "I am Asha" 10 Sample.demanding
                    GeminiService.LlmRaised;
                  Main.BuildIncoming "" 11 Sample.demanding GeminiService.LlmRaised;
                  Main.BuildIncoming "from Pune" 12 Sample.satisfied
                    GeminiService.LlmRaised ]) as H.
  assert (Hs : snd (Main.interview_websocket "s" 0
                      [ Main.BuildIncoming "I am Asha" 10 Sample.demanding
                          GeminiService.LlmRaised;
                        Main.BuildIncoming "" 11 Sample.demanding
                          GeminiService.LlmRaised;
                        Main.BuildIncoming "from Pune" 12 Sample.satisfied
                          GeminiService.LlmRaised ]) = Main.Running)
    by (vm_compute; reflexivity).
  destruct (Main.interview_websocket "s" 0 _) as [[final trace] status].
  simpl in Hs |- *. apply H. by left.
Defined.

Section Unsaved.



End Unsaved.



(** ** The feedback built from the model's reply *)

Section Feedback.
Import FeedbackService.

Lemma as_str_spec v s : as_str v = Ok s <-> v = PStr s.
Proof. destruct v; simpl; split; congruence. Qed.

Lemma all_str_spec l ss : all_str l = Ok ss <-> l = PStr <$> ss.
Proof.
  revert ss. induction l as [| v l IH]; intros ss; simpl.
  - split; [intros [= <-]; done | by destruct ss].
  - destruct (as_str v) as [s |] eqn:Hv; simpl.
    + apply as_str_spec in Hv as ->.
      destruct (all_str l) as [ss' |] eqn:Hl; simpl.
      * split.
        -- intros [= <-]. simpl. f_equal. by apply IH.
        -- destruct ss as [| s0 ss]; [done |]. simpl. intros [= -> Hl'].
           apply IH in Hl'. congruence.
      * split; [done |]. destruct ss as [| s0 ss]; [done |]. simpl.
        intros [= -> Hl']. apply IH in Hl'. congruence.
    + split; [done |]. destruct ss as [| s0 ss]; [done |]. simpl.
      intros [= -> _]. simpl in Hv. congruence.
Qed.

Lemma as_str_list_spec v ss : as_str_list v = Ok ss <-> v = PList (PStr <$> ss).
Proof.
  destruct v; simpl; try (split; congruence).
  rewrite all_str_spec. split; congruence.
Qed.

(** The [try] of [generate_feedback] succeeds on an object exactly when each
    of the five fields, defaulted when absent, has the type of its field. *)
Lemma compile_feedback_spec (d : gmap string value) now session_id answers f :
  compile_feedback (GeminiService.JsonValue (PDict d)) now session_id answers
  = Ok f
  <-> exists oa st ar su en,
      default (PStr "") (d !! "overall_assessment") = PStr oa
      /\ default (PList []) (d !! "strengths") = PList (PStr <$> st)
      /\ default (PList []) (d !! "areas_for_improvement") = PList (PStr <$> ar)
      /\ default (PList []) (d !! "specific_suggestions") = PList (PStr <$> su)
      /\ default (PStr "") (d !! "encouragement") = PStr en
      /\ f = InterviewFeedback.Build session_id oa st ar su en
               (_generate_category_feedback answers) now.
Proof.
  unfold compile_feedback. simpl get. simpl bind.
  change (match d !! "overall_assessment" with Some x => x | None => PStr "" end)
    with (default (PStr "") (d !! "overall_assessment")).
  change (match d !! "strengths" with Some x => x | None => PList [] end)
    with (default (PList []) (d !! "strengths")).
  change (match d !! "areas_for_improvement" with Some x => x | None => PList [] end)
    with (default (PList []) (d !! "areas_for_improvement")).
  change (match d !! "specific_suggestions" with Some x => x | None => PList [] end)
    with (default (PList []) (d !! "specific_suggestions")).
  change (match d !! "encouragement" with Some x => x | None => PStr "" end)
    with (default (PStr "") (d !! "encouragement")).
  split.
  - intros H.
    destruct (as_str (default (PStr "") (d !! "overall_assessment")))
      as [oa |] eqn:H1; simpl in H; [| discriminate].
    destruct (as_str_list (default (PList []) (d !! "strengths")))
      as [st |] eqn:H2; simpl in H; [| discriminate].
    destruct (as_str_list (default (PList []) (d !! "areas_for_improvement")))
      as [ar |] eqn:H3; simpl in H; [| discriminate].
    destruct (as_str_list (default (PList []) (d !! "specific_suggestions")))
      as [su |] eqn:H4; simpl in H; [| discriminate].
    destruct (as_str (default (PStr "") (d !! "encouragement")))
      as [en |] eqn:H5; simpl in H; [| discriminate].
    injection H as <-. exists oa, st, ar, su, en.
    apply as_str_spec in H1, H5. apply as_str_list_spec in H2, H3, H4. done.
  - intros (oa & st & ar & su & en & H1 & H2 & H3 & H4 & H5 & ->).
    apply as_str_spec in H1, H5. apply as_str_list_spec in H2, H3, H4.
    rewrite H1, H2, H3, H4, H5. done.
Qed.

End Feedback.

(** X12. When the model's reply to the feedback request is a JSON object,
    each of the five fields is taken from it, or is empty when its key is
    absent, provided the texts are strings and the lists are lists of
    strings; if a field that is present has another type, the fixed fallback
    is returned instead. *)
Theorem feedback_from_reply
    (d : gmap string value) (now : Z) (session_id : string)
    (answers : list InterviewAnswer.t) :
  (forall oa st ar su en,
     default (PStr "") (d !! "overall_assessment") = PStr oa ->
     default (PList []) (d !! "strengths") = PList (PStr <$> st) ->
     default (PList []) (d !! "areas_for_improvement") = PList (PStr <$> ar) ->
     default (PList []) (d !! "specific_suggestions") = PList (PStr <$> su) ->
     default (PStr "") (d !! "encouragement") = PStr en ->
     FeedbackService.generate_feedback (GeminiService.JsonValue (PDict d)) now
       session_id answers
     = InterviewFeedback.Build session_id oa st ar su en
         (FeedbackService._generate_category_feedback answers) now)
  /\ ((forall oa, default (PStr "") (d !! "overall_assessment") <> PStr oa)
      \/ (forall st, default (PList []) (d !! "strengths") <> PList (PStr <$> st))
      \/ (forall ar, default (PList []) (d !! "areas_for_improvement")
                     <> PList (PStr <$> ar))
      \/ (forall su, default (PList []) (d !! "specific_suggestions")
                     <> PList (PStr <$> su))
      \/ (forall en, default (PStr "") (d !! "encouragement") <> PStr en) ->
      FeedbackService.generate_feedback (GeminiService.JsonValue (PDict d)) now
        session_id answers
      = FeedbackService._generate_fallback_feedback session_id answers now).
Proof.
  split.
  - intros oa st ar su en H1 H2 H3 H4 H5.
    unfold FeedbackService.generate_feedback.
    rewrite (proj2 (compile_feedback_spec d now session_id answers
                      (InterviewFeedback.Build session_id oa st ar su en
                         (FeedbackService._generate_category_feedback answers)
                         now)));
      [done |].
    exists oa, st, ar, su, en. done.
  - intros Hbad. unfold FeedbackService.generate_feedback.
    destruct (FeedbackService.compile_feedback _ _ _ _) as [f | e] eqn:Hc; [| done].
    apply compile_feedback_spec in Hc
      as (oa & st & ar & su & en & H1 & H2 & H3 & H4 & H5 & _).
    destruct Hbad as [H | [H | [H | [H | H]]]]; by edestruct H.
Qed.

Lemma feedback_from_reply_witness :
  InterviewFeedback.strengths
    (FeedbackService.generate_feedback
       (GeminiService.JsonValue
          (PDict (<["strengths" := PList [PStr "clear"; PStr "calm"]]> ∅)))
       10 "s" [])
  = ["clear"; "calm"]
  /\ InterviewFeedback.strengths
       (FeedbackService.generate_feedback
          (GeminiService.JsonValue (PDict (<["strengths" := PStr "clear"]> ∅)))
          10 "s" [])
     = [ "Completed all interview questions";
         "Showed willingness to participate";
         "Provided thoughtful responses" ].
Proof.
  split.
  - rewrite (proj1 (feedback_from_reply
                      (<["strengths" := PList [PStr "clear"; PStr "calm"]]> ∅)
                      10 "s" [])
               "" ["clear"; "calm"] [] [] ""); reflexivity.
  - rewrite (proj2 (feedback_from_reply (<["strengths" := PStr "clear"]> ∅)
                      10 "s" [])); [reflexivity |].
    right. left. intros st. vm_compute. discriminate.
Defined.

(** X13. The feedback [generate_feedback] returns has either no section
    per category, when it is the fallback, or exactly one section per
    answer, in the order of the answers, titled after the answer's category,
    without a score, and saying good detail exactly when the answer text has
    more than 100 characters, counted as Python's [len] counts them. *)
Theorem category_feedback_sections
    (reply : GeminiService.llm_json) (now : Z) (session_id : string)
    (answers : list InterviewAnswer.t) :
  let feedback :=
    FeedbackService.generate_feedback reply now session_id answers in
  (feedback = FeedbackService._generate_fallback_feedback session_id answers now
   /\ InterviewFeedback.category_feedback feedback = [])
  \/ (length (InterviewFeedback.category_feedback feedback) = length answers
      /\ forall i a,
          answers !! i = Some a ->
          exists section,
            InterviewFeedback.category_feedback feedback !! i = Some section
            /\ FeedbackSection.title section
               = FeedbackService.category_title
                   (InterviewAnswer.question_category a)
            /\ FeedbackSection.score section = None
            /\ FeedbackSection.content section
               = (if (100 <? Text.len (InterviewAnswer.answer_text a))%nat
                  then "You addressed this question with good detail."
                  else "You addressed this question with a brief response.")).
Proof.
  cbv zeta. unfold FeedbackService.generate_feedback.
  destruct (FeedbackService.compile_feedback reply now session_id answers)
    as [f | e] eqn:Hc; [| by left].
  right. destruct reply as [| | v]; try discriminate Hc.
  destruct v; try discriminate Hc.
  apply compile_feedback_spec in Hc as (oa & st & ar & su & en & _ & _ & _ & _ & _ & ->).
  simpl. unfold FeedbackService._generate_category_feedback.
  split; [by rewrite length_fmap |].
  intros i a Hi. eexists. rewrite list_lookup_fmap, Hi. simpl.
  split; [reflexivity |]. split; [done |]. split; [done |].
  by destruct (100 <? Text.len (InterviewAnswer.answer_text a))%nat.
Qed.

Lemma category_feedback_sections_witness :
  let answers :=
    [ InterviewAnswer.Build LEARNINGS "Tell me five things"
        "अअअअअअअअअअअअअअअअअअअअअअअअअअअअअअअअअअ" 0
        (PBool true) 5 ] in
  FeedbackSection.content
    <$> InterviewFeedback.category_feedback
          (FeedbackService.generate_feedback
             (GeminiService.JsonValue (PDict ∅)) 10 "s" answers)
  = ["You addressed this question with a brief response."].
Proof.
  cbv zeta.
  destruct (category_feedback_sections (GeminiService.JsonValue (PDict ∅)) 10 "s"
              [ InterviewAnswer.Build LEARNINGS "Tell me five things"
                  "अअअअअअअअअअअअअअअअअअअअअअअअअअअअअअअअअअ" 0
                  (PBool true) 5 ])
    as [(Hfb & _) | (Hlen & Hsec)].
  - vm_compute in Hfb. discriminate Hfb.
  - destruct (Hsec 0%nat _ eq_refl) as (section & Hs & _ & _ & Hcontent).
    destruct (InterviewFeedback.category_feedback _) as [| x [| y l]];
      try discriminate Hlen.
    simpl in Hs. injection Hs as ->. simpl. by rewrite Hcontent.
Defined.

(** ** The progress line *)

(** A response that is not the complete action comes with a state that
    still has a question. *)
Lemma asking_response_has_question llm now state text r :
  snd (InterviewerAgent.validate_and_respond llm now state text) = Ok r ->
  InterviewerAgent.action r <> InterviewerAgent.complete ->
  InterviewState.current_question_index
    (fst (InterviewerAgent.validate_and_respond llm now state text)) < 8.
Proof.
  turn_paths llm now state text; simpl; intros Hr; try discriminate Hr;
    injection Hr as <-; simpl; intros Hact; try done.
  destruct (merge_spec _ _ _ _ _ _ _ Hm) as (-> & _).
  by destruct (get_current_question_Some _ _ Hq).
Qed.

(** X14. Whenever a turn of a session answers with a question (next
    question or follow-up), the progress line computed on the returned state
    reads "Question k of 8" with k between 1 and 8, k being the position of
    the question asked; a new session starts at "Question 1 of 8". *)
Theorem progress_in_range
    (session_id : string) (started : Z) (turns : list Session.Turn)
    (t : Session.Turn) (r : InterviewerAgent.Response) :
  let state := Session.run (Session.initial session_id started) turns in
  snd (Session.turn state t) = Ok r ->
  InterviewerAgent.action r <> InterviewerAgent.complete ->
  exists k,
    1 <= k <= 8
    /\ k = InterviewState.current_question_index (Session.step state t) + 1
    /\ Progress.get_progress_status (Session.step state t)
       = "Question " +:+ pretty k +:+ " of 8"
    /\ Progress.get_progress_status (Session.initial session_id started)
       = "Question 1 of 8".
Proof.
  cbv zeta. intros Hr Hact.
  pose proof (turn_well_formed (Session.llm t) (Session.now t) _
                (Session.user_answer t)
                (run_well_formed _ turns (well_formed_initial session_id started)))
    as ((Hi & _) & _).
  pose proof (asking_response_has_question (Session.llm t) (Session.now t)
                (Session.run (Session.initial session_id started) turns)
                (Session.user_answer t) r Hr Hact) as Hq'.
  exists (InterviewState.current_question_index
            (Session.step (Session.run (Session.initial session_id started) turns) t)
          + 1).
  unfold Session.step, Session.turn, Session.run in *.
  split; [lia |]. split; [done |]. split; reflexivity.
Qed.

Lemma progress_in_range_witness :
  Progress.get_progress_status
    (Session.step
       (Session.run (Session.initial "s" 0)
          [Sample.says Sample.satisfied "a"; Sample.says Sample.satisfied "b"])
       (Sample.says Sample.demanding "c"))
  = "Question 3 of 8".
Proof.
  edestruct (progress_in_range "s" 0
               [Sample.says Sample.satisfied "a"; Sample.says Sample.satisfied "b"]
               (Sample.says Sample.demanding "c"))
    as (k & _ & Hk & Hline & _); [reflexivity | discriminate |].
  rewrite Hline, Hk. reflexivity.
Defined.

(** ** The interview graph *)

Section Graph.
Import InterviewGraph.

Lemma to_interview_state_Done graph_state now s :
  _to_interview_state graph_state now = Done s ->
  session_id graph_state = Some (InterviewState.session_id s)
  /\ current_question_index graph_state
     = Some (InterviewState.current_question_index s)
  /\ is_completed graph_state = Some (InterviewState.is_completed s)
  /\ InterviewState.answers s = default [] (answers graph_state).
Proof.
  unfold _to_interview_state.
  destruct (session_id graph_state), (current_question_index graph_state),
    (is_completed graph_state); simpl; try discriminate.
  intros [= <-]. done.
Qed.

End Graph.

(** X15. In the interview graph, for both nodes with an edge to
    [process_answer], the routing key read after [process_answer] is
    "process_answer", which the routing table does not contain, except when
    [ask_question] found no question left (index 8 or more), where it is
    "generate_feedback", which the table maps to the feedback node. The keys
    "ask_question", "follow_up" and "end" of the table are never produced
    there. *)
Theorem routing_after_processing
    (reply : GeminiService.llm_json) (now : Z) (n : InterviewGraph.Node)
    (state state' : InterviewGraph.InterviewGraphState) :
  InterviewGraph.edge n = Some (InterviewGraph.To InterviewGraph.process_answer) ->
  InterviewGraph.run_node reply now n state = InterviewGraph.Done state' ->
  let key :=
    InterviewGraph._route_after_processing
      (InterviewGraph._process_answer_node state') in
  (key = "process_answer"
   /\ InterviewGraph.route_target InterviewGraph.routes key = None
   /\ (n = InterviewGraph.ask_question ->
       exists index,
         InterviewGraph.current_question_index state = Some index
         /\ -8 <= index < 8
         /\ exists q,
             InterviewGraph.current_message state'
             = Some (InterviewQuestion.question_text q)
             /\ InterviewerAgent.get_current_question
                  (InterviewState.Build "" index [] false 0 None)
                = Ok (Some q)))
  \/ (key = "generate_feedback"
      /\ InterviewGraph.route_target InterviewGraph.routes key
         = Some (InterviewGraph.To InterviewGraph.generate_feedback)
      /\ n = InterviewGraph.ask_question
      /\ InterviewGraph.current_message state'
         = InterviewGraph.current_message state
      /\ exists index,
          InterviewGraph.current_question_index state = Some index
          /\ 8 <= index).
Proof.
  intros Hedge Hrun. cbv zeta.
  destruct n; try discriminate Hedge; simpl in Hrun.
  - unfold InterviewGraph._ask_question_node in Hrun.
    destruct (InterviewGraph._to_interview_state state now) as [s | e] eqn:Hs;
      [| discriminate]. simpl in Hrun.
    destruct (to_interview_state_Done _ _ _ Hs) as (_ & Hidx & _).
    destruct (InterviewerAgent.get_current_question s) as [[q |] | e] eqn:Hq;
      simpl in Hrun; [| | discriminate]; injection Hrun as <-.
    + left. split; [done |]. split; [done |]. intros _.
      exists (InterviewState.current_question_index s).
      split; [done |]. split; [by eapply get_current_question_Some |].
      exists q. split; [done |]. rewrite <- Hq.
      by apply get_current_question_index.
    + right. split; [done |]. split; [done |]. split; [done |]. split; [done |].
      exists (InterviewState.current_question_index s).
      split; [done | by apply get_current_question_None].
  - injection Hrun as <-. left. split; [done |]. split; [done |]. discriminate.
Qed.

Lemma routing_after_processing_witness :
  let waiting :=
    InterviewGraph.BuildState (Some "s") (Some 2) (Some []) (Some false) None None in
  exists state',
    InterviewGraph._ask_question_node waiting 0 = InterviewGraph.Done state'
    /\ InterviewGraph.route_target InterviewGraph.routes
         (InterviewGraph._route_after_processing
            (InterviewGraph._process_answer_node state')) = None.
Proof.
  cbv zeta. eexists. split; [reflexivity |].
  edestruct (routing_after_processing GeminiService.LlmRaised 0
               InterviewGraph.ask_question
               (InterviewGraph.BuildState (Some "s") (Some 2) (Some []) (Some false)
                  None None))
    as [(_ & Hnone & _) | (Hkey & _)]; [reflexivity | reflexivity | |].
  - exact Hnone.
  - vm_compute in Hkey. discriminate Hkey.
Defined.

(** X16. The feedback node of the graph, when it returns, has marked the
    state completed, set the message to the formatted feedback for the
    state's answers and set the routing key to "end", which the table maps
    to the end of the graph, leaving session id, index and answers as they
    were. When the "answers" key is absent it raises KeyError, although the
    conversion to an interview state accepts such a state with no answers. *)
Theorem feedback_node_ends
    (reply : GeminiService.llm_json) (now : Z)
    (state : InterviewGraph.InterviewGraphState) :
  (forall state',
     InterviewGraph._generate_feedback_node reply now state
     = InterviewGraph.Done state' ->
     InterviewGraph.is_completed state' = Some true
     /\ InterviewGraph.route_target InterviewGraph.routes
          (InterviewGraph._route_after_processing state')
        = Some InterviewGraph.END
     /\ InterviewGraph.edge InterviewGraph.generate_feedback
        = Some InterviewGraph.END
     /\ InterviewGraph.session_id state' = InterviewGraph.session_id state
     /\ InterviewGraph.current_question_index state'
        = InterviewGraph.current_question_index state
     /\ InterviewGraph.answers state' = InterviewGraph.answers state
     /\ exists sid given,
         InterviewGraph.session_id state = Some sid
         /\ InterviewGraph.answers state = Some given
         /\ InterviewGraph.current_message state'
            = Some (InterviewGraph._format_feedback_message
                      (FeedbackService.generate_feedback reply now sid given)))
  /\ (InterviewGraph.answers state = None ->
      is_Some (InterviewGraph.session_id state) ->
      is_Some (InterviewGraph.current_question_index state) ->
      is_Some (InterviewGraph.is_completed state) ->
      InterviewGraph._generate_feedback_node reply now state
      = InterviewGraph.Failed (InterviewGraph.KeyError "answers")
      /\ exists s,
          InterviewGraph._to_interview_state state now = InterviewGraph.Done s
          /\ InterviewState.answers s = []).
Proof.
  split.
  - intros state' Hrun. unfold InterviewGraph._generate_feedback_node in Hrun.
    destruct (InterviewGraph._to_interview_state state now) as [s | e];
      [| discriminate]. simpl in Hrun.
    destruct (InterviewGraph.session_id state) as [sid |] eqn:Hsid;
      [| discriminate]. simpl in Hrun.
    destruct (InterviewGraph.answers state) as [given |] eqn:Hans;
      [| discriminate]. simpl in Hrun.
    injection Hrun as <-. simpl. rewrite Hsid, Hans.
    repeat split; try done. exists sid, given. done.
  - intros Hnone (sid & Hsid) (index & Hidx) (done & Hdone).
    unfold InterviewGraph._generate_feedback_node,
      InterviewGraph._to_interview_state.
    rewrite Hsid, Hidx, Hdone, Hnone. simpl. split; [done |].
    eexists. split; [reflexivity | done].
Qed.

Lemma feedback_node_ends_witness :
  let asked :=
    InterviewGraph.BuildState (Some "s") (Some 8) (Some []) (Some false) None
      (Some "generate_feedback") in
  let bare :=
    InterviewGraph.BuildState (Some "s") (Some 8) None (Some false) None None in
  (exists state',
     InterviewGraph._generate_feedback_node GeminiService.LlmRaised 0 asked
     = InterviewGraph.Done state'
     /\ InterviewGraph.is_completed state' = Some true)
  /\ InterviewGraph._generate_feedback_node GeminiService.LlmRaised 0 bare
     = InterviewGraph.Failed (InterviewGraph.KeyError "answers").
Proof.
  cbv zeta. split.
  - eexists. split; [reflexivity |].
    eapply (proj1 (feedback_node_ends GeminiService.LlmRaised 0
                     (InterviewGraph.BuildState (Some "s") (Some 8) (Some [])
                        (Some false) None (Some "generate_feedback")))).
    reflexivity.
  - apply (proj2 (feedback_node_ends GeminiService.LlmRaised 0
                    (InterviewGraph.BuildState (Some "s") (Some 8) None
                       (Some false) None None))); simpl; eauto.
Defined.

(** ** The loop and the agent *)

Section LoopAndAgent.

Lemma set_is_completed_same (s : InterviewState.t) :
  InterviewState.is_completed s = true ->
  InterviewState.set_is_completed s true = s.
Proof. destruct s. simpl. by intros ->. Qed.


End LoopAndAgent.

Section EndpointAndAgent.

Lemma turns_cons_answer a inbox text :
  Frames.answer (Websocket.frame a) = Some text ->
  Frames.turns (a :: inbox)
  = Session.BuildTurn (Websocket.oracle a) (Websocket.clock a) text
    :: Frames.turns inbox.
Proof. intros H. unfold Frames.turns, Frames.turn_of. simpl. by rewrite H. Qed.

Lemma turns_cons_none a inbox :
  Frames.answer (Websocket.frame a) = None ->
  Frames.turns (a :: inbox) = Frames.turns inbox.
Proof. intros H. unfold Frames.turns, Frames.turn_of. simpl. by rewrite H. Qed.

(** The state an iteration leaves, in terms of the agent's turn. *)
Lemma process_state (session_data : SessionData.t) a text :
  InterviewState.current_question_index (SessionData.state session_data) < 8 ->
  let '(next, events, status) := Websocket.process session_data a text in
  let state' :=
    fst (InterviewerAgent.validate_and_respond (Websocket.oracle a)
           (Websocket.clock a) (SessionData.state session_data) text) in
  match status with
  | Websocket.Running => SessionData.state next = state'
  | Websocket.Finished =>
      SessionData.state next
      = InterviewState.set_completed_at state' (Some (Websocket.clock a))
      /\ InterviewState.current_question_index
           (SessionData.state session_data) = 7
      /\ InterviewState.current_question_index state' = 8
  | _ => True
  end.
Proof.
  intros Hlt.
  pose proof (turn_action (Websocket.oracle a) (Websocket.clock a)
                (SessionData.state session_data) text Hlt) as Hact.
  unfold Websocket.process.
  destruct (InterviewerAgent.validate_and_respond (Websocket.oracle a)
              (Websocket.clock a) (SessionData.state session_data) text)
    as [state' [r | e]]; cbv zeta; [| done].
  destruct (InterviewerAgent.action r).
  - destruct (Main.message_content (InterviewerAgent.message r)); [| done].
    by destruct (Websocket.delivers (Websocket.link a) 0).
  - destruct (Main.message_content (InterviewerAgent.message r)); [| done].
    by destruct (Websocket.delivers (Websocket.link a) 0).
  - destruct Hact as (H7 & H8 & Hdone).
    destruct (Websocket.delivers (Websocket.link a) 0); [| done].
    destruct (Websocket.delivers (Websocket.link a) 1); [| done].
    destruct (Websocket.delivers (Websocket.link a) 2); [| done].
    simpl. by rewrite (set_is_completed_same _ Hdone).
Qed.

Lemma conversation_as_run_ws (inbox : list Websocket.Arrival)
    (session_data : SessionData.t) :
  Session.well_formed (SessionData.state session_data) ->
  InterviewState.is_completed (SessionData.state session_data) = false ->
  InterviewState.completed_at (SessionData.state session_data) = None ->
  SessionData.feedback session_data = None ->
  let '(final, events, status) := Websocket.conversation session_data inbox in
  let start := SessionData.state session_data in
  match status with
  | Websocket.Running =>
      SessionData.state final = Session.run start (Frames.turns inbox)
  | Websocket.Finished =>
      exists before a after,
        inbox = before ++ a :: after
        /\ is_Some (Frames.turn_of a)
        /\ InterviewState.current_question_index
             (Session.run start (Frames.turns before)) = 7
        /\ InterviewState.current_question_index
             (Session.run start (Frames.turns (before ++ [a]))) = 8
        /\ SessionData.state final
           = InterviewState.set_completed_at
               (Session.run start (Frames.turns (before ++ [a])))
               (Some (Websocket.clock a))
        /\ Session.run start (Frames.turns inbox)
           = Session.run start (Frames.turns (before ++ [a]))
  | _ => True
  end.
Proof.
  revert session_data.
  induction inbox as [| a inbox IH]; intros session_data Hwf Hopen Hat Hfb;
    cbv zeta.
  - done.
  - rewrite conversation_cons_ws.
    assert (Hlt : InterviewState.current_question_index
                    (SessionData.state session_data) < 8).
    { destruct Hwf as (Hi & _ & _ & Hco). rewrite QUESTIONS_length in *.
      destruct (Z.eq_dec (InterviewState.current_question_index
                            (SessionData.state session_data)) 8) as [E | NE];
        [| lia].
      apply Hco in E. congruence. }
    destruct (Frames.answer (Websocket.frame a)) as [text |] eqn:Hanswer.
    + rewrite (loop_body_answer _ _ _ Hanswer).
      pose proof (process_stage session_data a text Hwf Hopen Hat Hfb) as Hstage.
      pose proof (process_state session_data a text Hlt) as Hstate.
      destruct (Websocket.process session_data a text) as [[next events] status].
      cbv zeta in Hstate.
      destruct Hstage as (Hwf' & _ & stage & Hends & Hstage & _).
      destruct status as [| | e |]; [| | done | done].
      * destruct stage; try done.
        destruct Hstage as (Hopen' & _ & Hat' & Hfb' & _).
        specialize (IH next (Hwf' eq_refl) Hopen' Hat' Hfb').
        destruct (Websocket.conversation next inbox) as [[final later] st].
        cbv zeta in IH. rewrite Hstate in IH.
        destruct st as [| | e |]; [| | done | done].
        -- by rewrite (turns_cons_answer _ _ _ Hanswer).
        -- destruct IH as (before & b & after & -> & Hturn & H7 & H8 & Hst & Hrun).
           exists (a :: before), b, after.
           rewrite <- !app_comm_cons, !(turns_cons_answer _ _ _ Hanswer).
           done.
      * destruct Hstate as (Hst & H7 & H8).
        assert (Hfrozen :
                  forall turns,
                    Session.run
                      (fst (InterviewerAgent.validate_and_respond
                              (Websocket.oracle a) (Websocket.clock a)
                              (SessionData.state session_data) text)) turns
                    = fst (InterviewerAgent.validate_and_respond
                             (Websocket.oracle a) (Websocket.clock a)
                             (SessionData.state session_data) text)).
        { intros turns. apply run_frozen.
          apply get_current_question_past_end. lia. }
        exists [], a, inbox. split; [done |].
        split; [unfold Frames.turn_of; by rewrite Hanswer |].
        split; [done |].
        rewrite app_nil_l, !(turns_cons_answer _ _ _ Hanswer).
        change (Frames.turns []) with (@nil Session.Turn).
        simpl Session.run. unfold Session.step, Session.turn.
        simpl Session.llm. simpl Session.now. simpl Session.user_answer.
        split; [done |]. split; [done |].
        fold (Session.run
                (fst (InterviewerAgent.validate_and_respond
                        (Websocket.oracle a) (Websocket.clock a)
                        (SessionData.state session_data) text))
                (Frames.turns inbox)).
        by rewrite Hfrozen.
    + rewrite (turns_cons_none _ _ Hanswer).
      destruct (Frames.refusal (Websocket.frame a)) as [notice |] eqn:Hrefusal.
      * rewrite (loop_body_refused _ _ _ Hrefusal).
        destruct (Websocket.delivers (Websocket.link a) 0); [| done].
        specialize (IH session_data Hwf Hopen Hat Hfb).
        destruct (Websocket.conversation session_data inbox)
          as [[final later] st].
        cbv zeta in IH.
        destruct st as [| | e |]; [done | | done | done].
        destruct IH as (before & b & after & -> & Hturn & H7 & H8 & Hst & Hrun).
        exists (a :: before), b, after.
        rewrite <- !app_comm_cons, !(turns_cons_none _ _ Hanswer).
        done.
      * destruct (loop_body_garbled session_data a Hrefusal Hanswer)
          as (e & -> & _).
        done.
Qed.

End EndpointAndAgent.

(** X17. The session state the handler holds is the state the agent's turns
    produce: while the loop is running, it is the initial state run through
    the turns of the frames that handed a text to the agent, in order; when
    the handler has finished, the frame on which it finished is the one
    whose turn moved the index from 7 to 8, the state is the run up to and
    including that turn with the completion time set to the clock of that
    frame, and the frames after it make no difference. *)
Theorem loop_state_is_agent_run
    (session_id : string) (started : Z) (opening : Websocket.Link)
    (inbox : list Websocket.Arrival) :
  let '(final, trace, status) :=
    Websocket.interview_websocket session_id started opening inbox in
  let start := Session.initial session_id started in
  (status = Websocket.Running ->
   SessionData.state final = Session.run start (Frames.turns inbox))
  /\ (status = Websocket.Finished ->
      exists before a after,
        inbox = before ++ a :: after
        /\ is_Some (Frames.turn_of a)
        /\ InterviewState.current_question_index
             (Session.run start (Frames.turns before)) = 7
        /\ InterviewState.current_question_index
             (Session.run start (Frames.turns (before ++ [a]))) = 8
        /\ SessionData.state final
           = InterviewState.set_completed_at
               (Session.run start (Frames.turns (before ++ [a])))
               (Some (Websocket.clock a))
        /\ Session.run start (Frames.turns inbox)
           = Session.run start (Frames.turns (before ++ [a]))).
Proof.
  unfold Websocket.interview_websocket.
  pose proof (open_session_spec session_id started opening) as Hopen.
  destruct (Websocket.open_session session_id started opening)
    as [[opened events] entered].
  destruct Hopen as (-> & _ & _ & [-> | ->] & _); [| by split].
  pose proof (conversation_as_run_ws inbox
                (SessionData.Build session_id
                   (Session.initial session_id started) None)
                (well_formed_initial session_id started)
                eq_refl eq_refl eq_refl) as Hconv.
  destruct (Websocket.conversation _ inbox) as [[final later] status].
  cbv zeta in Hconv |- *. simpl SessionData.state in Hconv.
  split; intros ->; done.
Qed.

Lemma loop_state_is_agent_run_witness :
  let inbox :=
    [ Sample.arrives Sample.demanding "I am Asha" Websocket.Up;
      Sample.arrives Sample.demanding "  " Websocket.Up;
      Sample.arrives Sample.satisfied "from Pune" Websocket.Up ] in
  SessionData.state
    (fst (fst (Websocket.interview_websocket "s" 0 Websocket.Up inbox)))
  = Session.run (Session.initial "s" 0)
      [ Session.BuildTurn Sample.demanding 10 "I am Asha";
        Session.BuildTurn Sample.satisfied 10 "from Pune" ].
Proof.
  cbv zeta.
  pose proof (loop_state_is_agent_run "s" 0 Websocket.Up
                [ Sample.arrives Sample.demanding "I am Asha" Websocket.Up;
                  Sample.arrives Sample.demanding "  " Websocket.Up;
                  Sample.arrives Sample.satisfied "from Pune" Websocket.Up ])
    as H.
  assert (Hs : snd (Websocket.interview_websocket "s" 0 Websocket.Up
                      [ Sample.arrives Sample.demanding "I am Asha" Websocket.Up;
                        Sample.arrives Sample.demanding "  " Websocket.Up;
                        Sample.arrives Sample.satisfied "from Pune"
                          Websocket.Up ]) = Websocket.Running)
    by (vm_compute; reflexivity).
  destruct (Websocket.interview_websocket "s" 0 Websocket.Up _)
    as [[final trace] status].
  simpl in Hs. cbv zeta in H. destruct H as (H & _).
  simpl fst. rewrite (H Hs). reflexivity.
Defined.


